(** * inngest-ctl: a shallow embedding of the command-line client

    The development follows the layout of the repository:
    [Js] holds the fragment of the JavaScript runtime the program relies on
    (dynamic values, strings, JSON serialisation, dates), [Sys] the effects
    (console, HTTP, clock, file writes, process exit), and then one module
    per source file: [Client], [Events], [Runs], [Cancel], [Output], [Cli].
    The theorems about the program come after the definitions. *)

From Stdlib Require Import ZArith String Ascii List Bool Lia DecimalString Sorted.
From stdpp Require Import base strings gmap list.

Open Scope string_scope.
Open Scope list_scope.

(** Let [simpl] compute the concatenation of strings with a known head. *)
Arguments String.append !_ _ / : simpl nomatch.

(* ===================================================================== *)
(** ** The JavaScript runtime fragment *)
(* ===================================================================== *)

Module Js.

(** Strings are sequences of code units; the model keeps the code units
    below 256, which covers every literal of the program.  The literals
    with a check mark or an information sign hold the bytes of their UTF-8
    encoding. *)

Definition chr (c : ascii) : string := String c EmptyString.

Fixpoint startsWith (s p : string) {struct p} : bool :=
  match p with
  | EmptyString => true
  | String c p' =>
      match s with
      | EmptyString => false
      | String d s' => if Ascii.eqb c d then startsWith s' p' else false
      end
  end.

(** [s.includes(sub)] *)
Fixpoint includes (s sub : string) : bool :=
  startsWith s sub ||
  match s with
  | EmptyString => false
  | String _ s' => includes s' sub
  end.

(** [s.indexOf(sub)]; [None] stands for -1. *)
Fixpoint indexOf (s sub : string) : option nat :=
  if startsWith s sub then Some 0%nat
  else match s with
       | EmptyString => None
       | String _ s' => option_map S (indexOf s' sub)
       end.

Fixpoint sdrop (n : nat) (s : string) : string :=
  match n, s with
  | O, _ => s
  | S n', String _ s' => sdrop n' s'
  | S _, EmptyString => EmptyString
  end.

Fixpoint stake (n : nat) (s : string) : string :=
  match n, s with
  | O, _ => EmptyString
  | S n', String c s' => String c (stake n' s')
  | S _, EmptyString => EmptyString
  end.

(** [s.slice(a, b)] and [s.slice(a)] for non-negative indices. *)
Definition slice (s : string) (a b : nat) : string := stake (b - a) (sdrop a s).
Definition sliceFrom (s : string) (a : nat) : string := sdrop a s.

Fixpoint sall (p : ascii -> bool) (s : string) : bool :=
  match s with
  | EmptyString => true
  | String c s' => p c && sall p s'
  end.

Fixpoint smap (f : ascii -> ascii) (s : string) : string :=
  match s with
  | EmptyString => EmptyString
  | String c s' => String (f c) (smap f s')
  end.

Definition code (c : ascii) : nat := nat_of_ascii c.

Definition lowerChar (c : ascii) : ascii :=
  if (65 <=? code c)%nat && (code c <=? 90)%nat then ascii_of_nat (code c + 32) else c.
Definition upperChar (c : ascii) : ascii :=
  if (97 <=? code c)%nat && (code c <=? 122)%nat then ascii_of_nat (code c - 32) else c.

(** [toLowerCase] and [toUpperCase]; the case mapping of the model is the
    one of the ASCII letters, every other code unit is kept. *)
Definition toLowerCase : string -> string := smap lowerChar.
Definition toUpperCase : string -> string := smap upperChar.

(** [parts.join(sep)] *)
Fixpoint join (sep : string) (parts : list string) : string :=
  match parts with
  | [] => ""
  | [p] => p
  | p :: rest => p +:+ sep +:+ join sep rest
  end.

(** Splits a non-empty string into everything but its last code unit, and
    the last code unit. *)
Fixpoint splitLast (s : string) : option (string * ascii) :=
  match s with
  | EmptyString => None
  | String c s' =>
      match splitLast s' with
      | None => Some (EmptyString, c)
      | Some (init, l) => Some (String c init, l)
      end
  end.

(** Decimal rendering of an integer, as [String(n)] prints an integer
    Number of magnitude below 10^21. *)
Definition showZ (n : Z) : string := NilZero.string_of_int (Z.to_int n).

Definition isDigit (c : ascii) : bool := ((48 <=? code c) && (code c <=? 57))%nat.
Definition digitVal (c : ascii) : Z := Z.of_nat (code c - 48).

(** Value of a string of decimal digits, most significant first. *)
Fixpoint digitsVal (acc : Z) (s : string) : Z :=
  match s with
  | EmptyString => acc
  | String c s' => digitsVal (10 * acc + digitVal c) s'
  end.

Fixpoint takeDigits (s : string) : string :=
  match s with
  | String c s' => if isDigit c then String c (takeDigits s') else EmptyString
  | EmptyString => EmptyString
  end.

Definition isSpace (c : ascii) : bool :=
  ((code c =? 32) || ((9 <=? code c) && (code c <=? 13)) || (code c =? 160))%nat.

Fixpoint trimStart (s : string) : string :=
  match s with
  | String c s' => if isSpace c then trimStart s' else s
  | EmptyString => EmptyString
  end.

(** [parseInt(s, 10)]: leading white space, an optional sign, then the
    longest run of digits; [None] stands for NaN. *)
Definition parseInt (s : string) : option Z :=
  let t := trimStart s in
  let '(neg, t) :=
    match t with
    | String c t' =>
        if Ascii.eqb c "-" then (true, t')
        else if Ascii.eqb c "+" then (false, t')
        else (false, t)
    | EmptyString => (false, t)
    end in
  match takeDigits t with
  | EmptyString => None
  | ds => Some (if neg : bool then (- digitsVal 0 ds)%Z else digitsVal 0 ds)
  end.

(** *** Dynamic values *)

(** A value as the program sees it at run time.  [JObj] lists the own
    enumerable properties in enumeration order; a property is looked up by
    its first occurrence.  The Numbers of the model are the integers (ids,
    counts, status codes and times in milliseconds are), with NaN kept
    apart where the program can produce it. *)
#[warnings="-register-all"]
Inductive JsVal :=
| JUndefined
| JNull
| JBool (b : bool)
| JNum (n : Z)
| JStr (s : string)
| JArr (items : list JsVal)
| JObj (fields : list (string * JsVal)).

(** Exceptions.  [Error] is what the program throws itself with
    [new Error(message)]; the others are raised by the engine or the
    platform, whose message text is not fixed by the language. *)
Inductive Exn :=
| Error (message : string)
| TypeError
| RangeError
| SyntaxError
| NetworkError.

(** The result of evaluating an expression: a value or a thrown exception. *)
Inductive Res (A : Type) :=
| Ok (a : A)
| Raise (e : Exn).
Arguments Ok {A} a.
Arguments Raise {A} e.

Definition rbind {A B} (r : Res A) (k : A -> Res B) : Res B :=
  match r with
  | Ok a => k a
  | Raise e => Raise e
  end.

(** ToBoolean *)
Definition truthy (v : JsVal) : bool :=
  match v with
  | JUndefined | JNull => false
  | JBool b => b
  | JNum n => negb (n =? 0)%Z
  | JStr s => negb (String.eqb s "")
  | JArr _ | JObj _ => true
  end.

(** [a || b] *)
Definition or (a b : JsVal) : JsVal := if truthy a then a else b.

(** [a ?? b] *)
Definition nullish (a b : JsVal) : JsVal :=
  match a with
  | JUndefined | JNull => b
  | _ => a
  end.

Fixpoint lookup (k : string) (fields : list (string * JsVal)) : option JsVal :=
  match fields with
  | [] => None
  | (k', v) :: rest => if String.eqb k' k then Some v else lookup k rest
  end.

(** Property read [v.k] for the property names the program reads, none of
    which is inherited from a prototype ([length] is read through
    [lengthOpt] below).  Reading a property of [null] or [undefined]
    throws; a primitive or an array has none of these properties.
    [v?.k] is [getOpt]. *)
Definition get (v : JsVal) (k : string) : Res JsVal :=
  match v with
  | JUndefined | JNull => Raise TypeError
  | JObj fields => Ok (default JUndefined (lookup k fields))
  | _ => Ok JUndefined
  end.

Definition getOpt (v : JsVal) (k : string) : Res JsVal :=
  match v with
  | JUndefined | JNull => Ok JUndefined
  | _ => get v k
  end.

(** [k in v] for the same property names; the right operand must be an
    object. *)
Definition has (k : string) (v : JsVal) : Res bool :=
  match v with
  | JObj fields => Ok (bool_decide (is_Some (lookup k fields)))
  | JArr _ => Ok false
  | _ => Raise TypeError
  end.

Definition isArray (v : JsVal) : bool :=
  match v with JArr _ => true | _ => false end.

(** [typeof v === "object" && v !== null] *)
Definition isObject (v : JsVal) : bool :=
  match v with JArr _ | JObj _ => true | _ => false end.

(** ToString, as used by template literals. *)
Fixpoint toStr (v : JsVal) : string :=
  match v with
  | JUndefined => "undefined"
  | JNull => "null"
  | JBool true => "true"
  | JBool false => "false"
  | JNum n => showZ n
  | JStr s => s
  | JArr items =>
      join "," (map (fun x => match x with
                              | JUndefined | JNull => ""
                              | _ => toStr x
                              end) items)
  | JObj _ => "[object Object]"
  end.

(** A method call on a value the program takes for a string
    ([x.toLowerCase()], [x.slice(0, 12)], [x.length] in [truncate]): on
    [undefined], [null], a number or a boolean the call throws a
    TypeError.  The declared type of these fields is [string]; the model
    treats the remaining ill-typed values, arrays and objects, like the
    other non-strings. *)
Definition asStr (v : JsVal) : Res string :=
  match v with
  | JStr s => Ok s
  | _ => Raise TypeError
  end.

(** *** JSON.stringify *)

Definition hexDigit (n : nat) : ascii :=
  ascii_of_nat (if (n <? 10)%nat then 48 + n else 87 + n).

Definition escapeChar (c : ascii) : string :=
  let n := code c in
  if (n =? 34)%nat then "\" +:+ chr c
  else if (n =? 92)%nat then "\\"
  else if (n =? 8)%nat then "\b"
  else if (n =? 12)%nat then "\f"
  else if (n =? 10)%nat then "\n"
  else if (n =? 13)%nat then "\r"
  else if (n =? 9)%nat then "\t"
  else if (n <? 32)%nat then
    "\u00" +:+ chr (hexDigit (n / 16)) +:+ chr (hexDigit (n mod 16))
  else chr c.

Fixpoint escape (s : string) : string :=
  match s with
  | EmptyString => EmptyString
  | String c s' => escapeChar c +:+ escape s'
  end.

Definition dq : string := chr (ascii_of_nat 34).
Definition nl : string := chr (ascii_of_nat 10).

Definition quote (s : string) : string := dq +:+ escape s +:+ dq.

Definition wrap (opening closing gap cur : string) (parts : list string) : string :=
  match parts with
  | [] => opening +:+ closing
  | _ =>
      if String.eqb gap "" then opening +:+ join "," parts +:+ closing
      else opening +:+ nl +:+ (cur +:+ gap)
             +:+ join ("," +:+ nl +:+ (cur +:+ gap)) parts
             +:+ nl +:+ cur +:+ closing
  end.

(** [JSON.stringify(v, null, gap)]: [None] is the result [undefined].
    [cur] is the indentation of the enclosing line. *)
Fixpoint serialize (gap cur : string) (v : JsVal) : option string :=
  match v with
  | JUndefined => None
  | JNull => Some "null"
  | JBool true => Some "true"
  | JBool false => Some "false"
  | JNum n => Some (showZ n)
  | JStr s => Some (quote s)
  | JArr items =>
      Some (wrap "[" "]" gap cur
              (map (fun x => default "null" (serialize gap (cur +:+ gap) x)) items))
  | JObj fields =>
      Some (wrap "{" "}" gap cur
              ((fix props (fs : list (string * JsVal)) : list string :=
                  match fs with
                  | [] => []
                  | (k, x) :: rest =>
                      match serialize gap (cur +:+ gap) x with
                      | None => props rest
                      | Some sx =>
                          (quote k +:+ ":" +:+ (if String.eqb gap "" then "" else " ") +:+ sx)
                            :: props rest
                      end
                  end) fields))
  end.

Definition stringify (v : JsVal) : option string := serialize "" "" v.
Definition stringify2 (v : JsVal) : option string := serialize "  " "" v.

(** *** Dates *)

Local Open Scope Z_scope.

Definition msPerDay : Z := 86400000.
Definition maxTime : Z := 8640000000000000.

(** TimeClip: a time value is an integer number of milliseconds within
    100 million days of the epoch; [None] is the invalid date. *)
Definition timeClip (t : Z) : option Z :=
  if Z.abs t <=? maxTime then Some t else None.

(** Year, month and day of the proleptic Gregorian calendar for a day
    number counted from 1970-01-01. *)
Definition civil (days : Z) : Z * Z * Z :=
  let z := days + 719468 in
  let era := z / 146097 in
  let doe := z mod 146097 in
  let yoe := (doe - doe / 1460 + doe / 36524 - doe / 146096) / 365 in
  let doy := doe - (365 * yoe + yoe / 4 - yoe / 100) in
  let mp := (5 * doy + 2) / 153 in
  let d := doy - (153 * mp + 2) / 5 + 1 in
  let m := if mp <? 10 then mp + 3 else mp - 9 in
  let y := yoe + era * 400 + (if m <=? 2 then 1 else 0) in
  (y, m, d).

Fixpoint zeros (n : nat) : string :=
  match n with
  | O => ""
  | S n' => String "0" (zeros n')
  end.

(** [s.padStart(width, "0")] *)
Definition padStart0 (width : nat) (s : string) : string :=
  zeros (width - String.length s) +:+ s.

Definition pad (width : nat) (n : Z) : string := padStart0 width (showZ n).

Definition isoYear (y : Z) : string :=
  if (0 <=? y) && (y <=? 9999) then pad 4 y
  else (if y <? 0 then "-" else "+") +:+ pad 6 (Z.abs y).

(** [new Date(t).toISOString()] for a valid time value [t]. *)
Definition isoOfTime (t : Z) : string :=
  let '(y, m, d) := civil (t / msPerDay) in
  let r := t mod msPerDay in
  isoYear y +:+ "-" +:+ pad 2 m +:+ "-" +:+ pad 2 d +:+ "T"
    +:+ pad 2 (r / 3600000) +:+ ":" +:+ pad 2 (r / 60000 mod 60) +:+ ":"
    +:+ pad 2 (r / 1000 mod 60) +:+ "." +:+ pad 3 (r mod 1000) +:+ "Z".

(** [date.toISOString()]: throws a RangeError on the invalid date. *)
Definition toISOString (date : option Z) : Res string :=
  match date with
  | Some t => Ok (isoOfTime t)
  | None => Raise RangeError
  end.

End Js.

Import Js.

(** A Number that may be NaN ([None]). *)
Definition Number := option Z.

Definition showNumber (n : Number) : string :=
  match n with
  | Some z => showZ z
  | None => "NaN"
  end.

(** [new Date(n)] for a Number. *)
Definition dateOfNumber (n : Number) : option Z :=
  match n with
  | Some t => timeClip t
  | None => None
  end.

(* ===================================================================== *)
(** ** Effects *)
(* ===================================================================== *)

Module Sys.

Record Request := {
  url : string;
  method : string;
  headers : list (string * string);
  body : option string
}.

Record Response := {
  status : Z;
  text : string
}.

(** What the program takes from its surroundings. *)
Record Platform := {
  (** successive readings of [Date.now()] *)
  clock : nat -> Z;
  (** [process.env] *)
  env : string -> option string;
  (** the remote end; [None] when the call does not complete *)
  fetch : Request -> option Response;
  (** [JSON.parse]; [None] when it throws a SyntaxError *)
  parseJSON : string -> option JsVal;
  (** [new Date(s).getTime()]; [None] for NaN *)
  parseDate : string -> option Z;
  (** [date.toLocaleTimeString("en-US", { hour12: false })] of a valid
      time value, in the local time zone *)
  localeTime : Z -> string;
  (** [(a / b).toFixed(2)] *)
  fixed2 : Z -> Z -> string;
  (** [Bun.file(path)]: the text of the file when it exists *)
  readFile : string -> option string;
  (** the [message] of an exception raised by the engine *)
  describe : Exn -> string
}.

(** What a run of the program leaves behind. *)
Record World := {
  stdout : list string;
  stderr : list string;
  sent : list Request;
  files : list (string * string);
  ticks : nat
}.

Definition world0 : World :=
  {| stdout := []; stderr := []; sent := []; files := []; ticks := 0 |}.

(** The world after one more reading of the clock. *)
Definition tick (w : World) : World :=
  {| stdout := stdout w; stderr := stderr w; sent := sent w;
     files := files w; ticks := S (ticks w) |}.

(** The world after [lines] more lines on the standard output and [n]
    more readings of the clock. *)
Definition grow (w : World) (lines : list string) (n : nat) : World :=
  {| stdout := stdout w ++ lines; stderr := stderr w; sent := sent w;
     files := files w; ticks := n + ticks w |}.

(** How a computation ends: with a value, with an exception in flight, or
    with [process.exit(code)], which no handler intercepts. *)
Inductive Outcome (A : Type) :=
| Done (a : A)
| Throw (e : Exn)
| Exit (code : Z).
Arguments Done {A} a.
Arguments Throw {A} e.
Arguments Exit {A} code.

Definition M (A : Type) : Type := World -> Outcome A * World.

Definition ret {A} (a : A) : M A := fun w => (Done a, w).

Definition bind {A B} (c : M A) (k : A -> M B) : M B :=
  fun w =>
    match c w with
    | (Done a, w') => k a w'
    | (Throw e, w') => (Throw e, w')
    | (Exit code, w') => (Exit code, w')
    end.

Definition throw {A} (e : Exn) : M A := fun w => (Throw e, w).

Definition exit {A} (code : Z) : M A := fun w => (Exit code, w).

(** [try { c } catch (err) { h err }] *)
Definition try_catch {A} (c : M A) (h : Exn -> M A) : M A :=
  fun w =>
    match c w with
    | (Throw e, w') => h e w'
    | r => r
    end.

Definition lift {A} (r : Res A) : M A :=
  match r with
  | Ok a => ret a
  | Raise e => throw e
  end.

Definition console_log (line : string) : M unit :=
  fun w => (Done tt, {| stdout := stdout w ++ [line]; stderr := stderr w;
                        sent := sent w; files := files w; ticks := ticks w |}).

Definition console_error (line : string) : M unit :=
  fun w => (Done tt, {| stdout := stdout w; stderr := stderr w ++ [line];
                        sent := sent w; files := files w; ticks := ticks w |}).

(** [Bun.write(path, content)] *)
Definition write (path content : string) : M unit :=
  fun w => (Done tt, {| stdout := stdout w; stderr := stderr w;
                        sent := sent w; files := files w ++ [(path, content)];
                        ticks := ticks w |}).

Section WithPlatform.
Variable pf : Platform.

Definition Date_now : M Z :=
  fun w => (Done (clock pf (ticks w)), tick w).

(** [await fetch(url, init)] *)
Definition do_fetch (rq : Request) : M Response :=
  fun w =>
    let w' := {| stdout := stdout w; stderr := stderr w; sent := sent w ++ [rq];
                 files := files w; ticks := ticks w |} in
    match fetch pf rq with
    | Some rs => (Done rs, w')
    | None => (Throw NetworkError, w')
    end.

(** [JSON.parse(s)] *)
Definition JSON_parse (s : string) : M JsVal :=
  match parseJSON pf s with
  | Some v => ret v
  | None => throw SyntaxError
  end.

(** [err.message] *)
Definition messageOf (e : Exn) : string :=
  match e with
  | Error m => m
  | _ => describe pf e
  end.

(** [new Date(v)] for a value: the time value, or [None] for the
    invalid date. *)
Definition newDate (v : JsVal) : option Z :=
  match v with
  | JUndefined => None
  | JNull => Some 0%Z
  | JBool b => Some (if b then 1 else 0)%Z
  | JNum n => timeClip n
  | JStr s => parseDate pf s
  | JArr _ | JObj _ => parseDate pf (toStr v)
  end.

(** [(ms / k).toFixed(2)] *)
Definition toFixed2 (ms : Number) (k : Z) : string :=
  match ms with
  | Some z => fixed2 pf z k
  | None => "NaN"
  end.
End WithPlatform.

End Sys.

Import Sys.

Notation "x <- c ;; k" := (bind c (fun x => k))
  (at level 20, c at level 99, k at level 200, only parsing).
Notation "c ;; k" := (bind c (fun _ => k))
  (at level 100, k at level 200, right associativity, only parsing).
Notation "x <~ c ;; k" := (rbind c (fun x => k))
  (at level 20, c at level 99, k at level 200, only parsing).

(** [response.ok] *)
Definition ok (rs : Response) : bool := ((200 <=? status rs) && (status rs <=? 299))%Z.

(** A string from the environment or an optional flag counts as present
    when it is defined and not empty. *)
Definition present (o : option string) : bool :=
  match o with
  | Some s => negb (String.eqb s "")
  | None => false
  end.

(* ===================================================================== *)
(** ** lib/client.ts *)
(* ===================================================================== *)

Module Client.

Record ClientConfig := {
  baseUrl : string;
  signingKey : option string;
  eventKey : option string;
  dev : bool
}.

Record ClientOptions := {
  o_dev : bool;
  o_port : option Number
}.

Definition PROD_API_URL := "https://api.inngest.com".
Definition DEFAULT_DEV_PORT : Z := 8288.
Definition EVENT_GATEWAY_URL := "https://inn.gs".

Section WithPlatform.
Variable pf : Platform.

(** [envUrl.replace(/\/$/, "")] *)
Definition stripSlash (s : string) : string :=
  match splitLast s with
  | Some (init, "/"%char) => init
  | _ => s
  end.

Definition getDevUrl (port : option Number) : string :=
  if present (env pf "INNGEST_DEV_URL")
  then stripSlash (default "" (env pf "INNGEST_DEV_URL"))
  else "http://localhost:" +:+ showNumber (default (Some DEFAULT_DEV_PORT) port).

Definition createClient (options : ClientOptions) : ClientConfig :=
  {| baseUrl := if o_dev options then getDevUrl (o_port options) else PROD_API_URL;
     signingKey := env pf "INNGEST_SIGNING_KEY";
     eventKey := env pf "INNGEST_EVENT_KEY";
     dev := o_dev options |}.

Definition getEventGatewayUrl (eventKey : string) (options : ClientOptions) : string :=
  if o_dev options
  then getDevUrl (o_port options) +:+ "/e/" +:+ eventKey
  else EVENT_GATEWAY_URL +:+ "/e/" +:+ eventKey.

(** The message of a failed call: [parsed.error || errorBody] when the
    body parses, the body otherwise. *)
Definition errorMessage (errorBody : string) : string :=
  match parseJSON pf errorBody with
  | Some parsed =>
      match get parsed "error" with
      | Ok e => toStr (Js.or e (JStr errorBody))
      | Raise _ => errorBody
      end
  | None => errorBody
  end.

Definition apiRequest (client : ClientConfig) (method path : string)
           (body : JsVal) : M JsVal :=
  let url := baseUrl client +:+ path in
  if negb (dev client) && negb (present (signingKey client)) then
    throw (Error "INNGEST_SIGNING_KEY environment variable is required for API requests")
  else
    let headers :=
      [("Content-Type", "application/json")] ++
      (if present (signingKey client)
       then [("Authorization", "Bearer " +:+ default "" (signingKey client))]
       else []) in
    response <- do_fetch pf
      {| url := url; method := method; headers := headers;
         body := if truthy body then stringify body else None |} ;;
    if negb (ok response) then
      throw (Error ("API request failed (" +:+ showZ (status response) +:+ "): "
                      +:+ errorMessage (text response)))
    else JSON_parse pf (text response).

Definition validateEventKey (eventKey : option string) : M string :=
  if present eventKey then ret (default "" eventKey)
  else throw (Error "INNGEST_EVENT_KEY environment variable is required for sending events").

Definition validateSigningKey (signingKey : option string) : M string :=
  if present signingKey then ret (default "" signingKey)
  else throw (Error "INNGEST_SIGNING_KEY environment variable is required for API requests").
End WithPlatform.

End Client.

(* ===================================================================== *)
(** ** lib/cancel.ts *)
(* ===================================================================== *)

Module Cancel.
Import Client.

Record CancelOptions := {
  appId : string;
  functionId : string;
  startedAfter : string;
  startedBefore : string;
  if_ : option string;
  c_dev : bool;
  c_port : option Number
}.

(** The character class [[smhd]]. *)
Definition isUnit (c : ascii) : bool :=
  Ascii.eqb c "s" || Ascii.eqb c "m" || Ascii.eqb c "h" || Ascii.eqb c "d".

(** [input.match(/^(\d+)([smhd])$/)]: the two groups when the whole input
    is one or more digits followed by one unit letter. *)
Definition matchRelative (input : string) : option (string * ascii) :=
  match splitLast input with
  | Some (digits, unit) =>
      if negb (String.eqb digits "") && sall isDigit digits && isUnit unit
      then Some (digits, unit)
      else None
  | None => None
  end.

Definition nmul (a : Number) (k : Z) : Number := option_map (fun z => (z * k)%Z) a.

Definition invalidTimeFormat (input : string) : Exn :=
  Error ("Invalid time format: " +:+ input
           +:+ ". Use ISO format or relative time (e.g., 1h, 30m, 2d)").

Section WithPlatform.
Variable pf : Platform.

(** The arithmetic is the one of Numbers.  A clock reading is a time
    value, and as long as [now - ms] is one too, the parsed value, the
    products and the difference are integers that a Number holds exactly;
    beyond that range the date is the invalid one, whatever the rounding. *)
Definition parseTime (input : string) : M string :=
  if includes input "T" || includes input "-" then ret input
  else
    match matchRelative input with
    | None => throw (invalidTimeFormat input)
    | Some (digits, unit) =>
        let value := parseInt digits in
        now <- Date_now pf ;;
        ms <- (if Ascii.eqb unit "s" then ret (nmul value 1000)
               else if Ascii.eqb unit "m" then ret (nmul (nmul value 60) 1000)
               else if Ascii.eqb unit "h" then ret (nmul (nmul (nmul value 60) 60) 1000)
               else if Ascii.eqb unit "d" then
                 ret (nmul (nmul (nmul (nmul value 24) 60) 60) 1000)
               else throw (Error ("Unknown time unit: " +:+ chr unit))) ;;
        lift (toISOString (dateOfNumber (option_map (fun d => (now - d)%Z) ms)))
    end.

Definition cancelRuns (options : CancelOptions) : M JsVal :=
  let client := createClient pf {| o_dev := c_dev options; o_port := c_port options |} in
  started_after <- parseTime (startedAfter options) ;;
  started_before <- parseTime (startedBefore options) ;;
  let body :=
    [("app_id", JStr (appId options));
     ("function_id", JStr (functionId options));
     ("started_after", JStr started_after);
     ("started_before", JStr started_before)] ++
    (if present (if_ options) then [("if", JStr (default "" (if_ options)))] else []) in
  apiRequest pf client "POST" "/v1/cancellations" (JObj body).
End WithPlatform.

End Cancel.

(* ===================================================================== *)
(** ** lib/events.ts *)
(* ===================================================================== *)

Module Events.
Import Client.

Record SendEventOptions := {
  name : string;
  data : JsVal;
  id : option string;
  s_env : option string;
  s_dev : bool;
  s_port : option Number
}.

Record ListEventsOptions := {
  l_name : option string;
  l_limit : option Number;
  l_dev : bool;
  l_port : option Number
}.

(** [items.map(f)] where [f] may throw. *)
Fixpoint mapRes {A B} (f : A -> Res B) (l : list A) : Res (list B) :=
  match l with
  | [] => Ok []
  | x :: rest => y <~ f x ;; ys <~ mapRes f rest ;; Ok (y :: ys)
  end.

(** [raw.map(f)]: only an array has the method. *)
Definition arrayMap (raw : JsVal) (f : JsVal -> Res JsVal) : Res JsVal :=
  match raw with
  | JArr items => ys <~ mapRes f items ;; Ok (JArr ys)
  | _ => Raise TypeError
  end.

(** [o.k1 || o.k2] *)
Definition either (o : JsVal) (k1 k2 : string) : Res JsVal :=
  a <~ get o k1 ;; if truthy a then Ok a else get o k2.

(** [v?.length] *)
Definition lengthOpt (v : JsVal) : JsVal :=
  match v with
  | JArr items => JNum (Z.of_nat (length items))
  | JStr s => JNum (Z.of_nat (String.length s))
  | JObj fields => default JUndefined (lookup "length" fields)
  | _ => JUndefined
  end.

(** The serialisation of [URLSearchParams]: letters, digits and [*-._]
    stay, a space becomes [+], every other byte of the UTF-8 encoding is
    written [%XX]. *)
Definition HEX (n : nat) : ascii :=
  ascii_of_nat (if (n <? 10)%nat then 48 + n else 55 + n).

Definition percent (n : nat) : string :=
  "%" +:+ chr (HEX (n / 16)) +:+ chr (HEX (n mod 16)).

Definition formEncodeChar (c : ascii) : string :=
  let n := code c in
  if isDigit c || ((65 <=? n) && (n <=? 90))%nat || ((97 <=? n) && (n <=? 122))%nat
     || (n =? 42)%nat || (n =? 45)%nat || (n =? 46)%nat || (n =? 95)%nat
  then chr c
  else if (n =? 32)%nat then "+"
  else if (n <? 128)%nat then percent n
  else percent (192 + n / 64) +:+ percent (128 + n mod 64).

Fixpoint formEncode (s : string) : string :=
  match s with
  | EmptyString => EmptyString
  | String c s' => formEncodeChar c +:+ formEncode s'
  end.

(** [params.toString()] *)
Definition queryString (params : list (string * string)) : string :=
  join "&" (map (fun '(k, v) => formEncode k +:+ "=" +:+ formEncode v) params).

Section WithPlatform.
Variable pf : Platform.

Definition sendEvent (options : SendEventOptions) : M JsVal :=
  let client := createClient pf {| o_dev := s_dev options; o_port := s_port options |} in
  eventKey <- (if s_dev options
               then ret (if present (eventKey client)
                         then default "" (eventKey client) else "test")
               else validateEventKey (eventKey client)) ;;
  let url := getEventGatewayUrl pf eventKey
               {| o_dev := s_dev options; o_port := s_port options |} in
  let headers :=
    [("Content-Type", "application/json")] ++
    (if present (s_env options)
     then [("x-inngest-env", default "" (s_env options))] else []) in
  let payload :=
    JObj ([("name", JStr (name options)); ("data", data options)] ++
          (if present (id options) then [("id", JStr (default "" (id options)))] else [])) in
  response <- do_fetch pf
    {| url := url; method := "POST"; headers := headers; body := stringify payload |} ;;
  if negb (ok response) then
    throw (Error ("Failed to send event (" +:+ showZ (status response) +:+ "): "
                    +:+ text response))
  else
    result <- JSON_parse pf (text response) ;;
    ids <- lift (get result "ids") ;;
    ret (JObj [("ids", Js.or ids (JArr [])); ("status", JNum (status response))]).

(** [o.received_at || o.receivedAt || new Date(o.ts || 0).toISOString()] *)
Definition receivedAt (o : JsVal) : Res JsVal :=
  r <~ either o "received_at" "receivedAt" ;;
  if truthy r then Ok r
  else
    ts <~ get o "ts" ;;
    iso <~ toISOString (newDate pf (Js.or ts (JNum 0))) ;;
    Ok (JStr iso).

Definition eventDetails (raw : JsVal) : Res JsVal :=
  id <~ get raw "id" ;;
  name <~ get raw "name" ;;
  received <~ receivedAt raw ;;
  data <~ get raw "data" ;;
  user <~ get raw "user" ;;
  Ok (JObj [("id", id); ("name", name); ("receivedAt", received);
            ("data", data); ("user", user)]).

Definition getEvent (eventId : string) (options : ClientOptions) : M JsVal :=
  let client := createClient pf options in
  response <- apiRequest pf client "GET" ("/v1/events/" +:+ eventId) JUndefined ;;
  raw <- lift (get response "data") ;;
  lift (eventDetails raw).

Definition normalizeEventList (raw : JsVal) : Res JsVal :=
  arrayMap raw eventDetails.

Definition normalizeEventRuns (raw : JsVal) : Res JsVal :=
  arrayMap raw (fun run =>
    runId <~ either run "run_id" "runId" ;;
    status <~ get run "status" ;;
    functionId <~ either run "function_id" "functionId" ;;
    functionVersion <~ either run "function_version" "functionVersion" ;;
    startedAt <~ either run "started_at" "startedAt" ;;
    endedAt <~ either run "ended_at" "endedAt" ;;
    output <~ get run "output" ;;
    Ok (JObj [("runId", Js.or runId (JStr ""));
              ("status", status);
              ("functionId", Js.or functionId (JStr ""));
              ("functionVersion", functionVersion);
              ("startedAt", startedAt);
              ("endedAt", endedAt);
              ("output", output)])).

Definition getEventRuns (eventId : string) (options : ClientOptions) : M JsVal :=
  let client := createClient pf options in
  response <- apiRequest pf client "GET" ("/v1/events/" +:+ eventId +:+ "/runs") JUndefined ;;
  data <- lift (get response "data") ;;
  lift (normalizeEventRuns (Js.or data (JArr []))).

Definition listEvents (options : ListEventsOptions) : M JsVal :=
  let client := createClient pf {| o_dev := l_dev options; o_port := l_port options |} in
  let params :=
    (match l_limit options with
     | Some (Some n) => if (n =? 0)%Z then [] else [("limit", showZ n)]
     | _ => []
     end) ++
    (if present (l_name options) then [("name", default "" (l_name options))] else []) in
  let query := queryString params in
  let path := "/v1/events" +:+ (if String.eqb query "" then "" else "?" +:+ query) in
  response <- apiRequest pf client "GET" path JUndefined ;;
  data <- lift (get response "data") ;;
  events <- lift (normalizeEventList (Js.or data (JArr []))) ;;
  metadata <- lift (get response "metadata") ;;
  fetched <- lift (getOpt metadata "fetched_at") ;;
  fetchedAt <- (if truthy fetched then ret fetched
                else now <- Date_now pf ;;
                     iso <- lift (toISOString (timeClip now)) ;;
                     ret (JStr iso)) ;;
  ret (JObj [("events", events);
             ("meta", JObj [("fetchedAt", fetchedAt); ("total", lengthOpt data)])]).
End WithPlatform.

End Events.

(* ===================================================================== *)
(** ** lib/runs.ts *)
(* ===================================================================== *)

Module Runs.
Import Client.

Section WithPlatform.
Variable pf : Platform.

Definition getRun (runId : string) (options : ClientOptions) : M JsVal :=
  let client := createClient pf options in
  response <- apiRequest pf client "GET" ("/v1/runs/" +:+ runId) JUndefined ;;
  raw <- lift (get response "data") ;;
  if negb (truthy raw) then throw (Error ("Run not found: " +:+ runId))
  else
    lift (run_id <~ get raw "run_id" ;;
          status <~ get raw "status" ;;
          function_id <~ get raw "function_id" ;;
          function_version <~ get raw "function_version" ;;
          event_id <~ get raw "event_id" ;;
          run_started_at <~ get raw "run_started_at" ;;
          ended_at <~ get raw "ended_at" ;;
          output <~ get raw "output" ;;
          Ok (JObj [("runId", run_id);
                    ("status", status);
                    ("functionId", function_id);
                    ("functionVersion", function_version);
                    ("eventId", event_id);
                    ("startedAt", run_started_at);
                    ("endedAt", ended_at);
                    ("output", output)])).

Definition normalizeJobs (raw : JsVal) : Res JsVal :=
  Events.arrayMap raw (fun job =>
    jobId <~ Events.either job "job_id" "jobId" ;;
    stepId <~ Events.either job "step_id" "stepId" ;;
    status <~ get job "status" ;;
    startedAt <~ Events.either job "started_at" "startedAt" ;;
    endedAt <~ Events.either job "ended_at" "endedAt" ;;
    output <~ get job "output" ;;
    error <~ get job "error" ;;
    Ok (JObj [("jobId", Js.or jobId (JStr ""));
              ("stepId", Js.or stepId (JStr ""));
              ("status", status);
              ("startedAt", startedAt);
              ("endedAt", endedAt);
              ("output", output);
              ("error", error)])).

Definition getRunJobs (runId : string) (options : ClientOptions) : M JsVal :=
  let client := createClient pf options in
  response <- apiRequest pf client "GET" ("/v1/runs/" +:+ runId +:+ "/jobs") JUndefined ;;
  data <- lift (get response "data") ;;
  lift (normalizeJobs (Js.or data (JArr []))).
End WithPlatform.

End Runs.

(* ===================================================================== *)
(** ** lib/output.ts *)
(* ===================================================================== *)

Module Output.

Record PrintOptions := {
  pretty : bool;
  output : option string
}.

(** ANSI color codes *)
Definition esc : string := chr (ascii_of_nat 27).
Definition c_reset := esc +:+ "[0m".
Definition c_bold := esc +:+ "[1m".
Definition c_dim := esc +:+ "[2m".
Definition c_black := esc +:+ "[30m".
Definition c_red := esc +:+ "[31m".
Definition c_green := esc +:+ "[32m".
Definition c_yellow := esc +:+ "[33m".
Definition c_blue := esc +:+ "[34m".
Definition c_magenta := esc +:+ "[35m".
Definition c_cyan := esc +:+ "[36m".
Definition c_white := esc +:+ "[37m".
Definition c_gray := esc +:+ "[90m".
Definition c_bgRed := esc +:+ "[41m".
Definition c_bgYellow := esc +:+ "[43m".
Definition c_bgGreen := esc +:+ "[42m".
Definition c_bgBlue := esc +:+ "[44m".
Definition c_bgCyan := esc +:+ "[46m".
Definition c_bgMagenta := esc +:+ "[45m".

(** [a && b] on conditions that may throw; [b] is evaluated only when [a]
    holds. *)
Definition andR (a b : Res bool) : Res bool :=
  x <~ a ;; if x : bool then b else Ok false.
Infix "&&&" := andR (at level 40, left associativity).

(** [for (const x of items) body] *)
Fixpoint forEach {A} (items : list A) (body : A -> M unit) : M unit :=
  match items with
  | [] => ret tt
  | x :: rest => body x ;; forEach rest body
  end.

(** The elements [for ... of] runs over. *)
Definition iterate (v : JsVal) : Res (list JsVal) :=
  match v with
  | JArr items => Ok items
  | JStr s => Ok (map (fun ch => JStr (chr ch)) (list_ascii_of_string s))
  | _ => Raise TypeError
  end.

(** [s.split("\n")] *)
Fixpoint splitLines (s : string) : list string :=
  match s with
  | EmptyString => [""]
  | String ch s' =>
      if Ascii.eqb ch (ascii_of_nat 10) then "" :: splitLines s'
      else match splitLines s' with
           | l :: ls => String ch l :: ls
           | [] => [chr ch]
           end
  end.

Definition indexed (items : list JsVal) : list (string * JsVal) :=
  zip (map (fun i => showZ (Z.of_nat i)) (seq 0 (length items))) items.

(** The own enumerable properties [Object.keys(v)] lists, each with the
    value [v[k]]. *)
Definition entries (v : JsVal) : list (string * JsVal) :=
  match v with
  | JObj fields => map (fun kv => (fst kv, default JUndefined (lookup (fst kv) fields))) fields
  | JArr items => indexed items
  | JStr s => indexed (map (fun ch => JStr (chr ch)) (list_ascii_of_string s))
  | _ => []
  end.

(** Type guards *)

Definition isEventResult (result : JsVal) : Res bool :=
  Ok (isObject result) &&& has "ids" result &&& has "status" result
    &&& (ids <~ get result "ids" ;; Ok (isArray ids)).

Definition isEventListResult (result : JsVal) : Res bool :=
  Ok (isObject result) &&& has "events" result &&& has "meta" result
    &&& (events <~ get result "events" ;; Ok (isArray events)).

Definition isEventDetails (result : JsVal) : Res bool :=
  Ok (isObject result) &&& has "id" result &&& has "name" result
    &&& has "receivedAt" result
    &&& (e <~ has "events" result ;; Ok (negb e)).

Definition isEventRunArray (result : JsVal) : Res bool :=
  match result with
  | JArr [] => Ok true
  | JArr (first :: _) => has "runId" first &&& has "functionId" first
  | _ => Ok false
  end.

Definition isRunJobArray (result : JsVal) : Res bool :=
  match result with
  | JArr (first :: _) => has "jobId" first &&& has "stepId" first
  | _ => Ok false
  end.

Definition isCancelResult (result : JsVal) : Res bool :=
  Ok (isObject result) &&& has "cancelled" result
    &&& (n <~ get result "cancelled" ;;
         Ok (match n with JNum _ => true | _ => false end)).

Definition isRunStatus (result : JsVal) : Res bool :=
  Ok (isObject result) &&& has "runId" result &&& has "status" result
    &&& has "functionId" result &&& Ok (negb (isArray result)).

(** [str.length <= maxLen ? str : str.slice(0, maxLen - 3) + "..."] *)
Definition truncate (str : JsVal) (maxLen : nat) : Res string :=
  s <~ asStr str ;;
  Ok (if (String.length s <=? maxLen)%nat then s
      else slice s 0 (maxLen - 3) +:+ "...").

(** [x.slice(0, 12)] *)
Definition short (x : JsVal) : Res string :=
  s <~ asStr x ;; Ok (slice s 0 12).

Section WithPlatform.
Variable pf : Platform.

(** Format helpers *)

Definition formatEventName (name : JsVal) : Res string :=
  n <~ asStr name ;;
  let nameLower := toLowerCase n in
  if includes nameLower "error" || includes nameLower "fail" then
    Ok (c_bgRed +:+ c_black +:+ c_bold +:+ " " +:+ n +:+ " " +:+ c_reset)
  else if includes nameLower "warn" then
    Ok (c_bgYellow +:+ c_black +:+ c_bold +:+ " " +:+ n +:+ " " +:+ c_reset)
  else if includes nameLower "success" || includes nameLower "complete" then
    Ok (c_bgGreen +:+ c_black +:+ c_bold +:+ " " +:+ n +:+ " " +:+ c_reset)
  else
    Ok (c_bgBlue +:+ c_black +:+ c_bold +:+ " " +:+ n +:+ " " +:+ c_reset).

Definition formatRunStatus (status : JsVal) : Res string :=
  st <~ asStr status ;;
  let s := toLowerCase st in
  if String.eqb s "completed" || String.eqb s "success" then
    Ok (c_bgGreen +:+ c_black +:+ c_bold +:+ " OK  " +:+ c_reset)
  else if String.eqb s "failed" || String.eqb s "error" then
    Ok (c_bgRed +:+ c_black +:+ c_bold +:+ " ERR " +:+ c_reset)
  else if String.eqb s "running" || String.eqb s "pending" then
    Ok (c_bgYellow +:+ c_black +:+ c_bold +:+ " RUN " +:+ c_reset)
  else if String.eqb s "cancelled" then
    Ok (c_dim +:+ "[CXL]" +:+ c_reset)
  else
    Ok (c_dim +:+ "[" +:+ toUpperCase (slice st 0 3) +:+ "]" +:+ c_reset).

(** The milliseconds field is that of the time value: time zone offsets
    are whole seconds. *)
Definition formatTimestamp (ts : JsVal) : string :=
  if negb (truthy ts) then ""
  else
    match newDate pf ts with
    | Some t =>
        c_gray +:+ localeTime pf t +:+ "." +:+ padStart0 3 (showZ (t mod 1000)) +:+ c_reset
    | None => c_gray +:+ "Invalid Date" +:+ "." +:+ padStart0 3 "NaN" +:+ c_reset
    end.

Definition formatRelativeTime (ts : JsVal) : M string :=
  now <- Date_now pf ;;
  match newDate pf ts with
  | Some then_ =>
      let diff := (now - then_)%Z in
      ret (if (diff <? 1000)%Z then "just now"
           else if (diff <? 60000)%Z then showZ (diff / 1000) +:+ "s ago"
           else if (diff <? 3600000)%Z then showZ (diff / 60000) +:+ "m ago"
           else if (diff <? 86400000)%Z then showZ (diff / 3600000) +:+ "h ago"
           else showZ (diff / 86400000) +:+ "d ago")
  | None => ret ("NaN" +:+ "d ago")
  end.

(** [new Date(end).getTime() - new Date(start).getTime()] *)
Definition elapsed (startTime endTime : Number) : Number :=
  match startTime, endTime with
  | Some a, Some b => Some (b - a)%Z
  | _, _ => None
  end.

Definition formatDuration (start end_ : JsVal) : string :=
  match elapsed (newDate pf start) (newDate pf end_) with
  | Some ms =>
      if (ms <? 1)%Z then c_yellow +:+ "<1ms" +:+ c_reset
      else if (ms <? 1000)%Z then c_yellow +:+ showZ ms +:+ "ms" +:+ c_reset
      else if (ms <? 60000)%Z then c_yellow +:+ fixed2 pf ms 1000 +:+ "s" +:+ c_reset
      else c_yellow +:+ fixed2 pf ms 60000 +:+ "m" +:+ c_reset
  | None => c_yellow +:+ toFixed2 pf None 60000 +:+ "m" +:+ c_reset
  end.

Definition calculateDuration (start end_ : JsVal) : M string :=
  if negb (truthy start) then ret (c_dim +:+ "not started" +:+ c_reset)
  else
    let startTime := newDate pf start in
    endTime <- (if truthy end_ then ret (newDate pf end_)
                else now <- Date_now pf ;; ret (Some now)) ;;
    let ms := elapsed startTime endTime in
    let isRunning := negb (truthy end_) in
    let prefix := if isRunning then c_yellow else c_green in
    let suffix := if isRunning then " (running)" else "" in
    ret (match ms with
         | Some n =>
             if (n <? 1000)%Z then prefix +:+ showZ n +:+ "ms" +:+ suffix +:+ c_reset
             else if (n <? 60000)%Z then
               prefix +:+ fixed2 pf n 1000 +:+ "s" +:+ suffix +:+ c_reset
             else if (n <? 3600000)%Z then
               prefix +:+ fixed2 pf n 60000 +:+ "m" +:+ suffix +:+ c_reset
             else prefix +:+ fixed2 pf n 3600000 +:+ "h" +:+ suffix +:+ c_reset
         | None => prefix +:+ toFixed2 pf None 3600000 +:+ "h" +:+ suffix +:+ c_reset
         end).

Definition formatDataPreview (data : JsVal) : Res string :=
  let keys := entries data in
  match keys with
  | [] => Ok ""
  | _ =>
      preview <~ Events.mapRes (fun kv =>
          val <~ match snd kv with
                 | JStr _ => truncate (snd kv) 20
                 | v => Ok (default "undefined" (stringify v))
                 end ;;
          Ok (fst kv +:+ "=" +:+ val)) (take 3 keys) ;;
      let suffix := if (3 <? length keys)%nat
                    then " +" +:+ showZ (Z.of_nat (length keys - 3)) else "" in
      Ok (c_dim +:+ join " " preview +:+ suffix +:+ c_reset)
  end.

Definition formatEventLine (event : JsVal) : Res string :=
  receivedAt <~ get event "receivedAt" ;;
  let ts := formatTimestamp receivedAt in
  ename <~ get event "name" ;;
  name <~ formatEventName ename ;;
  eid <~ get event "id" ;;
  sid <~ short eid ;;
  let id := c_dim +:+ sid +:+ c_reset in
  data <~ get event "data" ;;
  dataPreview <~ (if truthy data then formatDataPreview data else Ok "") ;;
  Ok (ts +:+ " " +:+ name +:+ " " +:+ id +:+ " " +:+ dataPreview).

(** Formatters *)

Definition printEventResult (result : JsVal) : M unit :=
  console_log (c_green +:+ "✓" +:+ c_reset +:+ " Event sent successfully") ;;
  status <- lift (get result "status") ;;
  console_log ("  " +:+ c_dim +:+ "Status:" +:+ c_reset +:+ " " +:+ toStr status) ;;
  console_log ("  " +:+ c_dim +:+ "IDs:" +:+ c_reset) ;;
  ids <- lift (get result "ids") ;;
  items <- lift (iterate ids) ;;
  forEach items (fun id =>
    console_log ("    " +:+ c_cyan +:+ toStr id +:+ c_reset)).

Definition printEventList (result : JsVal) : M unit :=
  meta <- lift (get result "meta") ;;
  mtotal <- lift (get meta "total") ;;
  events <- lift (get result "events") ;;
  let total := nullish mtotal (Events.lengthOpt events) in
  fetchedAt <- lift (get meta "fetchedAt") ;;
  rel <- formatRelativeTime fetchedAt ;;
  console_log (c_bold +:+ "Events (" +:+ toStr total +:+ ")" +:+ c_reset +:+ " "
                 +:+ c_dim +:+ "fetched " +:+ rel +:+ c_reset) ;;
  console_log "" ;;
  match Events.lengthOpt events with
  | JNum 0 => console_log (c_yellow +:+ "No events found" +:+ c_reset)
  | _ =>
      items <- lift (iterate events) ;;
      forEach items (fun event =>
        line <- lift (formatEventLine event) ;; console_log line)
  end.

Definition printEventDetails (event : JsVal) : M unit :=
  console_log (c_bold +:+ "Event" +:+ c_reset) ;;
  console_log "" ;;
  id <- lift (get event "id") ;;
  console_log (c_dim +:+ "ID:" +:+ c_reset +:+ "       " +:+ c_cyan +:+ toStr id +:+ c_reset) ;;
  ename <- lift (get event "name") ;;
  name <- lift (formatEventName ename) ;;
  console_log (c_dim +:+ "Name:" +:+ c_reset +:+ "     " +:+ name) ;;
  receivedAt <- lift (get event "receivedAt") ;;
  console_log (c_dim +:+ "Received:" +:+ c_reset +:+ " " +:+ formatTimestamp receivedAt) ;;
  user <- lift (get event "user") ;;
  (if truthy user && (0 <? length (entries user))%nat then
     console_log (c_dim +:+ "User:" +:+ c_reset +:+ "     "
                    +:+ default "undefined" (stringify user))
   else ret tt) ;;
  data <- lift (get event "data") ;;
  if truthy data && (0 <? length (entries data))%nat then
    console_log "" ;;
    console_log (c_dim +:+ "Data:" +:+ c_reset) ;;
    forEach (splitLines (default "undefined" (stringify2 data))) (fun line =>
      console_log ("  " +:+ c_white +:+ line +:+ c_reset))
  else ret tt.

Definition printEventRuns (runs : list JsVal) : M unit :=
  match runs with
  | [] => console_log (c_yellow +:+ "No runs found for this event" +:+ c_reset)
  | _ =>
      console_log (c_bold +:+ "Runs (" +:+ showZ (Z.of_nat (length runs)) +:+ ")" +:+ c_reset) ;;
      console_log "" ;;
      forEach runs (fun run =>
        rstatus <- lift (get run "status") ;;
        status <- lift (formatRunStatus rstatus) ;;
        startedAt <- lift (get run "startedAt") ;;
        endedAt <- lift (get run "endedAt") ;;
        let duration := if truthy startedAt && truthy endedAt
                        then formatDuration startedAt endedAt else "" in
        let ts := if truthy startedAt then formatTimestamp startedAt else "" in
        functionId <- lift (get run "functionId") ;;
        fid <- lift (truncate functionId 40) ;;
        let funcId := c_cyan +:+ fid +:+ c_reset in
        runId <- lift (get run "runId") ;;
        rid <- lift (short runId) ;;
        console_log (ts +:+ " " +:+ status +:+ " " +:+ funcId +:+ " "
                       +:+ c_dim +:+ rid +:+ c_reset +:+ " " +:+ duration))
  end.

Definition printRunJobs (jobs : list JsVal) : M unit :=
  match jobs with
  | [] => console_log (c_yellow +:+ "No jobs found for this run" +:+ c_reset)
  | _ =>
      console_log (c_bold +:+ "Jobs (" +:+ showZ (Z.of_nat (length jobs)) +:+ ")" +:+ c_reset) ;;
      console_log "" ;;
      forEach jobs (fun job =>
        jstatus <- lift (get job "status") ;;
        status <- lift (formatRunStatus jstatus) ;;
        startedAt <- lift (get job "startedAt") ;;
        endedAt <- lift (get job "endedAt") ;;
        let duration := if truthy startedAt && truthy endedAt
                        then formatDuration startedAt endedAt else "" in
        let ts := if truthy startedAt then formatTimestamp startedAt else "" in
        stepId <- lift (get job "stepId") ;;
        sid <- lift (truncate stepId 30) ;;
        let step := c_magenta +:+ sid +:+ c_reset in
        jobId <- lift (get job "jobId") ;;
        jid <- lift (short jobId) ;;
        console_log (ts +:+ " " +:+ status +:+ " " +:+ step +:+ " "
                       +:+ c_dim +:+ jid +:+ c_reset +:+ " " +:+ duration) ;;
        error <- lift (get job "error") ;;
        (if truthy error then
           console_log ("  " +:+ c_red +:+ "Error: " +:+ toStr error +:+ c_reset)
         else ret tt) ;;
        output <- lift (get job "output") ;;
        match output with
        | JUndefined => ret tt
        | _ =>
            console_log ("  " +:+ c_dim +:+ "Output: "
                           +:+ default "undefined" (stringify output) +:+ c_reset)
        end)
  end.

Definition printCancelResult (result : JsVal) : M unit :=
  console_log (c_green +:+ "✓" +:+ c_reset +:+ " Cancellation complete") ;;
  cancelled <- lift (get result "cancelled") ;;
  console_log ("  " +:+ c_dim +:+ "Runs cancelled:" +:+ c_reset +:+ " " +:+ toStr cancelled).

Definition printRunStatus (run : JsVal) : M unit :=
  rstatus <- lift (get run "status") ;;
  status <- lift (formatRunStatus rstatus) ;;
  startedAt <- lift (get run "startedAt") ;;
  endedAt <- lift (get run "endedAt") ;;
  duration <- calculateDuration startedAt endedAt ;;
  console_log (c_bold +:+ "Run Status" +:+ c_reset) ;;
  console_log "" ;;
  runId <- lift (get run "runId") ;;
  console_log (c_dim +:+ "Run ID:" +:+ c_reset +:+ "     " +:+ c_cyan +:+ toStr runId +:+ c_reset) ;;
  console_log (c_dim +:+ "Status:" +:+ c_reset +:+ "     " +:+ status) ;;
  functionId <- lift (get run "functionId") ;;
  functionVersion <- lift (get run "functionVersion") ;;
  console_log (c_dim +:+ "Function:" +:+ c_reset +:+ "   " +:+ c_magenta +:+ toStr functionId
                 +:+ c_reset
                 +:+ (if truthy functionVersion then " v" +:+ toStr functionVersion else "")) ;;
  eventId <- lift (get run "eventId") ;;
  (if truthy eventId then
     console_log (c_dim +:+ "Event ID:" +:+ c_reset +:+ "   " +:+ toStr eventId)
   else ret tt) ;;
  (if truthy startedAt then
     console_log (c_dim +:+ "Started:" +:+ c_reset +:+ "    " +:+ formatTimestamp startedAt)
   else ret tt) ;;
  (if truthy endedAt then
     console_log (c_dim +:+ "Ended:" +:+ c_reset +:+ "      " +:+ formatTimestamp endedAt)
   else ret tt) ;;
  console_log (c_dim +:+ "Duration:" +:+ c_reset +:+ "   " +:+ duration) ;;
  output <- lift (get run "output") ;;
  match output with
  | JUndefined => ret tt
  | _ =>
      console_log "" ;;
      console_log (c_dim +:+ "Output:" +:+ c_reset) ;;
      let outputStr := default "undefined" (stringify2 output) in
      forEach (splitLines outputStr) (fun line =>
        console_log ("  " +:+ c_white +:+ line +:+ c_reset))
  end.

(** The items of a value a guard has found to be an array. *)
Definition itemsOf (v : JsVal) : list JsVal :=
  match v with JArr items => items | _ => [] end.

Definition printPretty (result : JsVal) : M unit :=
  b1 <- lift (isEventResult result) ;;
  if b1 : bool then printEventResult result else
  b2 <- lift (isEventListResult result) ;;
  if b2 : bool then printEventList result else
  b3 <- lift (isEventDetails result) ;;
  if b3 : bool then printEventDetails result else
  b4 <- lift (isEventRunArray result) ;;
  if b4 : bool then printEventRuns (itemsOf result) else
  b5 <- lift (isRunStatus result) ;;
  if b5 : bool then printRunStatus result else
  b6 <- lift (isRunJobArray result) ;;
  if b6 : bool then printRunJobs (itemsOf result) else
  b7 <- lift (isCancelResult result) ;;
  if b7 : bool then printCancelResult result else
  console_log (default "undefined" (stringify2 result)).

Definition writeToFile (path content : string) : M unit := write path content.

(** Main exports *)

Definition printOutput (result : JsVal) (options : PrintOptions) : M unit :=
  let json := default "undefined" (stringify2 result) in
  if present (output options) then
    writeToFile (default "" (output options)) json ;;
    console_log ("Output written to " +:+ default "" (output options))
  else if pretty options then printPretty result
  else console_log json.

Definition printError (message : string) (pretty : bool) : M unit :=
  if pretty then
    console_error (c_red +:+ c_bold +:+ "Error:" +:+ c_reset +:+ " " +:+ message)
  else
    console_error (default "undefined" (stringify (JObj [("error", JStr message)]))).

Definition printSuccess (message : string) : M unit :=
  console_log (c_green +:+ "✓" +:+ c_reset +:+ " " +:+ message).

Definition printInfo (message : string) : M unit :=
  console_log (c_blue +:+ "ℹ" +:+ c_reset +:+ " " +:+ message).
End WithPlatform.

End Output.

(* ===================================================================== *)
(** ** cli.ts *)
(* ===================================================================== *)

Module Cli.
Import Client Output.

Record GlobalFlags := {
  g_pretty : bool;
  g_output : option string;
  g_dev : bool;
  g_port : option Number
}.

Definition printOptions (flags : GlobalFlags) : PrintOptions :=
  {| pretty := g_pretty flags; output := g_output flags |}.

Definition clientOptions (flags : GlobalFlags) : ClientOptions :=
  {| o_dev := g_dev flags; o_port := g_port flags |}.

(** Argument parsing helpers *)

Definition setPretty (flags : GlobalFlags) : GlobalFlags :=
  {| g_pretty := true; g_output := g_output flags;
     g_dev := g_dev flags; g_port := g_port flags |}.

Definition setDev (flags : GlobalFlags) : GlobalFlags :=
  {| g_pretty := g_pretty flags; g_output := g_output flags;
     g_dev := true; g_port := g_port flags |}.

Definition setPort (flags : GlobalFlags) (value : string) : GlobalFlags :=
  {| g_pretty := g_pretty flags; g_output := g_output flags;
     g_dev := g_dev flags; g_port := Some (parseInt value) |}.

Definition setOutput (flags : GlobalFlags) (value : string) : GlobalFlags :=
  {| g_pretty := g_pretty flags; g_output := Some value;
     g_dev := g_dev flags; g_port := g_port flags |}.

(** The loop of [parseGlobalFlags] over the arguments from index [i] on.
    The tests [i + 1 < args.length] are the case analysis on [rest]. *)
Fixpoint parseGlobalFlags_loop (flags : GlobalFlags) (positional : list string)
         (args : list string) : GlobalFlags * list string :=
  match args with
  | [] => (flags, positional)
  | arg :: rest =>
      if String.eqb arg "--pretty" then
        parseGlobalFlags_loop (setPretty flags) positional rest
      else if String.eqb arg "--dev" then
        parseGlobalFlags_loop (setDev flags) positional rest
      else
        match rest with
        | value :: rest' =>
            if String.eqb arg "--port" then
              parseGlobalFlags_loop (setPort flags value) positional rest'
            else if startsWith arg "--port=" then
              parseGlobalFlags_loop
                (setPort flags (sliceFrom arg (String.length "--port="))) positional rest
            else if String.eqb arg "--output" then
              parseGlobalFlags_loop (setOutput flags value) positional rest'
            else if startsWith arg "--output=" then
              parseGlobalFlags_loop
                (setOutput flags (sliceFrom arg (String.length "--output="))) positional rest
            else parseGlobalFlags_loop flags (positional ++ [arg]) rest
        | [] =>
            if startsWith arg "--port=" then
              parseGlobalFlags_loop
                (setPort flags (sliceFrom arg (String.length "--port="))) positional rest
            else if startsWith arg "--output=" then
              parseGlobalFlags_loop
                (setOutput flags (sliceFrom arg (String.length "--output="))) positional rest
            else parseGlobalFlags_loop flags (positional ++ [arg]) rest
        end
  end.

Definition parseGlobalFlags (args : list string) : GlobalFlags * list string :=
  parseGlobalFlags_loop
    {| g_pretty := false; g_output := None; g_dev := false; g_port := None |} [] args.

(** [result[key] = value] on the plain object the parser fills: the
    assignment of a string to [__proto__] adds no property. *)
Definition assign (result : gmap string string) (key value : string) : gmap string string :=
  if String.eqb key "__proto__" then result else <[key := value]> result.

Fixpoint parseNamedArgs_loop (result : gmap string string) (args : list string)
  : gmap string string :=
  match args with
  | [] => result
  | arg :: rest =>
      if startsWith arg "--" then
        match indexOf arg "=" with
        | Some eqIndex =>
            parseNamedArgs_loop
              (assign result (slice arg 2 eqIndex) (sliceFrom arg (eqIndex + 1))) rest
        | None =>
            match rest with
            | next :: rest' =>
                if negb (startsWith next "--")
                then parseNamedArgs_loop (assign result (sliceFrom arg 2) next) rest'
                else parseNamedArgs_loop result rest
            | [] => parseNamedArgs_loop result rest
            end
        end
      else parseNamedArgs_loop result rest
  end.

Definition parseNamedArgs (args : list string) : gmap string string :=
  parseNamedArgs_loop ∅ args.

(** Usage messages *)

Definition usageText : string :=
  join nl
    ["";
     "inngest-ctl - Command-line interface for Inngest";
     "";
     "Usage:";
     "  inngest-ctl <command> [options]";
     "";
     "Commands:";
     "  events    Send and query events";
     "  runs      Query function runs";
     "  cancel    Cancel running functions";
     "";
     "Global Options:";
     "  --pretty          Human-readable output with colors";
     "  --output <file>   Write JSON output to file";
     "  --dev             Use local dev server (default: localhost:8288)";
     "  --port <port>     Dev server port (default: 8288)";
     "  --help, -h        Show this help message";
     "  --version, -v     Show version";
     "";
     "Environment Variables:";
     "  INNGEST_EVENT_KEY     Required for sending events (not needed with --dev)";
     "  INNGEST_SIGNING_KEY   Required for API queries";
     "  INNGEST_DEV_URL       Override dev server URL (e.g., http://localhost:9000)";
     "";
     "Examples:";
     "  inngest-ctl events send --name " +:+ dq +:+ "user.signup" +:+ dq +:+ " --data '{" +:+ dq +:+ "userId" +:+ dq +:+ ": " +:+ dq +:+ "123" +:+ dq +:+ "}'";
     "  inngest-ctl events get <event-id> --pretty";
     "  inngest-ctl runs get <run-id>";
     "  inngest-ctl cancel --app my-app --function my-func --started-after 1h --started-before now";
     ""].

Definition eventsUsageText : string :=
  join nl
    ["";
     "Events Commands:";
     "";
     "Usage:";
     "  inngest-ctl events <subcommand> [options]";
     "";
     "Subcommands:";
     "  list    List recent events";
     "  send    Send an event";
     "  get     Get event details";
     "  runs    List runs triggered by an event";
     "";
     "List Options:";
     "  --name <name>     Filter by event name (optional)";
     "  --limit <n>       Max events to return (optional)";
     "";
     "Send Options:";
     "  --name <name>         Event name (required)";
     "  --data <json>         Event data as inline JSON (required unless --data-file)";
     "  --data-file <path>    Read event data from a JSON file (required unless --data)";
     "  --id <id>             Deduplication ID (optional)";
     "  --env <env>           Branch environment name (optional)";
     "";
     "Examples:";
     "  inngest-ctl events list --pretty";
     "  inngest-ctl events list --name " +:+ dq +:+ "user.signup" +:+ dq +:+ " --limit 10 --pretty";
     "  inngest-ctl events send --name " +:+ dq +:+ "user.signup" +:+ dq +:+ " --data '{" +:+ dq +:+ "userId" +:+ dq +:+ ": " +:+ dq +:+ "123" +:+ dq +:+ "}'";
     "  inngest-ctl events send --name " +:+ dq +:+ "test.event" +:+ dq +:+ " --data-file /tmp/event.json --dev";
     "  inngest-ctl events send --name " +:+ dq +:+ "test.event" +:+ dq +:+ " --data '{}' --env " +:+ dq +:+ "feature/my-branch" +:+ dq +:+ "";
     "  inngest-ctl events get 01H08W4TMBNKMEWFD0TYC532GG --pretty";
     "  inngest-ctl events runs 01H08W4TMBNKMEWFD0TYC532GG --pretty";
     ""].

Definition runsUsageText : string :=
  join nl
    ["";
     "Runs Commands:";
     "";
     "Usage:";
     "  inngest-ctl runs <subcommand> [options]";
     "";
     "Subcommands:";
     "  status  Get run status and duration";
     "  get     Get run details (jobs/steps)";
     "  list    List runs for an event";
     "";
     "List Options:";
     "  --event <id>    Event ID to list runs for";
     "";
     "Examples:";
     "  inngest-ctl runs status 01H08W5TMBNKMEWFD0TYC532GH --pretty";
     "  inngest-ctl runs get 01H08W5TMBNKMEWFD0TYC532GH --pretty";
     "  inngest-ctl runs list --event 01H08W4TMBNKMEWFD0TYC532GG";
     ""].

Definition printUsage : M unit := console_log usageText.
Definition printEventsUsage : M unit := console_log eventsUsageText.
Definition printRunsUsage : M unit := console_log runsUsageText.

Definition isHelp (s : string) : bool :=
  String.eqb s "help" || String.eqb s "--help" || String.eqb s "-h".

Section WithPlatform.
Variable pf : Platform.

(** File helpers *)
Definition readDataFile (filePath : string) : M string :=
  match readFile pf filePath with
  | None => throw (Error ("File not found: " +:+ filePath))
  | Some content => ret content
  end.

(** Command handlers *)

Definition handleEvents (args : list string) (flags : GlobalFlags) : M unit :=
  match args with
  | [] => printEventsUsage ;; exit 1
  | subcommand :: subArgs =>
      if isHelp subcommand then printEventsUsage
      else if String.eqb subcommand "send" then
        let parsed := parseNamedArgs subArgs in
        let name := parsed !! "name" in
        let dataStr := parsed !! "data" in
        let dataFile := parsed !! "data-file" in
        let id := parsed !! "id" in
        let env := parsed !! "env" in
        (if negb (present name) then
           printError "--name is required" (g_pretty flags) ;; exit 1
         else ret tt) ;;
        (if negb (present dataStr) && negb (present dataFile) then
           printError "--data or --data-file is required" (g_pretty flags) ;; exit 1
         else ret tt) ;;
        data <- try_catch
                  (rawJson <- (if present dataFile
                               then readDataFile (default "" dataFile)
                               else ret (default "" dataStr)) ;;
                   JSON_parse pf rawJson)
                  (fun err =>
                     let source := if present dataFile
                                   then "--data-file (" +:+ default "" dataFile +:+ ")"
                                   else "--data" in
                     printError (source +:+ " must be valid JSON") (g_pretty flags) ;;
                     exit 1) ;;
        result <- Events.sendEvent pf
                    {| Events.name := default "" name; Events.data := data;
                       Events.id := id; Events.s_env := env;
                       Events.s_dev := g_dev flags; Events.s_port := g_port flags |} ;;
        printOutput pf result (printOptions flags)
      else if String.eqb subcommand "get" then
        let eventId := head subArgs in
        (if negb (present eventId) then
           printError "Event ID is required" (g_pretty flags) ;; exit 1
         else ret tt) ;;
        result <- Events.getEvent pf (default "" eventId) (clientOptions flags) ;;
        printOutput pf result (printOptions flags)
      else if String.eqb subcommand "runs" then
        let eventId := head subArgs in
        (if negb (present eventId) then
           printError "Event ID is required" (g_pretty flags) ;; exit 1
         else ret tt) ;;
        result <- Events.getEventRuns pf (default "" eventId) (clientOptions flags) ;;
        printOutput pf result (printOptions flags)
      else if String.eqb subcommand "list" then
        let parsed := parseNamedArgs subArgs in
        let name := parsed !! "name" in
        let limitStr := parsed !! "limit" in
        let limit := if present limitStr
                     then Some (parseInt (default "" limitStr)) else None in
        result <- Events.listEvents pf
                    {| Events.l_name := name; Events.l_limit := limit;
                       Events.l_dev := g_dev flags; Events.l_port := g_port flags |} ;;
        printOutput pf result (printOptions flags)
      else
        printError ("Unknown events subcommand: " +:+ subcommand) (g_pretty flags) ;;
        printEventsUsage ;;
        exit 1
  end.

Definition handleRuns (args : list string) (flags : GlobalFlags) : M unit :=
  match args with
  | [] => printRunsUsage ;; exit 1
  | subcommand :: subArgs =>
      if isHelp subcommand then printRunsUsage
      else if String.eqb subcommand "get" then
        let runId := head subArgs in
        (if negb (present runId) then
           printError "Run ID is required" (g_pretty flags) ;; exit 1
         else ret tt) ;;
        result <- Runs.getRunJobs pf (default "" runId) (clientOptions flags) ;;
        printOutput pf result (printOptions flags)
      else if String.eqb subcommand "list" then
        let parsed := parseNamedArgs subArgs in
        let eventId := parsed !! "event" in
        (if negb (present eventId) then
           printError "--event is required" (g_pretty flags) ;; exit 1
         else ret tt) ;;
        result <- Events.getEventRuns pf (default "" eventId) (clientOptions flags) ;;
        printOutput pf result (printOptions flags)
      else if String.eqb subcommand "status" then
        let runId := head subArgs in
        (if negb (present runId) then
           printError "Run ID is required" (g_pretty flags) ;; exit 1
         else ret tt) ;;
        result <- Runs.getRun pf (default "" runId) (clientOptions flags) ;;
        printOutput pf result (printOptions flags)
      else
        printError ("Unknown runs subcommand: " +:+ subcommand) (g_pretty flags) ;;
        printRunsUsage ;;
        exit 1
  end.

Definition handleCancel (args : list string) (flags : GlobalFlags) : M unit :=
  let parsed := parseNamedArgs args in
  let appId := parsed !! "app" in
  let functionId := parsed !! "function" in
  let startedAfter := parsed !! "started-after" in
  let startedBefore := parsed !! "started-before" in
  let ifExpr := parsed !! "if" in
  (if negb (present appId) then
     printError "--app is required" (g_pretty flags) ;; exit 1
   else ret tt) ;;
  (if negb (present functionId) then
     printError "--function is required" (g_pretty flags) ;; exit 1
   else ret tt) ;;
  (if negb (present startedAfter) then
     printError "--started-after is required" (g_pretty flags) ;; exit 1
   else ret tt) ;;
  (if negb (present startedBefore) then
     printError "--started-before is required" (g_pretty flags) ;; exit 1
   else ret tt) ;;
  result <- Cancel.cancelRuns pf
              {| Cancel.appId := default "" appId;
                 Cancel.functionId := default "" functionId;
                 Cancel.startedAfter := default "" startedAfter;
                 Cancel.startedBefore := default "" startedBefore;
                 Cancel.if_ := ifExpr;
                 Cancel.c_dev := g_dev flags; Cancel.c_port := g_port flags |} ;;
  printOutput pf result (printOptions flags).

(** Main entry point; [args] is [process.argv.slice(2)]. *)
Definition main (args : list string) : M unit :=
  let '(flags, positional) := parseGlobalFlags args in
  match positional with
  | [] => printUsage ;; exit 1
  | command :: subArgs =>
      try_catch
        (if String.eqb command "events" then handleEvents subArgs flags
         else if String.eqb command "runs" then handleRuns subArgs flags
         else if String.eqb command "cancel" then handleCancel subArgs flags
         else if isHelp command then printUsage
         else if String.eqb command "version" || String.eqb command "--version"
                 || String.eqb command "-v" then console_log "0.1.0"
         else
           printError ("Unknown command: " +:+ command) (g_pretty flags) ;;
           printUsage ;;
           exit 1)
        (fun err =>
           printError (messageOf pf err) (g_pretty flags) ;;
           exit 1)
  end.

(** The exit status of the process: 0 when [main] runs to its end. *)
Definition exitCode (o : Outcome unit) : Z :=
  match o with
  | Done _ => 0
  | Exit code => code
  | Throw _ => 1
  end.

(** A run of the tool on the given arguments: exit status and what was
    written, sent and stored. *)
Definition run (args : list string) : Z * World :=
  let '(o, w) := main args world0 in (exitCode o, w).
End WithPlatform.

End Cli.

(* ===================================================================== *)
(** ** lib/test-utils.ts *)
(* ===================================================================== *)

Module TestUtils.
Record MockRoute := {
  r_method : option string;
  r_path : string;
  r_response : JsVal;
  r_status : option Z
}.

(** [[...routes].sort((a, b) => b.path.length - a.path.length)]: the
    sort is stable, so a route goes before the first route whose path is
    not longer than its own. *)
Fixpoint insertRoute (route : MockRoute) (sorted : list MockRoute) : list MockRoute :=
  match sorted with
  | [] => [route]
  | x :: rest =>
      if (String.length (r_path x) <=? String.length (r_path route))%nat
      then route :: sorted
      else x :: insertRoute route rest
  end.

Definition sortRoutes (routes : list MockRoute) : list MockRoute :=
  foldr insertRoute [] routes.

(** [routeMethod === method && pathMatches] *)
Definition routeMatches (method pathname : string) (route : MockRoute) : bool :=
  String.eqb (default "GET" (r_method route)) method
  && startsWith pathname (r_path route).

(** The handler of the mock server on a request with the given method and
    path: the status and the body that [Response.json] serialises. *)
Definition respond (routes : list MockRoute) (method pathname : string) : Z * JsVal :=
  match find (routeMatches method pathname) (sortRoutes routes) with
  | Some route => (default 200%Z (r_status route), r_response route)
  | None => (404%Z, JObj [("error", JStr "Not found")])
  end.

Record MockRunOptions := {
  m_runId : string;
  m_status : string;
  m_functionId : string;
  m_startedAt : option string;
  m_endedAt : option string;
  m_output : JsVal
}.

Section WithPlatform.
Variable pf : Platform.

(** The clock is read only when no start is given. *)
Definition mockRunResponse (options : MockRunOptions) : M JsVal :=
  started <- (match m_startedAt options with
              | Some s => ret (JStr s)
              | None => now <- Date_now pf ;;
                        iso <- lift (toISOString (timeClip now)) ;;
                        ret (JStr iso)
              end) ;;
  ret (JObj [("data",
              JObj [("run_id", JStr (m_runId options));
                    ("status", JStr (m_status options));
                    ("function_id", JStr (m_functionId options));
                    ("function_version", JNum 1);
                    ("event_id", JStr "test-event-id");
                    ("run_started_at", started);
                    ("ended_at", match m_endedAt options with
                                 | Some e => JStr e
                                 | None => JNull
                                 end);
                    ("output", nullish (m_output options) JNull)])]).
End WithPlatform.

End TestUtils.

(* ===================================================================== *)
(** ** Notions used to state the properties *)
(* ===================================================================== *)

Module Notions.

(** The length of a unit of the relative time syntax, in milliseconds. *)
Definition unitMs (unit : ascii) : Z :=
  if Ascii.eqb unit "s" then 1000
  else if Ascii.eqb unit "m" then 60000
  else if Ascii.eqb unit "h" then 3600000
  else 86400000.

(** An ISO-8601 literal in the extended calendar format: [YYYY-MM-DD],
    alone or followed by [T] and a time of day. *)
Definition isIsoLiteral (s : string) : bool :=
  match s with
  | String y1 (String y2 (String y3 (String y4 (String s1
      (String m1 (String m2 (String s2 (String d1 (String d2 rest))))))))) =>
      Ascii.eqb s1 "-" && Ascii.eqb s2 "-"
      && isDigit y1 && isDigit y2 && isDigit y3 && isDigit y4
      && isDigit m1 && isDigit m2 && isDigit d1 && isDigit d2
      && (String.eqb rest "" || startsWith rest "T")
  | _ => false
  end.

(** The lines a computation adds to the standard output. *)
Definition printed {A} (m : M A) (w : World) : list string :=
  drop (length (stdout w)) (stdout (snd (m w))).


(** A computation that only prints: from every world it leaves the world
    grown by some lines on the standard output, each of which satisfies
    [P], and by some readings of the clock; a value it returns satisfies
    [R]. *)
Definition emits {A} (P : string -> Prop) (R : A -> Prop) (m : M A) : Prop :=
  forall w, exists lines n,
    snd (m w) = grow w lines n /\ Forall P lines
    /\ (forall a, fst (m w) = Done a -> R a).

Definition anything {A} : A -> Prop := fun _ => True.


(** The same object with the keys of a wire format renamed. *)
Fixpoint rename (table : list (string * string)) (k : string) : string :=
  match table with
  | [] => k
  | (snake, camel) :: rest => if String.eqb k snake then camel else rename rest k
  end.

Definition camelCase (table : list (string * string)) (v : JsVal) : JsVal :=
  match v with
  | JObj fields => JObj (map (fun kv => (rename table (fst kv), snd kv)) fields)
  | _ => v
  end.

Definition jobKeys : list (string * string) :=
  [("job_id", "jobId"); ("step_id", "stepId");
   ("started_at", "startedAt"); ("ended_at", "endedAt")].

Definition eventRunKeys : list (string * string) :=
  [("run_id", "runId"); ("function_id", "functionId");
   ("function_version", "functionVersion");
   ("started_at", "startedAt"); ("ended_at", "endedAt")].

Definition runKeys : list (string * string) :=
  [("run_id", "runId"); ("function_id", "functionId");
   ("function_version", "functionVersion"); ("event_id", "eventId");
   ("run_started_at", "startedAt"); ("ended_at", "endedAt")].

(** A field that is absent, or holds a value that counts as true. *)
Definition usable (v : option JsVal) : bool :=
  match v with
  | None | Some JUndefined => true
  | Some x => truthy x
  end.

(** An object given in snake_case: it has none of the camelCase keys, and
    the listed fields are usable. *)
Definition snakeGiven (table : list (string * string)) (fields : list string)
           (v : JsVal) : bool :=
  match v with
  | JObj o =>
      forallb (fun sc => bool_decide (lookup (snd sc) o = None)) table
      && forallb (fun k => usable (lookup k o)) fields
  | _ => true
  end.

(** A platform to run examples on: the clock stands at
    2024-01-01T10:00:00Z, no credentials are set, and the remote end
    answers every call with the given status and body, which parses to
    the given value. *)
Definition demo (code : Z) (body : string) (parsed : option JsVal) : Platform :=
  {| clock := fun _ => 1704103200000%Z;
     env := fun _ => None;
     fetch := fun _ => Some {| status := code; text := body |};
     parseJSON := fun s => if String.eqb s body then parsed else None;
     parseDate := fun s => if String.eqb s "2024-01-01T10:00:00Z"
                           then Some 1704103200000%Z
                           else if String.eqb s "2024-01-01T10:01:00Z"
                           then Some 1704103260000%Z else None;
     localeTime := fun t => pad 2 (t mod 86400000 / 3600000) +:+ ":"
                            +:+ pad 2 (t mod 3600000 / 60000) +:+ ":"
                            +:+ pad 2 (t mod 60000 / 1000);
     fixed2 := fun a b => showZ (a / b) +:+ "." +:+ pad 2 (a mod b * 100 / b);
     readFile := fun _ => None;
     describe := fun e => match e with
                          | TypeError => "TypeError"
                          | RangeError => "RangeError"
                          | SyntaxError => "SyntaxError"
                          | _ => "NetworkError"
                          end |}.

(** A response body whose [data] is null or absent. *)
Definition emptyPayload (response : JsVal) : Prop :=
  exists fields, response = JObj fields
    /\ (lookup "data" fields = None \/ lookup "data" fields = Some JNull).

(** The one request [apiRequest] sends. *)
Definition requestOf (client : Client.ClientConfig) (method path : string)
           (body : JsVal) : Request :=
  {| url := Client.baseUrl client +:+ path;
     method := method;
     headers := [("Content-Type", "application/json")] ++
                (if present (Client.signingKey client)
                 then [("Authorization",
                        "Bearer " +:+ default "" (Client.signingKey client))]
                 else []);
     body := if truthy body then stringify body else None |}.

(** The world of a run that only wrote one line to the standard error. *)
Definition complained (line : string) : World :=
  {| stdout := []; stderr := [line]; sent := []; files := []; ticks := 0 |}.

(** Some argument spells the flag [--key], alone or as [--key=value]. *)
Definition mentions (key : string) (args : list string) : bool :=
  existsb (fun arg => String.eqb arg ("--" +:+ key)
                      || startsWith arg ("--" +:+ key +:+ "=")) args.

(** The same remote end, answering with the serialisation of a value. *)
Definition served (code : Z) (v : JsVal) : Platform :=
  demo code (default "" (stringify v)) (Some v).

(** Options of a call against the local dev server on its default port. *)
Definition devOptions : Client.ClientOptions :=
  {| Client.o_dev := true; Client.o_port := None |}.

End Notions.

Import Notions.

(* ===================================================================== *)
(** ** Further notions: the conduct of a run, and terms for statements *)
(* ===================================================================== *)

Module Conduct.
(** What a computation adds to the world it runs in. *)
Record Delta := {
  d_out : list string;
  d_err : list string;
  d_sent : list Request;
  d_files : list (string * string);
  d_ticks : nat
}.

Definition extend (w : World) (d : Delta) : World :=
  {| stdout := stdout w ++ d_out d; stderr := stderr w ++ d_err d;
     sent := sent w ++ d_sent d; files := files w ++ d_files d;
     ticks := d_ticks d + ticks w |}.

Definition andThen (d1 d2 : Delta) : Delta :=
  {| d_out := d_out d1 ++ d_out d2; d_err := d_err d1 ++ d_err d2;
     d_sent := d_sent d1 ++ d_sent d2; d_files := d_files d1 ++ d_files d2;
     d_ticks := d_ticks d2 + d_ticks d1 |}.

Definition noChange : Delta :=
  {| d_out := []; d_err := []; d_sent := []; d_files := []; d_ticks := 0 |}.

(** The standard error and the files against the way a computation ends:
    a line of the standard error is written only on the way to
    [process.exit(1)], and a file only by a computation that runs to its
    end. *)
Definition tidy {A} (o : Outcome A) (d : Delta) : Prop :=
  match o with
  | Done _ => d_err d = []
  | Throw _ => d_err d = [] /\ d_files d = []
  | Exit code => code = 1%Z /\ length (d_err d) <= 1 /\ d_files d = []
  end.

(** A computation that sends at most [s] requests and writes at most [f]
    files, each of which satisfies [F]. *)
Definition within {A} (F : string * string -> Prop) (s f : nat) (m : M A) : Prop :=
  forall w, exists d,
    snd (m w) = extend w d
    /\ length (d_sent d) <= s
    /\ length (d_files d) <= f
    /\ Forall F (d_files d)
    /\ tidy (fst (m w)) d.

(** A computation that ends the process with status 1 and leaves the
    standard error, the requests and the files as they are. *)
Definition fatal {A} (m : M A) : Prop :=
  forall w, exists lines,
    m w = (Exit 1%Z, {| stdout := stdout w ++ lines; stderr := stderr w;
                        sent := sent w; files := files w; ticks := ticks w |}).

(** The one file a run may write: the one [--output] names. *)
Definition target (output : option string) (entry : string * string) : Prop :=
  output = Some (fst entry) /\ fst entry <> "".


End Conduct.

Import Conduct.

Module Terms.
(** An argument the global parser takes for none of its flags. *)
Definition plain (arg : string) : bool :=
  negb (String.eqb arg "--pretty") && negb (String.eqb arg "--dev")
  && negb (String.eqb arg "--port") && negb (startsWith arg "--port=")
  && negb (String.eqb arg "--output") && negb (startsWith arg "--output=").

(** The flags before any argument is read. *)
Definition noFlags : Cli.GlobalFlags :=
  {| Cli.g_pretty := false; Cli.g_output := None; Cli.g_dev := false;
     Cli.g_port := None |}.

(** The one request [sendEvent] sends, for the event key it settled on. *)
Definition eventRequest (pf : Platform) (options : Events.SendEventOptions)
           (eventKey : string) : Request :=
  {| url := Client.getEventGatewayUrl pf eventKey
              {| Client.o_dev := Events.s_dev options;
                 Client.o_port := Events.s_port options |};
     method := "POST";
     headers := [("Content-Type", "application/json")] ++
                (if present (Events.s_env options)
                 then [("x-inngest-env", default "" (Events.s_env options))] else []);
     body := stringify
               (JObj ([("name", JStr (Events.name options));
                       ("data", Events.data options)] ++
                      (if present (Events.id options)
                       then [("id", JStr (default "" (Events.id options)))] else []))) |}.






(** The body of a cancellation request. *)
Definition cancelBody (options : Cancel.CancelOptions) (started_after started_before : string)
  : JsVal :=
  JObj ([("app_id", JStr (Cancel.appId options));
         ("function_id", JStr (Cancel.functionId options));
         ("started_after", JStr started_after);
         ("started_before", JStr started_before)] ++
        (if present (Cancel.if_ options)
         then [("if", JStr (default "" (Cancel.if_ options)))] else [])).


(** The line an error is reported with: colored with [--pretty], a JSON
    object without. *)
Definition errorLine (message : string) (pretty : bool) : string :=
  if pretty
  then Output.c_red +:+ Output.c_bold +:+ "Error:" +:+ Output.c_reset +:+ " " +:+ message
  else "{" +:+ quote "error" +:+ ":" +:+ quote message +:+ "}".

(** The world of a run that only reported an error. *)
Definition reported (message : string) (pretty : bool) : World :=
  complained (errorLine message pretty).

(** The world of a run that only printed lines to the standard output. *)
Definition showed (lines : list string) : World :=
  {| stdout := lines; stderr := []; sent := []; files := []; ticks := 0 |}.

(** The world of a run that reported an error and then printed a text. *)
Definition reportedWith (message : string) (pretty : bool) (text : string) : World :=
  {| stdout := [text]; stderr := [errorLine message pretty]; sent := []; files := [];
     ticks := 0 |}.


Definition isVersion (s : string) : bool :=
  String.eqb s "version" || String.eqb s "--version" || String.eqb s "-v".

(** The commands the router knows. *)
Definition isCommand (s : string) : bool :=
  String.eqb s "events" || String.eqb s "runs" || String.eqb s "cancel"
  || Cli.isHelp s || isVersion s.



End Terms.

Import Terms.

(* ===================================================================== *)
(** * Properties *)
(* ===================================================================== *)


(** ** Strings *)

Section StringFacts.

Lemma startsWith_refl_app (p s : string) : startsWith (p +:+ s) p = true.
Proof.
  induction p as [|c p IH]; simpl; [reflexivity|].
  now rewrite Ascii.eqb_refl.
Qed.

Lemma startsWith_app_l (s b p : string) :
  startsWith s p = true -> startsWith (s +:+ b) p = true.
Proof.
  revert s. induction p as [|c p IH]; intros s H; simpl in *; [reflexivity|].
  destruct s as [|d s]; simpl; [discriminate|].
  destruct (Ascii.eqb c d); [now apply IH | discriminate].
Qed.

Lemma includes_here (s sub : string) :
  startsWith s sub = true -> includes s sub = true.
Proof. intros H. destruct s; simpl in *; rewrite H; reflexivity. Qed.

Lemma includes_app_r (a s sub : string) :
  includes s sub = true -> includes (a +:+ s) sub = true.
Proof.
  intros H. induction a as [|c a IH]; simpl; [exact H|].
  rewrite IH. apply orb_true_r.
Qed.

Lemma includes_app_l (s b sub : string) :
  includes s sub = true -> includes (s +:+ b) sub = true.
Proof.
  induction s as [|c s IH]; simpl; intros H.
  - rewrite orb_false_r in H. apply includes_here.
    now apply (startsWith_app_l "" b sub).
  - apply orb_true_iff in H as [H|H].
    + change (String c (s +:+ b)) with (String c s +:+ b).
      rewrite (startsWith_app_l _ _ _ H). reflexivity.
    + rewrite (IH H). apply orb_true_r.
Qed.

Lemma includes_mid (a sub b : string) : includes (a +:+ sub +:+ b) sub = true.
Proof. apply includes_app_r, includes_here, startsWith_refl_app. Qed.

Lemma includes_refl (s : string) : includes s s = true.
Proof.
  apply includes_here. induction s as [|c s IH]; simpl; [reflexivity|].
  now rewrite Ascii.eqb_refl.
Qed.

Lemma sall_app (p : ascii -> bool) (a b : string) :
  sall p (a +:+ b) = sall p a && sall p b.
Proof.
  induction a as [|c a IH]; simpl; [reflexivity|].
  now rewrite IH, andb_assoc.
Qed.

(** A string in which [c] does not occur contains no string that
    starts with [c]. *)
Lemma includes_absent (s : string) (c : ascii) (r : string) :
  sall (fun x => negb (Ascii.eqb x c)) s = true ->
  includes s (String c r) = false.
Proof.
  induction s as [|d s IH]; simpl; intros H; [reflexivity|].
  apply andb_true_iff in H as [Hd Hs].
  rewrite (IH Hs), orb_false_r.
  rewrite Ascii.eqb_sym. now destruct (Ascii.eqb d c).
Qed.

Lemma sall_impl (p q : ascii -> bool) (s : string) :
  (forall c, p c = true -> q c = true) -> sall p s = true -> sall q s = true.
Proof.
  intros Hpq. induction s as [|c s IH]; simpl; [reflexivity|].
  intros H. apply andb_true_iff in H as [Hc Hs].
  now rewrite (Hpq _ Hc), IH.
Qed.

Lemma splitLast_snoc (s : string) (c : ascii) :
  splitLast (s +:+ chr c) = Some (s, c).
Proof.
  induction s as [|d s IH]; simpl; [reflexivity|].
  now rewrite IH.
Qed.

Lemma splitLast_inv (s init : string) (c : ascii) :
  splitLast s = Some (init, c) -> s = init +:+ chr c.
Proof.
  revert init. induction s as [|d s IH]; simpl; intros init H; [discriminate|].
  destruct (splitLast s) as [[i l]|] eqn:E.
  - inversion H; subst. simpl. f_equal. now apply IH.
  - inversion H; subst. destruct s; [reflexivity|].
    simpl in E. destruct (splitLast s) as [[? ?]|]; discriminate.
Qed.

End StringFacts.

(** ** Time windows (lib/cancel.ts) *)

Section TimeWindows.

Lemma char_differs (p : ascii -> bool) (c x : ascii) :
  p c = true -> p x = false -> negb (Ascii.eqb c x) = true.
Proof.
  intros Hc Hx. destruct (Ascii.eqb_spec c x); [subst; congruence | reflexivity].
Qed.

Lemma relative_lacks (digits : string) (unit x : ascii) :
  sall isDigit digits = true -> Cancel.isUnit unit = true ->
  isDigit x = false -> Cancel.isUnit x = false ->
  includes (digits +:+ chr unit) (String x "") = false.
Proof.
  intros Hd Hu Hx1 Hx2. apply includes_absent.
  rewrite sall_app. apply andb_true_iff. split.
  - apply (sall_impl isDigit); [|exact Hd].
    intros c Hc. now apply (char_differs isDigit).
  - simpl. rewrite andb_true_r. now apply (char_differs Cancel.isUnit).
Qed.

Lemma digit_not_space (c : ascii) : isDigit c = true -> isSpace c = false.
Proof.
  unfold isDigit, isSpace. intros H.
  apply andb_true_iff in H as [H1 H2].
  apply Nat.leb_le in H1, H2.
  repeat match goal with
         | |- context [(?a =? ?b)%nat] => destruct (Nat.eqb_spec a b); try lia
         | |- context [(?a <=? ?b)%nat] => destruct (Nat.leb_spec a b); try lia
         end;
  reflexivity.
Qed.

Lemma takeDigits_all (s : string) : sall isDigit s = true -> takeDigits s = s.
Proof.
  induction s as [|c s IH]; simpl; [reflexivity|].
  intros H. apply andb_true_iff in H as [Hc Hs].
  now rewrite Hc, IH.
Qed.

Lemma parseInt_digits (digits : string) :
  digits <> "" -> sall isDigit digits = true ->
  parseInt digits = Some (digitsVal 0 digits).
Proof.
  intros Hne Hd. destruct digits as [|c ds]; [congruence|].
  pose proof Hd as Hall. simpl in Hd. apply andb_true_iff in Hd as [Hc Hds].
  unfold parseInt. simpl trimStart. rewrite (digit_not_space c Hc).
  assert (E1 : Ascii.eqb c "-" = false).
  { apply negb_true_iff. now apply (char_differs isDigit). }
  assert (E2 : Ascii.eqb c "+" = false).
  { apply negb_true_iff. now apply (char_differs isDigit). }
  rewrite E1, E2. rewrite (takeDigits_all _ Hall). reflexivity.
Qed.

Lemma matchRelative_snoc (digits : string) (unit : ascii) :
  digits <> "" -> sall isDigit digits = true -> Cancel.isUnit unit = true ->
  Cancel.matchRelative (digits +:+ chr unit) = Some (digits, unit).
Proof.
  intros Hne Hd Hu. unfold Cancel.matchRelative.
  rewrite splitLast_snoc, Hd, Hu.
  apply String.eqb_neq in Hne. now rewrite Hne.
Qed.

Lemma matchRelative_inv (input digits : string) (unit : ascii) :
  Cancel.matchRelative input = Some (digits, unit) ->
  input = digits +:+ chr unit /\ digits <> "" /\ sall isDigit digits = true
  /\ Cancel.isUnit unit = true.
Proof.
  unfold Cancel.matchRelative. intros H.
  destruct (splitLast input) as [[ds u]|] eqn:E; [|discriminate].
  destruct (String.eqb_spec ds ""); simpl in H; [discriminate|].
  destruct (sall isDigit ds) eqn:Hd; simpl in H; [|discriminate].
  destruct (Cancel.isUnit u) eqn:Hu; [|discriminate].
  inversion H; subst. auto using splitLast_inv.
Qed.

Variable pf : Platform.

Lemma parseTime_literal (input : string) (w : World) :
  includes input "T" || includes input "-" = true ->
  Cancel.parseTime pf input w = (Done input, w).
Proof. intros H. unfold Cancel.parseTime. now rewrite H. Qed.

Lemma parseTime_relative (digits : string) (unit : ascii) (w : World) :
  digits <> "" -> sall isDigit digits = true -> Cancel.isUnit unit = true ->
  Cancel.parseTime pf (digits +:+ chr unit) w
  = (lift (toISOString
             (timeClip (clock pf (ticks w) - digitsVal 0 digits * unitMs unit)))
       (tick w)).
Proof.
  intros Hne Hd Hu. unfold Cancel.parseTime.
  rewrite (relative_lacks digits unit "T"), (relative_lacks digits unit "-")
    by (assumption || reflexivity).
  rewrite matchRelative_snoc by assumption.
  rewrite parseInt_digits by assumption.
  unfold Cancel.isUnit in Hu. unfold unitMs, bind, Date_now.
  destruct (Ascii.eqb unit "s"); [cbn; do 3 f_equal; lia|].
  destruct (Ascii.eqb unit "m"); [cbn; do 3 f_equal; lia|].
  destruct (Ascii.eqb unit "h"); [cbn; do 3 f_equal; lia|].
  destruct (Ascii.eqb unit "d"); [cbn; do 3 f_equal; lia|].
  discriminate.
Qed.

Lemma isIsoLiteral_dash (input : string) :
  isIsoLiteral input = true -> includes input "-" = true.
Proof.
  unfold isIsoLiteral. intros H.
  do 10 (destruct input as [|? input]; [discriminate|]).
  destruct (Ascii.eqb_spec a3 "-") as [->|]; [|discriminate].
  apply (includes_app_r (String a (String a0 (String a1 (String a2 ""))))).
  reflexivity.
Qed.

End TimeWindows.

(** C1 (as amended).  A relative duration [<digits><s|m|h|d>] resolves to
    the ISO timestamp of the clock reading minus the duration whenever that
    instant lies within the range a Date can hold, and to a RangeError
    beyond it; an input that contains [T] or [-], and so every ISO-8601
    literal of the extended format, is returned unchanged. *)
Theorem parseTime_resolves (pf : Platform) (w : World) :
  (forall (digits : string) (unit : ascii),
      digits <> "" -> sall isDigit digits = true -> Cancel.isUnit unit = true ->
      (Z.abs (clock pf (ticks w) - digitsVal 0 digits * unitMs unit) <= maxTime)%Z ->
      Cancel.parseTime pf (digits +:+ chr unit) w
      = (Done (isoOfTime (clock pf (ticks w) - digitsVal 0 digits * unitMs unit)),
         tick w))
  /\ (forall (digits : string) (unit : ascii),
         digits <> "" -> sall isDigit digits = true -> Cancel.isUnit unit = true ->
         (maxTime < Z.abs (clock pf (ticks w) - digitsVal 0 digits * unitMs unit))%Z ->
         Cancel.parseTime pf (digits +:+ chr unit) w = (Throw RangeError, tick w))
  /\ (forall input : string,
         includes input "T" || includes input "-" = true ->
         Cancel.parseTime pf input w = (Done input, w))
  /\ (forall input : string,
         isIsoLiteral input = true ->
         Cancel.parseTime pf input w = (Done input, w)).
Proof.
  split; [|split; [|split]].
  - intros digits unit Hne Hd Hu Hrange.
    rewrite parseTime_relative by assumption.
    unfold timeClip. apply Z.leb_le in Hrange. now rewrite Hrange.
  - intros digits unit Hne Hd Hu Hrange.
    rewrite parseTime_relative by assumption.
    unfold timeClip. apply Z.leb_gt in Hrange. now rewrite Hrange.
  - intros input H. now apply parseTime_literal.
  - intros input H. apply parseTime_literal.
    rewrite (isIsoLiteral_dash input H). apply orb_true_r.
Qed.

Lemma parseTime_resolves_witness :
  Cancel.parseTime (demo 200 "" None) "90m" world0
  = (Done "2024-01-01T08:30:00.000Z", tick world0)
  /\ Cancel.parseTime (demo 200 "" None) "2024-01-01T10:00:00Z" world0
     = (Done "2024-01-01T10:00:00Z", world0).
Proof.
  split.
  - apply (proj1 (parseTime_resolves (demo 200 "" None) world0) "90" "m"%char).
    + discriminate.
    + reflexivity.
    + reflexivity.
    + vm_compute. discriminate.
  - apply (proj2 (proj2 (proj2 (parseTime_resolves (demo 200 "" None) world0)))).
    reflexivity.
Defined.

(** C1, as stated, fails for a duration that leaves the range of Date:
    [toISOString] raises a RangeError. *)
Lemma parseTime_out_of_range :
  Cancel.matchRelative "300000000d" = Some ("300000000", "d"%char)
  /\ Cancel.parseTime (demo 200 "" None) "300000000d" world0
     = (Throw RangeError, tick world0).
Proof. split; reflexivity. Qed.

Lemma tick_neq (w : World) : tick w <> w.
Proof. intros H. apply (f_equal ticks) in H. simpl in H. lia. Qed.

Lemma parseTime_matched (pf : Platform) (w : World) (input digits : string)
      (unit : ascii) :
  includes input "T" || includes input "-" = false ->
  Cancel.matchRelative input = Some (digits, unit) ->
  snd (Cancel.parseTime pf input w) = tick w.
Proof.
  intros _ Hm. apply matchRelative_inv in Hm as (-> & Hne & Hd & Hu).
  rewrite parseTime_relative by assumption.
  now destruct (timeClip _).
Qed.

(** C4 (as amended).  [parseTime] raises its "Invalid time format" error
    exactly on the inputs that contain neither [T] nor [-] and are not of
    the form [<digits><s|m|h|d>]; it returns an input unchanged exactly
    when the input contains [T] or [-], whatever else it holds. *)
Theorem parseTime_rejects (pf : Platform) (w : World) (input : string) :
  (Cancel.parseTime pf input w = (Throw (Cancel.invalidTimeFormat input), w)
   <-> includes input "T" = false /\ includes input "-" = false
       /\ Cancel.matchRelative input = None)
  /\ (Cancel.parseTime pf input w = (Done input, w)
      <-> includes input "T" || includes input "-" = true).
Proof.
  destruct (includes input "T" || includes input "-") eqn:Hin.
  - rewrite (parseTime_literal pf input w Hin). split; split; try easy.
    intros (H1 & H2 & _). rewrite H1, H2 in Hin. discriminate.
  - destruct (Cancel.matchRelative input) as [[digits unit]|] eqn:Hm.
    + pose proof (parseTime_matched pf w input digits unit Hin Hm) as Hw.
      split; split; try easy.
      * intros H. rewrite H in Hw. symmetry in Hw. now apply tick_neq in Hw.
      * intros H. rewrite H in Hw. symmetry in Hw. now apply tick_neq in Hw.
    + apply orb_false_iff in Hin as [H1 H2].
      unfold Cancel.parseTime. rewrite H1, H2, Hm. simpl.
      split; split; try easy.
Qed.

Lemma parseTime_rejects_witness :
  Cancel.parseTime (demo 200 "" None) "now" world0
  = (Throw (Cancel.invalidTimeFormat "now"), world0)
  /\ Cancel.parseTime (demo 200 "" None) "2024-01-01" world0
     = (Done "2024-01-01", world0).
Proof.
  split.
  - apply (proj1 (parseTime_rejects (demo 200 "" None) world0 "now")).
    repeat split.
  - apply (proj2 (parseTime_rejects (demo 200 "" None) world0 "2024-01-01")).
    reflexivity.
Defined.

(** C4, as stated, fails: an input that is neither an ISO-8601 literal nor
    a relative duration is accepted when it contains [T] or [-]. *)
Lemma parseTime_accepts_unrecognized :
  isIsoLiteral "next-Tuesday" = false
  /\ Cancel.matchRelative "next-Tuesday" = None
  /\ Cancel.parseTime (demo 200 "" None) "next-Tuesday" world0
     = (Done "next-Tuesday", world0).
Proof. repeat split. Qed.

(** ** Lookups by id (lib/runs.ts, lib/events.ts) *)

Section ById.
Variable pf : Platform.

Lemma getRun_not_found (runId : string) (options : Client.ClientOptions)
      (w w' : World) (response : JsVal) :
  Client.apiRequest pf (Client.createClient pf options) "GET"
    ("/v1/runs/" +:+ runId) JUndefined w = (Done response, w') ->
  emptyPayload response ->
  Runs.getRun pf runId options w
  = (Throw (Error ("Run not found: " +:+ runId)), w').
Proof.
  intros Hcall (fields & -> & Hdata).
  unfold Runs.getRun, bind. rewrite Hcall. simpl.
  destruct Hdata as [-> | ->]; reflexivity.
Qed.
End ById.

(** C2 at its failing input.  When the response to [getEvent] carries a
    null or absent payload, the lookup ends in the TypeError of reading a
    property of that payload, not in a "not found" error. *)
Theorem getEvent_empty_payload (pf : Platform) (eventId : string)
        (options : Client.ClientOptions) (w w' : World) (response : JsVal) :
  Client.apiRequest pf (Client.createClient pf options) "GET"
    ("/v1/events/" +:+ eventId) JUndefined w = (Done response, w') ->
  emptyPayload response ->
  Events.getEvent pf eventId options w = (Throw TypeError, w').
Proof.
  intros Hcall (fields & -> & Hdata).
  unfold Events.getEvent, bind. rewrite Hcall. simpl.
  destruct Hdata as [-> | ->]; reflexivity.
Qed.

Lemma getEvent_empty_payload_witness :
  fst (Events.getEvent (served 200 (JObj [("data", JNull)])) "evt-404"
         devOptions world0) = Throw TypeError.
Proof.
  set (pf := served 200 (JObj [("data", JNull)])).
  rewrite (getEvent_empty_payload pf "evt-404" devOptions world0
             (snd (Client.apiRequest pf (Client.createClient pf devOptions) "GET"
                     ("/v1/events/" +:+ "evt-404") JUndefined world0))
             (JObj [("data", JNull)])).
  - reflexivity.
  - vm_compute. reflexivity.
  - exists [("data", JNull)]. split; [reflexivity | right; reflexivity].
Defined.

(** ** Field renaming (lib/runs.ts, lib/events.ts) *)

Section Renaming.
Variable table : list (string * string).

Let renamed (o : list (string * JsVal)) : list (string * JsVal) :=
  map (fun kv => (rename table (fst kv), snd kv)) o.

Lemma lookup_renamed_pair (o : list (string * JsVal)) (s c : string) :
  rename table s = c ->
  (forall k, rename table k = c -> k = s \/ k = c) ->
  lookup c o = None ->
  lookup c (renamed o) = lookup s o.
Proof.
  intros Hs Hc. induction o as [|[k v] o IH]; simpl; [reflexivity|].
  destruct (String.eqb_spec k c) as [->|Hkc]; [discriminate|].
  intros Ho. destruct (String.eqb_spec k s) as [->|Hks].
  - rewrite Hs, String.eqb_refl. reflexivity.
  - destruct (String.eqb_spec (rename table k) c) as [E|_]; [|now apply IH].
    destruct (Hc k E); contradiction.
Qed.

Lemma lookup_renamed_gone (o : list (string * JsVal)) (s : string) :
  (forall k, rename table k <> s) -> lookup s (renamed o) = None.
Proof.
  intros Hs. induction o as [|[k v] o IH]; simpl; [reflexivity|].
  destruct (String.eqb_spec (rename table k) s) as [E|_]; [|exact IH].
  now apply Hs in E.
Qed.

Lemma lookup_renamed_same (o : list (string * JsVal)) (k : string) :
  (forall k', rename table k' = k -> k' = k) -> rename table k = k ->
  lookup k (renamed o) = lookup k o.
Proof.
  intros Hk Hkk. induction o as [|[k' v] o IH]; simpl; [reflexivity|].
  destruct (String.eqb_spec k' k) as [->|Hne].
  - now rewrite Hkk, String.eqb_refl.
  - destruct (String.eqb_spec (rename table k') k) as [E|_]; [|exact IH].
    now apply Hk in E.
Qed.

Lemma either_renamed (o : list (string * JsVal)) (s c : string) :
  rename table s = c ->
  (forall k, rename table k = c -> k = s \/ k = c) ->
  (forall k, rename table k <> s) ->
  lookup c o = None ->
  Events.either (camelCase table (JObj o)) s c = Ok (default JUndefined (lookup s o)).
Proof.
  intros Hs Hc Hgone Ho. unfold Events.either. simpl.
  fold (renamed o).
  rewrite (lookup_renamed_gone o s Hgone). simpl.
  now rewrite (lookup_renamed_pair o s c Hs Hc Ho).
Qed.

Lemma get_renamed (o : list (string * JsVal)) (k : string) :
  (forall k', rename table k' = k -> k' = k) -> rename table k = k ->
  get (camelCase table (JObj o)) k = get (JObj o) k.
Proof.
  intros Hk Hkk. simpl. fold (renamed o).
  now rewrite (lookup_renamed_same o k Hk Hkk).
Qed.
End Renaming.

Lemma either_given (o : list (string * JsVal)) (s c : string) :
  lookup c o = None ->
  Events.either (JObj o) s c
  = Ok (if truthy (default JUndefined (lookup s o))
        then default JUndefined (lookup s o) else JUndefined).
Proof.
  intros Ho. unfold Events.either. simpl. rewrite Ho.
  now destruct (truthy _).
Qed.

Lemma or_fallback (a b : JsVal) :
  Js.or (if truthy a then a else JUndefined) b = Js.or a b.
Proof.
  unfold Js.or. destruct (truthy a) eqn:E; simpl; [now rewrite E | reflexivity].
Qed.

Lemma usable_field (v : option JsVal) :
  usable v = true ->
  (if truthy (default JUndefined v) then default JUndefined v else JUndefined)
  = default JUndefined v.
Proof.
  destruct v as [x|]; simpl; [|reflexivity].
  destruct x; simpl; intros H; try discriminate; try rewrite H; reflexivity.
Qed.

Lemma mapRes_renamed {A B} (f : A -> Res B) (g : A -> A) (l : list A) :
  (forall x, In x l -> f (g x) = f x) ->
  Events.mapRes f (map g l) = Events.mapRes f l.
Proof.
  induction l as [|x l IH]; simpl; intros H; [reflexivity|].
  rewrite (H x) by now left. rewrite IH; [reflexivity|].
  intros y Hy. apply H. now right.
Qed.

(** Case analysis on the finitely many keys of a renaming table. *)
Ltac table_cases :=
  let k := fresh "k" in
  intros k; cbn [rename jobKeys eventRunKeys];
  repeat match goal with
         | |- context [String.eqb k ?s] => destruct (String.eqb_spec k s); subst
         end;
  intros; try discriminate; try congruence; auto.

(** C3 (as amended).  [normalizeJobs] and [normalizeEventRuns] give the
    same result for a raw object given in snake_case and for the same
    object with its keys in camelCase, provided the optional renamed
    fields are absent or hold a value that counts as true.  [getRun]
    builds its result from the snake_case keys alone. *)
Theorem normalizers_accept_both (raws : list JsVal) :
  (forallb (snakeGiven jobKeys ["started_at"; "ended_at"]) raws = true ->
   Runs.normalizeJobs (JArr (map (camelCase jobKeys) raws))
   = Runs.normalizeJobs (JArr raws))
  /\ (forallb (snakeGiven eventRunKeys
                 ["function_version"; "started_at"; "ended_at"]) raws = true ->
      Events.normalizeEventRuns (JArr (map (camelCase eventRunKeys) raws))
      = Events.normalizeEventRuns (JArr raws))
  /\ (forall (pf : Platform) (runId : string) (options : Client.ClientOptions)
             (w w' : World) (response : JsVal) (o : list (string * JsVal)),
         Client.apiRequest pf (Client.createClient pf options) "GET"
           ("/v1/runs/" +:+ runId) JUndefined w = (Done response, w') ->
         get response "data" = Ok (JObj o) ->
         Runs.getRun pf runId options w
         = (Done (JObj [("runId", default JUndefined (lookup "run_id" o));
                        ("status", default JUndefined (lookup "status" o));
                        ("functionId", default JUndefined (lookup "function_id" o));
                        ("functionVersion",
                         default JUndefined (lookup "function_version" o));
                        ("eventId", default JUndefined (lookup "event_id" o));
                        ("startedAt", default JUndefined (lookup "run_started_at" o));
                        ("endedAt", default JUndefined (lookup "ended_at" o));
                        ("output", default JUndefined (lookup "output" o))]), w')).
Proof.
  split; [|split];
    [| | intros pf runId options w w' response o Hcall Hdata;
         unfold Runs.getRun, bind; rewrite Hcall; cbn [lift ret]; rewrite Hdata;
         reflexivity ];
    intros Hall;
    unfold Runs.normalizeJobs, Events.normalizeEventRuns, Events.arrayMap;
    (rewrite mapRes_renamed; [reflexivity|]);
    intros raw Hin; rewrite forallb_forall in Hall; specialize (Hall raw Hin);
    (destruct raw as [| | | | | |o]; try reflexivity);
    cbn [snakeGiven forallb snd jobKeys eventRunKeys] in Hall;
    repeat match goal with
           | H : _ && _ = true |- _ => apply andb_true_iff in H as [? ?]
           end;
    repeat match goal with
           | H : bool_decide _ = true |- _ => apply bool_decide_eq_true in H
           end.
  - rewrite !either_renamed by (assumption || reflexivity || table_cases).
    rewrite !get_renamed by (reflexivity || table_cases).
    rewrite !either_given by assumption. cbn [rbind].
    rewrite !or_fallback, !usable_field by assumption.
    reflexivity.
  - rewrite !either_renamed by (assumption || reflexivity || table_cases).
    rewrite !get_renamed by (reflexivity || table_cases).
    rewrite !either_given by assumption. cbn [rbind].
    rewrite !or_fallback, !usable_field by assumption.
    reflexivity.
Qed.

Lemma normalizers_accept_both_witness :
  Runs.normalizeJobs
    (JArr (map (camelCase jobKeys)
             [JObj [("job_id", JStr "job-1"); ("step_id", JStr "step-init");
                    ("status", JStr "Completed");
                    ("started_at", JStr "2024-01-01T10:00:00Z")]]))
  = Runs.normalizeJobs
      (JArr [JObj [("job_id", JStr "job-1"); ("step_id", JStr "step-init");
                   ("status", JStr "Completed");
                   ("started_at", JStr "2024-01-01T10:00:00Z")]])
  /\ Events.normalizeEventRuns
       (JArr (map (camelCase eventRunKeys)
                [JObj [("run_id", JStr "run-1"); ("status", JStr "Running");
                       ("function_id", JStr "app-fn")]]))
     = Events.normalizeEventRuns
         (JArr [JObj [("run_id", JStr "run-1"); ("status", JStr "Running");
                      ("function_id", JStr "app-fn")]]).
Proof.
  split.
  - apply (proj1 (normalizers_accept_both _)). reflexivity.
  - apply (proj1 (proj2 (normalizers_accept_both _))). reflexivity.
Defined.

(** C3, as stated, fails: [getRun] reads the snake_case keys only, and
    the double lookup of the other two operations tells a null field in
    snake_case from the same field in camelCase. *)
Lemma getRun_reads_snake_case_only :
  fst (Runs.getRun
         (served 200 (JObj [("data", JObj [("run_id", JStr "run-1");
                                           ("status", JStr "Completed");
                                           ("function_id", JStr "app-fn")])]))
         "run-1" devOptions world0)
  = Done (JObj [("runId", JStr "run-1"); ("status", JStr "Completed");
                ("functionId", JStr "app-fn"); ("functionVersion", JUndefined);
                ("eventId", JUndefined); ("startedAt", JUndefined);
                ("endedAt", JUndefined); ("output", JUndefined)])
  /\ fst (Runs.getRun
            (served 200 (JObj [("data", camelCase runKeys
                                  (JObj [("run_id", JStr "run-1");
                                         ("status", JStr "Completed");
                                         ("function_id", JStr "app-fn")]))]))
            "run-1" devOptions world0)
     = Done (JObj [("runId", JUndefined); ("status", JStr "Completed");
                   ("functionId", JUndefined); ("functionVersion", JUndefined);
                   ("eventId", JUndefined); ("startedAt", JUndefined);
                   ("endedAt", JUndefined); ("output", JUndefined)])
  /\ Runs.normalizeJobs
       (JArr [camelCase jobKeys
                (JObj [("job_id", JStr "job-1"); ("ended_at", JNull)])])
     <> Runs.normalizeJobs
          (JArr [JObj [("job_id", JStr "job-1"); ("ended_at", JNull)]]).
Proof. repeat split. discriminate. Qed.

(** ** The request helper (lib/client.ts) *)

Section Requests.
Variable pf : Platform.


End Requests.



(** ** Named flags and required arguments (cli.ts) *)

Section NamedArgs.

Lemma parseNamedArgs_loop_cons (result : gmap string string) (arg : string)
      (rest : list string) :
  Cli.parseNamedArgs_loop result (arg :: rest)
  = if startsWith arg "--" then
      match indexOf arg "=" with
      | Some eqIndex =>
          Cli.parseNamedArgs_loop
            (Cli.assign result (slice arg 2 eqIndex) (sliceFrom arg (eqIndex + 1))) rest
      | None =>
          match rest with
          | next :: rest' =>
              if negb (startsWith next "--")
              then Cli.parseNamedArgs_loop (Cli.assign result (sliceFrom arg 2) next) rest'
              else Cli.parseNamedArgs_loop result rest
          | [] => result
          end
      end
    else Cli.parseNamedArgs_loop result rest.
Proof. destruct rest; reflexivity. Qed.

Lemma assign_other (result : gmap string string) (k v key : string) :
  k <> key -> Cli.assign result k v !! key = result !! key.
Proof.
  intros Hne. unfold Cli.assign.
  destruct (String.eqb k "__proto__"); [reflexivity|].
  now apply lookup_insert_ne.
Qed.

Lemma indexOf_split (s : string) (c : ascii) (i : nat) :
  indexOf s (String c "") = Some i ->
  s = stake i s +:+ String c (sdrop (S i) s).
Proof.
  revert i. induction s as [|d s IH]; intros i; simpl; [discriminate|].
  destruct (Ascii.eqb_spec c d) as [->|Hne].
  - intros [= <-]. reflexivity.
  - destruct (indexOf s (String c "")) as [j|]; simpl; [|discriminate].
    intros [= <-]. simpl. f_equal. now apply IH.
Qed.

Lemma startsWith_dashes (arg : string) :
  startsWith arg "--" = true -> exists r, arg = String "-" (String "-" r).
Proof.
  destruct arg as [|a [|b r]]; cbn [startsWith]; try discriminate.
  - destruct (Ascii.eqb "-" a); discriminate.
  - destruct (Ascii.eqb_spec "-" a) as [<-|]; [|discriminate].
    destruct (Ascii.eqb_spec "-" b) as [<-|]; [|discriminate].
    now exists r.
Qed.

(** The key of [--key=value] is spelled in the argument. *)
Lemma inline_key_spelled (arg key : string) (i : nat) :
  startsWith arg "--" = true -> indexOf arg "=" = Some i ->
  slice arg 2 i = key ->
  startsWith arg ("--" +:+ key +:+ "=") = true.
Proof.
  intros Hd Hi Hk. apply startsWith_dashes in Hd as [r ->].
  simpl in Hi. destruct (indexOf r "=") as [j|] eqn:Hj; [|discriminate].
  injection Hi as <-. unfold slice in Hk. simpl in Hk.
  rewrite Nat.sub_0_r in Hk.
  pose proof (indexOf_split r "=" j Hj) as Hr. rewrite Hk in Hr.
  rewrite Hr. clear. simpl.
  induction key as [|c s IH]; simpl; [reflexivity|].
  now rewrite Ascii.eqb_refl.
Qed.

(** The key of [--key value] is spelled in the argument. *)
Lemma plain_key_spelled (arg key : string) :
  startsWith arg "--" = true -> sliceFrom arg 2 = key -> arg = "--" +:+ key.
Proof.
  intros Hd Hk. apply startsWith_dashes in Hd as [r ->].
  now subst key.
Qed.

(** A key no argument spells is not touched by the parser. *)
Lemma parseNamedArgs_loop_absent (key : string) (n : nat) :
  forall (args : list string) (result : gmap string string),
    length args <= n -> mentions key args = false ->
    Cli.parseNamedArgs_loop result args !! key = result !! key.
Proof.
  induction n as [|n IH]; intros [|arg rest] result Hlen Hm;
    try reflexivity; simpl in Hlen; [lia|].
  cbn [mentions existsb] in Hm. apply orb_false_iff in Hm as [Harg Hrest].
  apply orb_false_iff in Harg as [Hplain Hinline].
  rewrite parseNamedArgs_loop_cons.
  destruct (startsWith arg "--") eqn:Hd; [|apply IH; [lia | exact Hrest]].
  destruct (indexOf arg "=") as [i|] eqn:Hi.
  - rewrite IH by (lia || exact Hrest). apply assign_other.
    intros Hk. now rewrite (inline_key_spelled arg key i Hd Hi Hk) in Hinline.
  - destruct rest as [|next rest']; [reflexivity|].
    destruct (startsWith next "--") eqn:Hn; cbn [negb].
    + apply IH; [lia | exact Hrest].
    + cbn [mentions existsb] in Hrest. apply orb_false_iff in Hrest as [_ Hrest'].
      rewrite IH by (simpl in Hlen; lia || exact Hrest'). apply assign_other.
      intros Hk. rewrite (plain_key_spelled arg key Hd Hk) in Hplain.
      now rewrite String.eqb_refl in Hplain.
Qed.

Lemma parseNamedArgs_absent (key : string) (args : list string) :
  mentions key args = false -> Cli.parseNamedArgs args !! key = None.
Proof.
  intros Hm. unfold Cli.parseNamedArgs.
  now rewrite (parseNamedArgs_loop_absent key (length args)).
Qed.

(** An argument that starts with [--] is always visited by the loop: no
    argument before it takes it for a value. *)
Lemma parseNamedArgs_loop_app (n : nat) :
  forall (pre : list string) (result : gmap string string) (tok : string)
         (rest : list string),
    length pre <= n -> startsWith tok "--" = true ->
    Cli.parseNamedArgs_loop result (pre ++ tok :: rest)
    = Cli.parseNamedArgs_loop (Cli.parseNamedArgs_loop result pre) (tok :: rest).
Proof.
  induction n as [|n IH]; intros [|arg pre] result tok rest Hlen Htok;
    try reflexivity; simpl in Hlen; [lia|].
  rewrite <- app_comm_cons. rewrite (parseNamedArgs_loop_cons result arg pre).
  rewrite (parseNamedArgs_loop_cons result arg (pre ++ tok :: rest)).
  destruct (startsWith arg "--"); [|apply IH; [lia | exact Htok]].
  destruct (indexOf arg "="); [apply IH; [lia | exact Htok]|].
  destruct pre as [|next pre'].
  - cbn [app]. now rewrite Htok.
  - rewrite <- app_comm_cons.
    destruct (startsWith next "--"); cbn [negb].
    + rewrite app_comm_cons. apply IH; [lia | exact Htok].
    + apply IH; [simpl in Hlen; lia | exact Htok].
Qed.

(** A flag without a value, before another flag or at the end, leaves the
    parse as if it had not been written. *)
Lemma parseNamedArgs_dangling (pre rest : list string) (tok : string) :
  startsWith tok "--" = true -> indexOf tok "=" = None ->
  (rest = [] \/ exists next rest', rest = next :: rest' /\ startsWith next "--" = true) ->
  Cli.parseNamedArgs (pre ++ tok :: rest) = Cli.parseNamedArgs (pre ++ rest).
Proof.
  intros Htok Heq Hrest. unfold Cli.parseNamedArgs.
  rewrite (parseNamedArgs_loop_app (length pre)) by (lia || exact Htok).
  rewrite parseNamedArgs_loop_cons, Htok, Heq.
  destruct Hrest as [-> | (next & rest' & -> & Hnext)].
  - now rewrite app_nil_r.
  - rewrite Hnext. cbn [negb].
    now rewrite (parseNamedArgs_loop_app (length pre)) by (lia || exact Hnext).
Qed.

End NamedArgs.

Section Required.
Variable pf : Platform.

Lemma printError_line (message : string) (pretty : bool) (w : World) :
  escape message = message ->
  exists line,
    Output.printError message pretty w
    = (Done tt, {| stdout := stdout w; stderr := stderr w ++ [line];
                   sent := sent w; files := files w; ticks := ticks w |})
    /\ includes line message = true.
Proof.
  intros Hesc. unfold Output.printError. destruct pretty.
  - eexists. split; [reflexivity|].
    do 5 apply includes_app_r. apply includes_refl.
  - eexists. split; [reflexivity|].
    apply (includes_app_r ("{" +:+ quote "error" +:+ ":" +:+ dq)
             ((escape message +:+ dq) +:+ "}")).
    do 2 apply includes_app_l. rewrite Hesc. apply includes_refl.
Qed.

(** A failed check: the message goes to the standard error and the
    process exits with status 1, whatever would have followed. *)
Lemma complain_and_exit (message : string) (pretty : bool) (k : unit -> M unit)
      (h : Exn -> M unit) :
  escape message = message ->
  exists line,
    try_catch (bind (bind (Output.printError message pretty) (fun _ => exit 1)) k)
      h world0
    = (Exit 1, complained line)
    /\ includes line message = true.
Proof.
  intros Hesc.
  destruct (printError_line message pretty world0 Hesc) as (line & Hline & Hinc).
  exists line. split; [|exact Hinc].
  unfold try_catch, bind. now rewrite Hline.
Qed.

Ltac enter_handler H :=
  unfold Cli.run, Cli.main; rewrite H;
  unfold Cli.handleEvents, Cli.handleRuns;
  cbn [String.eqb Ascii.eqb Bool.eqb Cli.isHelp orb].

Ltac fail_check :=
  cbn [negb andb];
  repeat change (bind (ret tt) ?k) with (k tt); cbv beta;
  let line := fresh "line" in
  let Hinc := fresh "Hinc" in
  edestruct complain_and_exit as (line & -> & Hinc);
  [reflexivity | exists line; split; [reflexivity | exact Hinc]].

Lemma send_requires_name (args subArgs : list string) (flags : Cli.GlobalFlags) :
  Cli.parseGlobalFlags args = (flags, "events" :: "send" :: subArgs) ->
  present (Cli.parseNamedArgs subArgs !! "name") = false ->
  exists line,
    Cli.run pf args = (1%Z, complained line)
    /\ includes line "--name is required" = true.
Proof. intros Hp Hn. enter_handler Hp. rewrite Hn. fail_check. Qed.

Lemma send_requires_data (args subArgs : list string) (flags : Cli.GlobalFlags) :
  Cli.parseGlobalFlags args = (flags, "events" :: "send" :: subArgs) ->
  present (Cli.parseNamedArgs subArgs !! "name") = true ->
  present (Cli.parseNamedArgs subArgs !! "data") = false ->
  present (Cli.parseNamedArgs subArgs !! "data-file") = false ->
  exists line,
    Cli.run pf args = (1%Z, complained line)
    /\ includes line "--data or --data-file is required" = true.
Proof. intros Hp Hn Hd Hf. enter_handler Hp. rewrite Hn, Hd, Hf. fail_check. Qed.

Lemma list_requires_event (args subArgs : list string) (flags : Cli.GlobalFlags) :
  Cli.parseGlobalFlags args = (flags, "runs" :: "list" :: subArgs) ->
  present (Cli.parseNamedArgs subArgs !! "event") = false ->
  exists line,
    Cli.run pf args = (1%Z, complained line)
    /\ includes line "--event is required" = true.
Proof. intros Hp He. enter_handler Hp. rewrite He. fail_check. Qed.

Lemma not_mentioned_not_present (key : string) (args : list string) :
  mentions key args = false -> present (Cli.parseNamedArgs args !! key) = false.
Proof. intros H. now rewrite (parseNamedArgs_absent key args H). Qed.

End Required.

(** C7.  The required-argument checks of the command router: [events
    send] without a name, [events send] with a name but neither data nor a
    data file, and [runs list] without an event each write one line that
    contains the stated message to the standard error, send nothing, and
    exit with status 1.  A flag counts as given when the per-command
    parser holds a non-empty value for it; a flag no argument spells is
    not given. *)
Theorem required_arguments (pf : Platform) (args subArgs : list string)
        (flags : Cli.GlobalFlags) :
  (Cli.parseGlobalFlags args = (flags, "events" :: "send" :: subArgs) ->
   present (Cli.parseNamedArgs subArgs !! "name") = false ->
   exists line, Cli.run pf args = (1%Z, complained line)
                /\ includes line "--name is required" = true)
  /\ (Cli.parseGlobalFlags args = (flags, "events" :: "send" :: subArgs) ->
      present (Cli.parseNamedArgs subArgs !! "name") = true ->
      present (Cli.parseNamedArgs subArgs !! "data") = false ->
      present (Cli.parseNamedArgs subArgs !! "data-file") = false ->
      exists line, Cli.run pf args = (1%Z, complained line)
                   /\ includes line "--data or --data-file is required" = true)
  /\ (Cli.parseGlobalFlags args = (flags, "runs" :: "list" :: subArgs) ->
      present (Cli.parseNamedArgs subArgs !! "event") = false ->
      exists line, Cli.run pf args = (1%Z, complained line)
                   /\ includes line "--event is required" = true)
  /\ (forall key : string,
         mentions key subArgs = false ->
         present (Cli.parseNamedArgs subArgs !! key) = false).
Proof.
  repeat split.
  - apply send_requires_name.
  - apply send_requires_data.
  - apply list_requires_event.
  - intros key. apply not_mentioned_not_present.
Qed.

Lemma required_arguments_witness :
  (exists line,
      Cli.run (served 200 (JObj [])) ["events"; "send"; "--data"; "{}"; "--dev"]
      = (1%Z, complained line)
      /\ includes line "--name is required" = true)
  /\ (exists line,
         Cli.run (served 200 (JObj [])) ["events"; "send"; "--name"; "test"; "--dev"]
         = (1%Z, complained line)
         /\ includes line "--data or --data-file is required" = true)
  /\ (exists line,
         Cli.run (served 200 (JObj [])) ["runs"; "list"; "--dev"]
         = (1%Z, complained line)
         /\ includes line "--event is required" = true).
Proof.
  repeat split.
  - eapply (proj1 (required_arguments _ _ ["--data"; "{}"] _)); reflexivity.
  - eapply (proj1 (proj2 (required_arguments _ _ ["--name"; "test"] _))); reflexivity.
  - eapply (proj1 (proj2 (proj2 (required_arguments _ _ [] _)))); reflexivity.
Defined.

(** C10.  In the per-command parser a [--key] argument without [=] that
    is followed by an argument starting with [--], or by nothing, is
    dropped: the parse is the one of the arguments without it, and no
    error is raised.  When nothing else spells the key, the key has no
    entry, and a required-argument check on it reports it missing. *)
Theorem dangling_flag_dropped (pre rest : list string) (tok : string) :
  startsWith tok "--" = true -> indexOf tok "=" = None ->
  (rest = [] \/ exists next rest', rest = next :: rest' /\ startsWith next "--" = true) ->
  Cli.parseNamedArgs (pre ++ tok :: rest) = Cli.parseNamedArgs (pre ++ rest)
  /\ (forall key : string,
         mentions key (pre ++ rest) = false ->
         Cli.parseNamedArgs (pre ++ tok :: rest) !! key = None)
  /\ (forall (pf : Platform) (args : list string) (flags : Cli.GlobalFlags),
         tok = "--name" -> mentions "name" (pre ++ rest) = false ->
         Cli.parseGlobalFlags args = (flags, "events" :: "send" :: pre ++ tok :: rest) ->
         exists line, Cli.run pf args = (1%Z, complained line)
                      /\ includes line "--name is required" = true).
Proof.
  intros Htok Heq Hrest.
  pose proof (parseNamedArgs_dangling pre rest tok Htok Heq Hrest) as Hdrop.
  split; [exact Hdrop|]. split.
  - intros key Hm. rewrite Hdrop. now apply parseNamedArgs_absent.
  - intros pf args flags _ Hm Hp.
    apply (send_requires_name pf args _ flags Hp).
    rewrite Hdrop. now apply not_mentioned_not_present.
Qed.

Lemma dangling_flag_dropped_witness :
  Cli.parseNamedArgs (["--id"; "e1"] ++ "--name" :: ["--data={}"])
  = Cli.parseNamedArgs (["--id"; "e1"] ++ ["--data={}"])
  /\ exists line,
       Cli.run (served 200 (JObj [])) ["events"; "send"; "--id"; "e1"; "--name"; "--data={}"]
       = (1%Z, complained line)
       /\ includes line "--name is required" = true.
Proof.
  assert (Hrest : ["--data={}"] = []
                  \/ exists next rest', ["--data={}"] = next :: rest'
                                        /\ startsWith next "--" = true).
  { right. exists "--data={}", []. split; reflexivity. }
  split.
  - apply (proj1 (dangling_flag_dropped ["--id"; "e1"] ["--data={}"] "--name"
                    eq_refl eq_refl Hrest)).
  - eapply (proj2 (proj2 (dangling_flag_dropped ["--id"; "e1"] ["--data={}"] "--name"
                            eq_refl eq_refl Hrest))); reflexivity.
Defined.

(** ** Printing (lib/output.ts) *)

Section Printing.

Lemma grow_nothing (w : World) : grow w [] 0 = w.
Proof. destruct w. unfold grow. simpl. now rewrite app_nil_r. Qed.

Lemma grow_grow (w : World) (l1 l2 : list string) (n1 n2 : nat) :
  grow (grow w l1 n1) l2 n2 = grow w (l1 ++ l2) (n2 + n1).
Proof. unfold grow. simpl. now rewrite app_assoc, Nat.add_assoc. Qed.

Context {A B : Type} (P : string -> Prop).

Lemma emits_ret (a : A) : emits P (eq a) (ret a).
Proof.
  intros w. exists [], 0. rewrite grow_nothing. simpl.
  repeat split; [constructor|]. now intros ? [= ->].
Qed.

Lemma emits_throw (R : A -> Prop) (e : Exn) : emits P R (throw e).
Proof.
  intros w. exists [], 0. rewrite grow_nothing. simpl.
  repeat split; [constructor | discriminate].
Qed.

Lemma emits_exit (R : A -> Prop) (code : Z) : emits P R (exit code).
Proof.
  intros w. exists [], 0. rewrite grow_nothing. simpl.
  repeat split; [constructor | discriminate].
Qed.

Lemma emits_lift (r : Res A) : emits P (fun a => r = Ok a) (lift r).
Proof.
  destruct r as [a|e]; simpl.
  - intros w. exists [], 0. rewrite grow_nothing. simpl.
    repeat split; [constructor|]. now intros ? [= ->].
  - apply emits_throw.
Qed.

Lemma emits_weaken (R R' : A -> Prop) (m : M A) :
  emits P R m -> (forall a, R a -> R' a) -> emits P R' m.
Proof.
  intros Hm HR w. destruct (Hm w) as (lines & n & Hw & Hl & Ha).
  exists lines, n. auto.
Qed.

Lemma emits_bind (R : A -> Prop) (S : B -> Prop) (m : M A) (k : A -> M B) :
  emits P R m -> (forall a, R a -> emits P S (k a)) -> emits P S (bind m k).
Proof.
  intros Hm Hk w. destruct (Hm w) as (l1 & n1 & Hw & Hl1 & Ha).
  unfold bind. destruct (m w) as [[a|e|code] w1]; simpl in *; subst w1.
  - destruct (Hk a (Ha a eq_refl) (grow w l1 n1)) as (l2 & n2 & Hw2 & Hl2 & Hb).
    exists (l1 ++ l2), (n2 + n1). rewrite Hw2, grow_grow.
    repeat split; [now apply Forall_app | exact Hb].
  - exists l1, n1. repeat split; [assumption | discriminate].
  - exists l1, n1. repeat split; [assumption | discriminate].
Qed.

End Printing.

Lemma emits_log (P : string -> Prop) (line : string) :
  P line -> emits P anything (console_log line).
Proof.
  intros HP w. exists [line], 0. repeat split. now constructor.
Qed.

Lemma emits_now (P : string -> Prop) (pf : Platform) :
  emits P anything (Date_now pf).
Proof. intros w. exists [], 1. simpl. unfold grow, tick. simpl. rewrite app_nil_r. repeat split. constructor. Qed.

Lemma emits_forEach {A} (P : string -> Prop) (items : list A) (body : A -> M unit) :
  (forall x, In x items -> emits P anything (body x)) ->
  emits P anything (Output.forEach items body).
Proof.
  induction items as [|x items IH]; intros Hbody; simpl.
  - eapply emits_weaken; [apply emits_ret | easy].
  - eapply emits_bind; [apply Hbody; now left|].
    intros _ _. apply IH. intros y Hy. apply Hbody. now right.
Qed.

(** The same rules without a condition on the value. *)

Lemma emits_ret_any {A} (P : string -> Prop) (a : A) : emits P anything (ret a).
Proof. eapply emits_weaken; [apply emits_ret | easy]. Qed.

Lemma emits_lift_any {A} (P : string -> Prop) (r : Res A) :
  emits P anything (lift r).
Proof. eapply emits_weaken; [apply emits_lift | easy]. Qed.

Lemma emits_bind_any {A B} (P : string -> Prop) (m : M A) (k : A -> M B) :
  emits P anything m -> (forall a, emits P anything (k a)) ->
  emits P anything (bind m k).
Proof. intros Hm Hk. eapply emits_bind; [exact Hm | intros a _; apply Hk]. Qed.

Ltac emits_any :=
  repeat first
    [ progress intros
    | match goal with
      | H : context [emits] |- emits _ _ _ => apply H
      end
    | apply emits_ret_any
    | apply emits_lift_any
    | apply emits_throw
    | apply emits_exit
    | apply emits_now
    | apply emits_log; exact I
    | apply emits_forEach
    | apply emits_bind_any
    | match goal with
      | |- emits _ _ (if ?b then _ else _) => destruct b
      | |- emits _ _ (match ?x with _ => _ end) => destruct x
      end ].

Section OnlyPrints.
Variable pf : Platform.
Let any : string -> Prop := fun _ => True.

Lemma formatRelativeTime_emits (ts : JsVal) :
  emits any anything (Output.formatRelativeTime pf ts).
Proof. unfold Output.formatRelativeTime. emits_any. Qed.

Lemma calculateDuration_emits (start end_ : JsVal) :
  emits any anything (Output.calculateDuration pf start end_).
Proof. unfold Output.calculateDuration. emits_any. Qed.

Lemma printEventResult_emits (result : JsVal) :
  emits any anything (Output.printEventResult result).
Proof. unfold Output.printEventResult. emits_any. Qed.

Lemma printEventList_emits (result : JsVal) :
  emits any anything (Output.printEventList pf result).
Proof.
  unfold Output.printEventList. pose proof formatRelativeTime_emits. emits_any.
Qed.

Lemma printEventDetails_emits (event : JsVal) :
  emits any anything (Output.printEventDetails pf event).
Proof. unfold Output.printEventDetails. emits_any. Qed.

Lemma printEventRuns_emits (runs : list JsVal) :
  emits any anything (Output.printEventRuns pf runs).
Proof. unfold Output.printEventRuns. emits_any. Qed.

Lemma printRunJobs_emits (jobs : list JsVal) :
  emits any anything (Output.printRunJobs pf jobs).
Proof. unfold Output.printRunJobs. emits_any. Qed.

Lemma printCancelResult_emits (result : JsVal) :
  emits any anything (Output.printCancelResult result).
Proof. unfold Output.printCancelResult. emits_any. Qed.

Lemma printRunStatus_emits (run : JsVal) :
  emits any anything (Output.printRunStatus pf run).
Proof.
  unfold Output.printRunStatus. pose proof calculateDuration_emits. emits_any.
Qed.

(** The pretty printer touches nothing but the standard output and the
    clock. *)
Lemma printPretty_emits (result : JsVal) :
  emits any anything (Output.printPretty pf result).
Proof.
  unfold Output.printPretty.
  pose proof printEventResult_emits. pose proof printEventList_emits.
  pose proof printEventDetails_emits. pose proof printEventRuns_emits.
  pose proof printRunStatus_emits. pose proof printRunJobs_emits.
  pose proof printCancelResult_emits.
  emits_any.
Qed.

End OnlyPrints.

(** ** The three output modes and the empty array (lib/output.ts) *)

(** C8 (as amended).  [printOutput] does exactly one of three things.
    With a non-empty file path it writes the JSON serialisation to that
    path and prints only the notice, whatever the pretty flag says.
    Without one and with the pretty flag it runs the pretty printer, which
    writes no file.  Otherwise it prints the serialisation, which is the
    one indented by two spaces in every mode. *)
Theorem printOutput_modes (pf : Platform) (result : JsVal)
        (options : Output.PrintOptions) (w : World) :
  let json := default "undefined" (stringify2 result) in
  let path := default "" (Output.output options) in
  (present (Output.output options) = true ->
   Output.printOutput pf result options w
   = (Done tt, {| stdout := stdout w ++ ["Output written to " +:+ path];
                  stderr := stderr w; sent := sent w;
                  files := files w ++ [(path, json)]; ticks := ticks w |}))
  /\ (present (Output.output options) = false -> Output.pretty options = true ->
      Output.printOutput pf result options w = Output.printPretty pf result w
      /\ files (snd (Output.printOutput pf result options w)) = files w)
  /\ (present (Output.output options) = false -> Output.pretty options = false ->
      Output.printOutput pf result options w = (Done tt, grow w [json] 0)).
Proof.
  intros json path. unfold Output.printOutput. split; [|split].
  - intros ->. reflexivity.
  - intros -> ->. split; [reflexivity|].
    destruct (printPretty_emits pf result w) as (lines & n & -> & _). reflexivity.
  - intros -> ->. reflexivity.
Qed.

Lemma printOutput_modes_witness :
  Output.printOutput (served 200 (JObj [])) (JObj [("cancelled", JNum 5)])
    {| Output.pretty := true; Output.output := Some "out.json" |} world0
  = (Done tt, {| stdout := ["Output written to out.json"]; stderr := []; sent := [];
                 files := [("out.json",
                            "{" +:+ nl +:+ "  " +:+ dq +:+ "cancelled" +:+ dq +:+ ": 5"
                              +:+ nl +:+ "}")];
                 ticks := 0 |})
  /\ Output.printOutput (served 200 (JObj [])) (JObj [("cancelled", JNum 5)])
       {| Output.pretty := true; Output.output := None |} world0
     = Output.printPretty (served 200 (JObj [])) (JObj [("cancelled", JNum 5)]) world0
  /\ Output.printOutput (served 200 (JObj [])) (JObj [("cancelled", JNum 5)])
       {| Output.pretty := false; Output.output := None |} world0
     = (Done tt,
        grow world0 ["{" +:+ nl +:+ "  " +:+ dq +:+ "cancelled" +:+ dq +:+ ": 5"
                       +:+ nl +:+ "}"] 0).
Proof.
  set (pf := served 200 (JObj [])). set (result := JObj [("cancelled", JNum 5)]).
  split; [|split].
  - exact (proj1 (printOutput_modes pf result
                    {| Output.pretty := true; Output.output := Some "out.json" |}
                    world0) eq_refl).
  - exact (proj1 (proj1 (proj2 (printOutput_modes pf result
                                  {| Output.pretty := true; Output.output := None |}
                                  world0)) eq_refl eq_refl)).
  - exact (proj2 (proj2 (printOutput_modes pf result
                           {| Output.pretty := false; Output.output := None |}
                           world0)) eq_refl eq_refl).
Defined.

(** C8, as stated, fails: what the plain mode prints is not the compact
    serialisation. *)
Lemma printOutput_json_is_indented :
  printed (Output.printOutput (served 200 (JObj [])) (JObj [("cancelled", JNum 5)])
             {| Output.pretty := false; Output.output := None |}) world0
  = ["{" +:+ nl +:+ "  " +:+ dq +:+ "cancelled" +:+ dq +:+ ": 5" +:+ nl +:+ "}"]
  /\ stringify (JObj [("cancelled", JNum 5)])
     = Some ("{" +:+ dq +:+ "cancelled" +:+ dq +:+ ":5}")
  /\ printed (Output.printOutput (served 200 (JObj [])) (JObj [("cancelled", JNum 5)])
                {| Output.pretty := false; Output.output := None |}) world0
     <> [default "" (stringify (JObj [("cancelled", JNum 5)]))].
Proof. repeat split. discriminate. Qed.

(** C9.  The pretty printer takes every empty array for a list of event
    runs: it prints "No runs found for this event" and nothing else, the
    guard for job lists holds of non-empty arrays only, and [getRunJobs]
    returns the empty array for a run without jobs. *)
Theorem empty_array_is_event_runs (pf : Platform) (w : World) :
  Output.printPretty pf (JArr []) w
  = (Done tt, grow w [Output.c_yellow +:+ "No runs found for this event"
                        +:+ Output.c_reset] 0)
  /\ Output.isEventRunArray (JArr []) = Ok true
  /\ Output.isRunJobArray (JArr []) = Ok false
  /\ (forall result : JsVal,
         Output.isRunJobArray result = Ok true ->
         exists first rest, result = JArr (first :: rest))
  /\ (forall (runId : string) (options : Client.ClientOptions) (w' : World)
             (response data : JsVal),
         Client.apiRequest pf (Client.createClient pf options) "GET"
           ("/v1/runs/" +:+ runId +:+ "/jobs") JUndefined w = (Done response, w') ->
         get response "data" = Ok data ->
         data = JArr [] \/ truthy data = false ->
         Runs.getRunJobs pf runId options w = (Done (JArr []), w')).
Proof.
  repeat split.
  - intros result H. destruct result as [| | | | | [|first rest] |]; try discriminate.
    now exists first, rest.
  - intros runId options w' response data Hcall Hdata Hempty.
    unfold Runs.getRunJobs, bind. rewrite Hcall, Hdata. simpl.
    destruct Hempty as [-> | Hfalsy]; [reflexivity|].
    unfold Js.or. now rewrite Hfalsy.
Qed.

Lemma empty_array_is_event_runs_witness :
  Runs.getRunJobs (served 200 (JObj [("data", JArr [])])) "run-no-jobs" devOptions
    world0
  = (Done (JArr []),
     {| stdout := []; stderr := [];
        sent := [{| url := "http://localhost:8288/v1/runs/run-no-jobs/jobs";
                    method := "GET";
                    headers := [("Content-Type", "application/json")];
                    body := None |}];
        files := []; ticks := 0 |})
  /\ Output.printPretty (served 200 (JObj [("data", JArr [])])) (JArr []) world0
     = (Done tt, grow world0 [Output.c_yellow +:+ "No runs found for this event"
                               +:+ Output.c_reset] 0)
  /\ stdout (snd (Cli.run (served 200 (JObj [("data", JArr [])]))
                     ["runs"; "get"; "run-no-jobs"; "--dev"; "--pretty"]))
     = [Output.c_yellow +:+ "No runs found for this event" +:+ Output.c_reset].
Proof.
  split; [|split].
  - exact (proj2 (proj2 (proj2 (proj2
             (empty_array_is_event_runs (served 200 (JObj [("data", JArr [])]))
                world0))))
             "run-no-jobs" devOptions _ (JObj [("data", JArr [])]) (JArr [])
             eq_refl eq_refl (or_introl eq_refl)).
  - exact (proj1 (empty_array_is_event_runs (served 200 (JObj [("data", JArr [])]))
                    world0)).
  - reflexivity.
Defined.

(** ** The running marker (lib/output.ts) *)

Section Clean.
















End Clean.


Section Marker.
Variable pf : Platform.






End Marker.



Section MarkerProofs.
Variable pf : Platform.







End MarkerProofs.




(** ** The repository's tests, replayed on the model *)

Section Replayed.

(** [mockRunResponse] of lib/test-utils.ts *)
Let mockRun (runId status functionId startedAt : string) (endedAt output : JsVal) : JsVal :=
  JObj [("data",
         JObj [("run_id", JStr runId); ("status", JStr status);
               ("function_id", JStr functionId); ("function_version", JNum 1);
               ("event_id", JStr "test-event-id");
               ("run_started_at", JStr startedAt);
               ("ended_at", endedAt); ("output", output)])].

(** lib/runs.test.ts: "returns running run without endedAt" *)
Example getRun_running :
  fst (Runs.getRun
         (served 200 (mockRun "run-running" "Running" "test-app-slow-func"
                        "2024-01-01T10:00:00Z" JNull JNull))
         "run-running" devOptions world0)
  = Done (JObj [("runId", JStr "run-running"); ("status", JStr "Running");
                ("functionId", JStr "test-app-slow-func");
                ("functionVersion", JNum 1); ("eventId", JStr "test-event-id");
                ("startedAt", JStr "2024-01-01T10:00:00Z");
                ("endedAt", JNull); ("output", JNull)]).
Proof. reflexivity. Qed.

(** lib/runs.test.ts: "returns jobs for a run" *)
Example getRunJobs_two :
  fst (Runs.getRunJobs
         (served 200
            (JObj [("data",
                    JArr [JObj [("job_id", JStr "job-1"); ("step_id", JStr "step-init");
                                ("status", JStr "Completed")];
                          JObj [("job_id", JStr "job-2"); ("step_id", JStr "step-process");
                                ("status", JStr "Completed")]])]))
         "run-with-jobs" devOptions world0)
  = Done (JArr [JObj [("jobId", JStr "job-1"); ("stepId", JStr "step-init");
                      ("status", JStr "Completed"); ("startedAt", JUndefined);
                      ("endedAt", JUndefined); ("output", JUndefined);
                      ("error", JUndefined)];
                JObj [("jobId", JStr "job-2"); ("stepId", JStr "step-process");
                      ("status", JStr "Completed"); ("startedAt", JUndefined);
                      ("endedAt", JUndefined); ("output", JUndefined);
                      ("error", JUndefined)]]).
Proof. reflexivity. Qed.

(** lib/output.test.ts: "prints cancel result" *)
Example pretty_cancel :
  printed (Output.printOutput (served 200 (JObj [])) (JObj [("cancelled", JNum 5)])
             {| Output.pretty := true; Output.output := None |}) world0
  = [Output.c_green +:+ "✓" +:+ Output.c_reset +:+ " Cancellation complete";
     "  " +:+ Output.c_dim +:+ "Runs cancelled:" +:+ Output.c_reset +:+ " 5"].
Proof. reflexivity. Qed.

(** lib/output.test.ts: "prints pretty run status" *)
Example pretty_running :
  printed (Output.printOutput (served 200 (JObj []))
             (JObj [("runId", JStr "run-123"); ("status", JStr "Running");
                    ("functionId", JStr "test-func");
                    ("startedAt", JStr "2024-01-01T10:00:00Z")])
             {| Output.pretty := true; Output.output := None |}) world0
  = [Output.c_bold +:+ "Run Status" +:+ Output.c_reset;
     "";
     Output.c_dim +:+ "Run ID:" +:+ Output.c_reset +:+ "     "
       +:+ Output.c_cyan +:+ "run-123" +:+ Output.c_reset;
     Output.c_dim +:+ "Status:" +:+ Output.c_reset +:+ "     "
       +:+ Output.c_bgYellow +:+ Output.c_black +:+ Output.c_bold +:+ " RUN "
       +:+ Output.c_reset;
     Output.c_dim +:+ "Function:" +:+ Output.c_reset +:+ "   "
       +:+ Output.c_magenta +:+ "test-func" +:+ Output.c_reset;
     Output.c_dim +:+ "Started:" +:+ Output.c_reset +:+ "    "
       +:+ Output.c_gray +:+ "10:00:00.000" +:+ Output.c_reset;
     Output.c_dim +:+ "Duration:" +:+ Output.c_reset +:+ "   "
       +:+ Output.c_yellow +:+ "0ms (running)" +:+ Output.c_reset].
Proof. reflexivity. Qed.

(** cli.test.ts: "unknown command shows error" *)
Example unknown_command :
  fst (Cli.run (served 200 (JObj [])) ["unknown"]) = 1%Z
  /\ head (stderr (snd (Cli.run (served 200 (JObj [])) ["unknown"])))
     = Some ("{" +:+ dq +:+ "error" +:+ dq +:+ ":" +:+ dq
               +:+ "Unknown command: unknown" +:+ dq +:+ "}").
Proof. split; reflexivity. Qed.

(** cli.test.ts: "missing signing key shows error in production mode" *)
Example missing_signing_key :
  Cli.run (served 200 (JObj [])) ["events"; "list"]
  = (1%Z, complained ("{" +:+ dq +:+ "error" +:+ dq +:+ ":" +:+ dq
        +:+ "INNGEST_SIGNING_KEY environment variable is required for API requests"
        +:+ dq +:+ "}")).
Proof. reflexivity. Qed.

(** cli.test.ts: "events send validates JSON data" *)
Example send_invalid_json :
  Cli.run (served 200 (JObj [])) ["events"; "send"; "--name"; "test"; "--data"; "invalid"; "--dev"]
  = (1%Z, complained ("{" +:+ dq +:+ "error" +:+ dq +:+ ":" +:+ dq
        +:+ "--data must be valid JSON" +:+ dq +:+ "}")).
Proof. reflexivity. Qed.

End Replayed.

(** ** Timestamps *)

Example iso_epoch : isoOfTime 0 = "1970-01-01T00:00:00.000Z".
Proof. reflexivity. Qed.

Example iso_2024 : isoOfTime 1704103200000 = "2024-01-01T10:00:00.000Z".
Proof. reflexivity. Qed.

Example iso_leap_day : isoOfTime 1709251199999 = "2024-02-29T23:59:59.999Z".
Proof. reflexivity. Qed.

Example iso_before_epoch : isoOfTime (-1) = "1969-12-31T23:59:59.999Z".
Proof. reflexivity. Qed.

Example iso_first : isoOfTime (-8640000000000000) = "-271821-04-20T00:00:00.000Z".
Proof. reflexivity. Qed.

Example iso_last : isoOfTime 8640000000000000 = "+275760-09-13T00:00:00.000Z".
Proof. reflexivity. Qed.

(* ===================================================================== *)
(** * Further properties *)
(* ===================================================================== *)

(** ** The conduct of a run (cli.ts) *)

Section ConductRules.

Lemma extend_noChange (w : World) : extend w noChange = w.
Proof. destruct w. unfold extend. simpl. now rewrite !app_nil_r. Qed.

Lemma extend_andThen (w : World) (d1 d2 : Delta) :
  extend (extend w d1) d2 = extend w (andThen d1 d2).
Proof. unfold extend, andThen. simpl. now rewrite !app_assoc, Nat.add_assoc. Qed.

Lemma empty_of_length {X} (l : list X) : length l <= 0 -> l = [].
Proof. destruct l; simpl; [reflexivity | lia]. Qed.

Context {A B : Type} (F : string * string -> Prop).


Lemma within_ret (a : A) : within F 0 0 (ret a).
Proof. intros w. exists noChange. rewrite extend_noChange. now repeat split. Qed.

Lemma within_throw (e : Exn) : within F 0 0 (@throw A e).
Proof. intros w. exists noChange. rewrite extend_noChange. now repeat split. Qed.

Lemma within_exit : within F 0 0 (@exit A 1).
Proof.
  intros w. exists noChange. rewrite extend_noChange. simpl.
  repeat split; auto.
Qed.

Lemma within_lift (r : Res A) : within F 0 0 (lift r).
Proof. destruct r; [apply within_ret | apply within_throw]. Qed.

Lemma within_bind (s1 s2 f : nat) (m : M A) (k : A -> M B) :
  within F s1 0 m -> (forall a, within F s2 f (k a)) ->
  within F (s1 + s2) f (bind m k).
Proof.
  intros Hm Hk w. destruct (Hm w) as (d1 & Hw & Hs1 & Hf1 & _ & Ht).
  apply empty_of_length in Hf1.
  unfold bind. destruct (m w) as [[a|e|code] w1]; simpl in *; subst w1.
  - destruct (Hk a (extend w d1)) as (d2 & Hw2 & Hs2 & Hf2 & HF & Ht2).
    exists (andThen d1 d2). rewrite Hw2, extend_andThen.
    split; [reflexivity|]. cbn [andThen d_sent d_files].
    rewrite Hf1, length_app. cbn [app].
    repeat split; try assumption; try lia.
    destruct (fst (k a (extend w d1))); cbn [tidy andThen d_err d_files] in *;
      rewrite ?Ht, ?Hf1; assumption.
  - exists d1. rewrite Hf1. cbn [length].
    split; [reflexivity|]. split; [lia|]. split; [lia|]. split; [constructor|].
    cbn [tidy]. tauto.
  - exists d1. rewrite Hf1. cbn [length].
    split; [reflexivity|]. split; [lia|]. split; [lia|]. split; [constructor|].
    cbn [tidy]. tauto.
Qed.


End ConductRules.

Section ConductBase.
Context (F : string * string -> Prop).

Lemma within_log (line : string) : within F 0 0 (console_log line).
Proof.
  intros w.
  exists {| d_out := [line]; d_err := []; d_sent := []; d_files := []; d_ticks := 0 |}.
  unfold extend. simpl. rewrite !app_nil_r. repeat split; auto.
Qed.

Lemma within_now (pf : Platform) : within F 0 0 (Date_now pf).
Proof.
  intros w.
  exists {| d_out := []; d_err := []; d_sent := []; d_files := []; d_ticks := 1 |}.
  unfold extend, tick. simpl. rewrite !app_nil_r. repeat split; auto.
Qed.


Lemma within_parse (pf : Platform) (s : string) : within F 0 0 (JSON_parse pf s).
Proof.
  unfold JSON_parse. destruct (parseJSON pf s); [apply within_ret | apply within_throw].
Qed.

Lemma within_bind0 {A B} (m : M A) (k : A -> M B) :
  within F 0 0 m -> (forall a, within F 0 0 (k a)) -> within F 0 0 (bind m k).
Proof. exact (within_bind F 0 0 0 m k). Qed.

Lemma within_forEach {A} (items : list A) (body : A -> M unit) :
  (forall x, within F 0 0 (body x)) -> within F 0 0 (Output.forEach items body).
Proof.
  intros Hbody. induction items as [|x items IH]; simpl.
  - apply within_ret.
  - apply within_bind0; [apply Hbody | intros _; exact IH].
Qed.

Lemma fatal_exit {A} : fatal (@exit A 1).
Proof. intros w. exists []. rewrite app_nil_r. now destruct w. Qed.

Lemma fatal_log {A} (line : string) (k : M A) :
  fatal k -> fatal (bind (console_log line) (fun _ => k)).
Proof.
  intros Hk w. unfold bind, console_log.
  destruct (Hk {| stdout := stdout w ++ [line]; stderr := stderr w; sent := sent w;
                  files := files w; ticks := ticks w |}) as (lines & ->).
  exists (line :: lines). simpl. now rewrite <- app_assoc.
Qed.

(** A complaint: one line on the standard error, then the end. *)
Lemma within_complain {A} (message : string) (pretty : bool) (k : M A) :
  fatal k -> within F 0 0 (bind (Output.printError message pretty) (fun _ => k)).
Proof.
  intros Hk w.
  assert (Hline : exists line,
             Output.printError message pretty w
             = (Done tt, {| stdout := stdout w; stderr := stderr w ++ [line];
                            sent := sent w; files := files w; ticks := ticks w |})).
  { unfold Output.printError. destruct pretty; eexists; reflexivity. }
  destruct Hline as (line & Hline). unfold bind. rewrite Hline.
  destruct (Hk {| stdout := stdout w; stderr := stderr w ++ [line]; sent := sent w;
                  files := files w; ticks := ticks w |}) as (lines & ->).
  exists {| d_out := lines; d_err := [line]; d_sent := []; d_files := []; d_ticks := 0 |}.
  unfold extend. simpl. rewrite !app_nil_r. repeat split; auto.
Qed.

End ConductBase.

(** Proves that a computation sends nothing and writes no file. *)
Ltac within_pure :=
  repeat first
    [ progress intros
    | match goal with
      | H : context [within] |- within _ _ _ _ => apply H
      end
    | apply within_ret
    | apply within_lift
    | apply within_throw
    | apply within_exit
    | apply within_now
    | apply within_log
    | apply within_parse
    | apply within_forEach
    | apply within_complain; repeat first [apply fatal_exit | apply fatal_log]
    | apply within_bind0
    | match goal with
      | |- within _ _ _ (if ?b then _ else _) => destruct b
      | |- within _ _ _ (match ?x with _ => _ end) => destruct x
      end ].

Section ConductOfTheProgram.
Variable pf : Platform.
Context (F : string * string -> Prop).


Lemma parseTime_within (input : string) : within F 0 0 (Cancel.parseTime pf input).
Proof. unfold Cancel.parseTime. within_pure. Qed.










End ConductOfTheProgram.

Section ConductOfTheRouter.
Variable pf : Platform.
Variable flags : Cli.GlobalFlags.

Let target := Conduct.target (Cli.g_output flags).








End ConductOfTheRouter.





(** ** The global flags (cli.ts) *)

Section GlobalFlags.

Lemma parseGlobalFlags_loop_plain (xs : list string) :
  forallb plain xs = true ->
  forall (flags : Cli.GlobalFlags) (positional rest : list string),
    Cli.parseGlobalFlags_loop flags positional (xs ++ rest)
    = Cli.parseGlobalFlags_loop flags (positional ++ xs) rest.
Proof.
  induction xs as [|arg xs IH]; intros Hxs flags positional rest.
  - now rewrite app_nil_r.
  - cbn [forallb] in Hxs. apply andb_true_iff in Hxs as [Harg Hxs].
    unfold plain in Harg.
    repeat match goal with
           | H : _ && _ = true |- _ => apply andb_true_iff in H as [? ?]
           end.
    repeat match goal with
           | H : negb _ = true |- _ => apply negb_true_iff in H
           end.
    rewrite <- app_comm_cons. cbn [Cli.parseGlobalFlags_loop].
    repeat match goal with
           | H : _ = false |- _ => rewrite H
           end.
    replace (positional ++ arg :: xs) with ((positional ++ [arg]) ++ xs)
      by now rewrite <- app_assoc.
    destruct (xs ++ rest) eqn:E; rewrite <- E; now apply IH.
Qed.



End GlobalFlags.



Section Positional.

Lemma parseGlobalFlags_loop_sublist (n : nat) :
  forall (args : list string) (flags : Cli.GlobalFlags) (positional : list string),
    length args <= n ->
    exists kept,
      snd (Cli.parseGlobalFlags_loop flags positional args) = positional ++ kept
      /\ sublist kept args.
Proof.
  induction n as [|n IH]; intros [|arg rest] flags positional Hlen;
    try (exists []; rewrite app_nil_r; split; [reflexivity | constructor]);
    simpl in Hlen; [lia|].
  assert (Hdrop : forall flags',
             exists kept,
               snd (Cli.parseGlobalFlags_loop flags' positional rest) = positional ++ kept
               /\ sublist kept (arg :: rest)).
  { intros flags'. destruct (IH rest flags' positional) as (kept & Hk & Hs); [lia|].
    exists kept. split; [exact Hk | now constructor]. }
  assert (Hkeep : exists kept,
             snd (Cli.parseGlobalFlags_loop flags (positional ++ [arg]) rest)
             = positional ++ kept
             /\ sublist kept (arg :: rest)).
  { destruct (IH rest flags (positional ++ [arg])) as (kept & Hk & Hs); [lia|].
    exists (arg :: kept). rewrite Hk, <- app_assoc. split; [reflexivity | now constructor]. }
  cbn [Cli.parseGlobalFlags_loop].
  destruct (String.eqb arg "--pretty"); [apply Hdrop|].
  destruct (String.eqb arg "--dev"); [apply Hdrop|].
  destruct rest as [|value rest'].
  - destruct (startsWith arg "--port="); [apply Hdrop|].
    destruct (startsWith arg "--output="); [apply Hdrop | apply Hkeep].
  - assert (Hpair : forall flags',
               exists kept,
                 snd (Cli.parseGlobalFlags_loop flags' positional rest')
                 = positional ++ kept
                 /\ sublist kept (arg :: value :: rest')).
    { intros flags'. destruct (IH rest' flags' positional) as (kept & Hk & Hs).
      - simpl in Hlen. lia.
      - exists kept. split; [exact Hk | now do 2 constructor]. }
    destruct (String.eqb arg "--port"); [apply Hpair|].
    destruct (startsWith arg "--port="); [apply Hdrop|].
    destruct (String.eqb arg "--output"); [apply Hpair|].
    destruct (startsWith arg "--output="); [apply Hdrop | apply Hkeep].
Qed.

End Positional.

(** X5.  The positional arguments the global parser returns are arguments
    of the command line, in the order they were given: the parser drops
    arguments, it never adds, changes or reorders one. *)
Theorem positional_in_order (args : list string) :
  sublist (snd (Cli.parseGlobalFlags args)) args.
Proof.
  destruct (parseGlobalFlags_loop_sublist (length args) args noFlags [])
    as (kept & Hk & Hs); [lia|].
  unfold Cli.parseGlobalFlags. fold noFlags. now rewrite Hk.
Qed.

(** X6.  [--port] and [--output] as the last argument have no value to
    take: the parser reports no error and hands the flag on as a
    positional argument. *)
Theorem value_flag_without_value (xs : list string) :
  forallb plain xs = true ->
  Cli.parseGlobalFlags (xs ++ ["--port"]) = (noFlags, xs ++ ["--port"])
  /\ Cli.parseGlobalFlags (xs ++ ["--output"]) = (noFlags, xs ++ ["--output"]).
Proof.
  intros Hxs. unfold Cli.parseGlobalFlags. fold noFlags.
  now rewrite !parseGlobalFlags_loop_plain.
Qed.

Lemma value_flag_without_value_witness :
  Cli.parseGlobalFlags (["runs"; "status"] ++ ["--port"])
  = (noFlags, ["runs"; "status"] ++ ["--port"]).
Proof.
  apply (value_flag_without_value ["runs"; "status"]). reflexivity.
Defined.

(** ** The named flags (cli.ts) *)

Section Spellings.

Lemma stake_app_length (a b : string) : stake (String.length a) (a +:+ b) = a.
Proof. induction a as [|c a IH]; simpl; [now destruct b | now rewrite IH]. Qed.

Lemma sdrop_app_length (a b : string) : sdrop (String.length a) (a +:+ b) = b.
Proof. induction a as [|c a IH]; simpl; [reflexivity | exact IH]. Qed.

Lemma indexOf_absent (s : string) (c : ascii) :
  includes s (String c "") = false -> indexOf s (String c "") = None.
Proof.
  induction s as [|d s IH]; simpl; [reflexivity|].
  destruct (Ascii.eqb c d); [discriminate|]. simpl.
  intros H. now rewrite IH.
Qed.

Lemma indexOf_first (a b : string) (c : ascii) :
  includes a (String c "") = false ->
  indexOf (a +:+ String c b) (String c "") = Some (String.length a).
Proof.
  induction a as [|d a IH]; simpl.
  - now rewrite Ascii.eqb_refl.
  - destruct (Ascii.eqb c d); [discriminate|]. simpl.
    intros H. now rewrite IH.
Qed.

(** One step of the loop on [--key value]. *)
Lemma parseNamedArgs_loop_plain (result : gmap string string) (key value : string)
      (rest : list string) :
  includes key "=" = false -> startsWith value "--" = false ->
  Cli.parseNamedArgs_loop result (("--" +:+ key) :: value :: rest)
  = Cli.parseNamedArgs_loop (Cli.assign result key value) rest.
Proof.
  intros Hkey Hvalue. rewrite parseNamedArgs_loop_cons.
  change (startsWith ("--" +:+ key) "--") with true. cbv iota.
  change (indexOf ("--" +:+ key) "=") with
    (option_map S (option_map S (indexOf key "="))).
  rewrite (indexOf_absent key "=" Hkey). cbn [option_map].
  now rewrite Hvalue.
Qed.

(** One step of the loop on [--key=value]. *)
Lemma parseNamedArgs_loop_inline (result : gmap string string) (key value : string)
      (rest : list string) :
  includes key "=" = false ->
  Cli.parseNamedArgs_loop result (("--" +:+ key +:+ "=" +:+ value) :: rest)
  = Cli.parseNamedArgs_loop (Cli.assign result key value) rest.
Proof.
  intros Hkey. rewrite parseNamedArgs_loop_cons.
  change (startsWith ("--" +:+ key +:+ "=" +:+ value) "--") with true. cbv iota.
  change (indexOf ("--" +:+ key +:+ "=" +:+ value) "=") with
    (option_map S (option_map S (indexOf (key +:+ String "=" value) "="))).
  rewrite (indexOf_first key value "=" Hkey). cbn [option_map].
  unfold slice, sliceFrom.
  change (sdrop 2 ("--" +:+ key +:+ "=" +:+ value)) with (key +:+ String "=" value).
  replace (S (S (String.length key)) - 2) with (String.length key) by lia.
  rewrite stake_app_length.
  replace (S (S (String.length key)) + 1) with (S (S (S (String.length key)))) by lia.
  change (sdrop (S (S (S (String.length key)))) ("--" +:+ key +:+ "=" +:+ value))
    with (sdrop (S (String.length key)) (key +:+ String "=" value)).
  replace (sdrop (S (String.length key)) (key +:+ String "=" value)) with value;
    [reflexivity|].
  clear. induction key as [|c key IH]; simpl; [reflexivity | exact IH].
Qed.

End Spellings.

(** X7.  The two spellings of a named flag agree: wherever it stands,
    [--key value] is parsed as [--key=value] is, for a key without [=]
    and a value that does not start with [--]. *)
Theorem named_flag_spellings_agree (pre post : list string) (key value : string) :
  includes key "=" = false -> startsWith value "--" = false ->
  Cli.parseNamedArgs (pre ++ ["--" +:+ key; value] ++ post)
  = Cli.parseNamedArgs (pre ++ ["--" +:+ key +:+ "=" +:+ value] ++ post).
Proof.
  intros Hkey Hvalue. unfold Cli.parseNamedArgs. cbn [app].
  rewrite !(parseNamedArgs_loop_app (length pre)) by (lia || reflexivity).
  now rewrite parseNamedArgs_loop_plain, parseNamedArgs_loop_inline.
Qed.

Lemma named_flag_spellings_agree_witness :
  Cli.parseNamedArgs (["--id"; "e1"] ++ ["--" +:+ "name"; "user.signup"] ++ ["--data={}"])
  = Cli.parseNamedArgs
      (["--id"; "e1"] ++ ["--" +:+ "name" +:+ "=" +:+ "user.signup"] ++ ["--data={}"]).
Proof.
  apply (named_flag_spellings_agree ["--id"; "e1"] ["--data={}"] "name" "user.signup");
    reflexivity.
Defined.

(** X8.  A named flag at the end of the arguments is stored under its
    key, over anything an earlier argument stored there: the parse is the
    parse of the arguments before it with the key set to the value, so a
    later occurrence of a flag wins.  With [=] this holds of every value;
    without, of the values that do not start with [--]. *)
Theorem named_flag_last_wins (args : list string) (key value : string) :
  includes key "=" = false ->
  Cli.parseNamedArgs (args ++ ["--" +:+ key +:+ "=" +:+ value])
  = Cli.assign (Cli.parseNamedArgs args) key value
  /\ (startsWith value "--" = false ->
      Cli.parseNamedArgs (args ++ ["--" +:+ key; value])
      = Cli.assign (Cli.parseNamedArgs args) key value)
  /\ (key <> "__proto__" ->
      Cli.parseNamedArgs (args ++ ["--" +:+ key +:+ "=" +:+ value]) !! key = Some value).
Proof.
  intros Hkey.
  assert (Hinline : Cli.parseNamedArgs (args ++ ["--" +:+ key +:+ "=" +:+ value])
                    = Cli.assign (Cli.parseNamedArgs args) key value).
  { unfold Cli.parseNamedArgs.
    rewrite (parseNamedArgs_loop_app (length args)) by (lia || reflexivity).
    now rewrite parseNamedArgs_loop_inline. }
  split; [exact Hinline|]. split.
  - intros Hvalue. unfold Cli.parseNamedArgs.
    rewrite (parseNamedArgs_loop_app (length args)) by (lia || reflexivity).
    now rewrite parseNamedArgs_loop_plain.
  - intros Hproto. rewrite Hinline. unfold Cli.assign.
    apply String.eqb_neq in Hproto. rewrite Hproto.
    apply lookup_insert_eq.
Qed.

Lemma named_flag_last_wins_witness :
  Cli.parseNamedArgs (["--name"; "first"] ++ ["--" +:+ "name" +:+ "=" +:+ "--second"])
  !! "name" = Some "--second".
Proof.
  apply (named_flag_last_wins ["--name"; "first"] "name" "--second"); [reflexivity|].
  discriminate.
Defined.

(** ** The router (cli.ts) *)

(** X9.  The terminal branches of the router.  Without a command the
    usage is printed and the status is 1.  [help] and [version], with
    their flag spellings, as the first positional argument print the
    usage or the version and end with status 0, whatever follows them.
    Any other word that is no command is reported as unknown, the usage
    follows on the standard output, and the status is 1.  Nothing is
    sent in any of these cases. *)
Theorem router_terminal_branches (pf : Platform) (args : list string)
        (flags : Cli.GlobalFlags) :
  (Cli.parseGlobalFlags args = (flags, []) ->
   Cli.run pf args = (1%Z, showed [Cli.usageText]))
  /\ (forall command rest,
         Cli.parseGlobalFlags args = (flags, command :: rest) ->
         Cli.isHelp command = true ->
         Cli.run pf args = (0%Z, showed [Cli.usageText]))
  /\ (forall command rest,
         Cli.parseGlobalFlags args = (flags, command :: rest) ->
         isVersion command = true ->
         Cli.run pf args = (0%Z, showed ["0.1.0"]))
  /\ (forall command rest,
         Cli.parseGlobalFlags args = (flags, command :: rest) ->
         isCommand command = false ->
         Cli.run pf args
         = (1%Z, reportedWith ("Unknown command: " +:+ command) (Cli.g_pretty flags)
                   Cli.usageText)).
Proof.
  split; [|split; [|split]].
  - intros Hp. unfold Cli.run, Cli.main. now rewrite Hp.
  - intros command rest Hp Hhelp. unfold Cli.run, Cli.main. rewrite Hp.
    unfold Cli.isHelp in *.
    destruct (String.eqb_spec command "events") as [->|_]; [discriminate|].
    destruct (String.eqb_spec command "runs") as [->|_]; [discriminate|].
    destruct (String.eqb_spec command "cancel") as [->|_]; [discriminate|].
    now rewrite Hhelp.
  - intros command rest Hp Hversion. unfold Cli.run, Cli.main. rewrite Hp.
    unfold isVersion, Cli.isHelp in *.
    destruct (String.eqb_spec command "events") as [->|_]; [discriminate|].
    destruct (String.eqb_spec command "runs") as [->|_]; [discriminate|].
    destruct (String.eqb_spec command "cancel") as [->|_]; [discriminate|].
    destruct (String.eqb_spec command "help") as [->|_]; [discriminate|].
    destruct (String.eqb_spec command "--help") as [->|_]; [discriminate|].
    destruct (String.eqb_spec command "-h") as [->|_]; [discriminate|].
    cbn [orb]. now rewrite Hversion.
  - intros command rest Hp Hunknown. unfold Cli.run, Cli.main. rewrite Hp.
    unfold isCommand, isVersion in Hunknown.
    repeat match goal with
           | H : _ || _ = false |- _ => apply orb_false_iff in H as [? ?]
           end.
    repeat match goal with
           | H : _ = false |- _ => rewrite H
           end.
    cbn [orb]. unfold reportedWith, reported, errorLine, Output.printError.
    now destruct (Cli.g_pretty flags).
Qed.

Lemma router_terminal_branches_witness :
  Cli.run (served 200 (JObj [])) ["--pretty"] = (1%Z, showed [Cli.usageText])
  /\ Cli.run (served 200 (JObj [])) ["--help"; "events"] = (0%Z, showed [Cli.usageText])
  /\ Cli.run (served 200 (JObj [])) ["-v"] = (0%Z, showed ["0.1.0"])
  /\ Cli.run (served 200 (JObj [])) ["event"; "send"]
     = (1%Z, reportedWith ("Unknown command: " +:+ "event") false Cli.usageText).
Proof.
  split; [|split; [|split]].
  - eapply (proj1 (router_terminal_branches _ ["--pretty"] _)). reflexivity.
  - eapply (proj1 (proj2 (router_terminal_branches _ ["--help"; "events"] _)));
      reflexivity.
  - eapply (proj1 (proj2 (proj2 (router_terminal_branches _ ["-v"] _)))); reflexivity.
  - eapply (proj2 (proj2 (proj2 (router_terminal_branches _ ["event"; "send"]
                                   noFlags)))); reflexivity.
Defined.

(** Runs a handler of the router up to the outcome of its checks. *)
Ltac route H :=
  unfold Cli.run, Cli.main; rewrite H;
  unfold Cli.handleEvents, Cli.handleRuns, Cli.handleCancel;
  cbn [String.eqb Ascii.eqb Bool.eqb Cli.isHelp orb].

Ltac settle :=
  cbn [negb andb];
  repeat change (bind (ret tt) ?k) with (k tt); cbv beta;
  unfold reported, reportedWith, showed, complained, errorLine, Output.printError;
  match goal with
  | |- context [Cli.g_pretty ?flags] => now destruct (Cli.g_pretty flags)
  | _ => reflexivity
  end.

(** X10.  The lookups by id need their id: [events get] and [events
    runs] without a first argument, or with an empty one, report "Event
    ID is required", [runs get] and [runs status] report "Run ID is
    required"; the run ends with status 1 and nothing is sent. *)
Theorem lookups_require_an_id (pf : Platform) (args subArgs : list string)
        (flags : Cli.GlobalFlags) (subcommand : string) :
  present (head subArgs) = false ->
  (Cli.parseGlobalFlags args = (flags, "events" :: subcommand :: subArgs) ->
   subcommand = "get" \/ subcommand = "runs" ->
   Cli.run pf args = (1%Z, reported "Event ID is required" (Cli.g_pretty flags)))
  /\ (Cli.parseGlobalFlags args = (flags, "runs" :: subcommand :: subArgs) ->
      subcommand = "get" \/ subcommand = "status" ->
      Cli.run pf args = (1%Z, reported "Run ID is required" (Cli.g_pretty flags))).
Proof.
  intros Hid. split; intros Hp [-> | ->]; route Hp; rewrite Hid; settle.
Qed.

Lemma lookups_require_an_id_witness :
  Cli.run (served 200 (JObj [])) ["runs"; "status"; "--dev"]
  = (1%Z, reported "Run ID is required" false).
Proof.
  eapply (proj2 (lookups_require_an_id (served 200 (JObj []))
                   ["runs"; "status"; "--dev"] [] (Cli.setDev noFlags) "status"
                   eq_refl)).
  - reflexivity.
  - right. reflexivity.
Defined.

(** X11.  [cancel] checks its four required flags in the order
    application, function, start of the window, end of the window, and
    reports the first one that is missing or empty; the run ends with
    status 1 before any time is resolved and before anything is sent. *)
Theorem cancel_requires_its_flags (pf : Platform) (args subArgs : list string)
        (flags : Cli.GlobalFlags) :
  Cli.parseGlobalFlags args = (flags, "cancel" :: subArgs) ->
  let given key := present (Cli.parseNamedArgs subArgs !! key) in
  (given "app" = false ->
   Cli.run pf args = (1%Z, reported "--app is required" (Cli.g_pretty flags)))
  /\ (given "app" = true -> given "function" = false ->
      Cli.run pf args = (1%Z, reported "--function is required" (Cli.g_pretty flags)))
  /\ (given "app" = true -> given "function" = true -> given "started-after" = false ->
      Cli.run pf args
      = (1%Z, reported "--started-after is required" (Cli.g_pretty flags)))
  /\ (given "app" = true -> given "function" = true -> given "started-after" = true ->
      given "started-before" = false ->
      Cli.run pf args
      = (1%Z, reported "--started-before is required" (Cli.g_pretty flags))).
Proof.
  intros Hp given. subst given. cbv beta.
  repeat split; intros; route Hp;
    repeat match goal with
           | H : present _ = _ |- _ => rewrite H; clear H
           end;
    settle.
Qed.

Lemma cancel_requires_its_flags_witness :
  Cli.run (served 200 (JObj [])) ["cancel"; "--app"; "my-app"; "--started-after"; "1h"]
  = (1%Z, reported "--function is required" false).
Proof.
  eapply (proj1 (proj2 (cancel_requires_its_flags (served 200 (JObj []))
                          ["cancel"; "--app"; "my-app"; "--started-after"; "1h"]
                          ["--app"; "my-app"; "--started-after"; "1h"] noFlags
                          eq_refl)));
    reflexivity.
Defined.

(** X12.  The subcommands of [events] and [runs].  Without a subcommand
    the usage of the command is printed and the status is 1; [help],
    [--help] and [-h] print it and end with status 0; a word that is no
    subcommand is reported as unknown, the usage follows, and the status
    is 1.  Nothing is sent. *)
Theorem subcommand_terminal_branches (pf : Platform) (args : list string)
        (flags : Cli.GlobalFlags) :
  (Cli.parseGlobalFlags args = (flags, ["events"]) ->
   Cli.run pf args = (1%Z, showed [Cli.eventsUsageText]))
  /\ (Cli.parseGlobalFlags args = (flags, ["runs"]) ->
      Cli.run pf args = (1%Z, showed [Cli.runsUsageText]))
  /\ (forall subcommand rest,
         Cli.isHelp subcommand = true ->
         (Cli.parseGlobalFlags args = (flags, "events" :: subcommand :: rest) ->
          Cli.run pf args = (0%Z, showed [Cli.eventsUsageText]))
         /\ (Cli.parseGlobalFlags args = (flags, "runs" :: subcommand :: rest) ->
             Cli.run pf args = (0%Z, showed [Cli.runsUsageText])))
  /\ (forall subcommand rest,
         Cli.isHelp subcommand = false ->
         (Cli.parseGlobalFlags args = (flags, "events" :: subcommand :: rest) ->
          subcommand <> "send" -> subcommand <> "get" -> subcommand <> "runs" ->
          subcommand <> "list" ->
          Cli.run pf args
          = (1%Z, reportedWith ("Unknown events subcommand: " +:+ subcommand)
                    (Cli.g_pretty flags) Cli.eventsUsageText))
         /\ (Cli.parseGlobalFlags args = (flags, "runs" :: subcommand :: rest) ->
             subcommand <> "get" -> subcommand <> "list" -> subcommand <> "status" ->
             Cli.run pf args
             = (1%Z, reportedWith ("Unknown runs subcommand: " +:+ subcommand)
                       (Cli.g_pretty flags) Cli.runsUsageText))).
Proof.
  split; [|split; [|split]].
  - intros Hp. route Hp. reflexivity.
  - intros Hp. route Hp. reflexivity.
  - intros subcommand rest Hhelp. unfold Cli.isHelp in Hhelp.
    split; intros Hp; unfold Cli.run, Cli.main; rewrite Hp;
      unfold Cli.handleEvents, Cli.handleRuns, Cli.isHelp;
      cbn [String.eqb Ascii.eqb Bool.eqb orb]; now rewrite Hhelp.
  - intros subcommand rest Hhelp. unfold Cli.isHelp in Hhelp.
    split; intros Hp; intros;
      unfold Cli.run, Cli.main; rewrite Hp;
      unfold Cli.handleEvents, Cli.handleRuns, Cli.isHelp;
      cbn [String.eqb Ascii.eqb Bool.eqb orb]; rewrite Hhelp;
      repeat match goal with
             | H : subcommand <> _ |- _ =>
                 apply String.eqb_neq in H; rewrite H; clear H
             end;
      settle.
Qed.

Lemma subcommand_terminal_branches_witness :
  Cli.run (served 200 (JObj [])) ["events"; "--help"; "--pretty"]
  = (0%Z, showed [Cli.eventsUsageText])
  /\ Cli.run (served 200 (JObj [])) ["runs"; "cancel"; "run-1"]
     = (1%Z, reportedWith ("Unknown runs subcommand: " +:+ "cancel") false
               Cli.runsUsageText).
Proof.
  split.
  - eapply (proj1 (proj1 (proj2 (proj2 (subcommand_terminal_branches
                                          (served 200 (JObj []))
                                          ["events"; "--help"; "--pretty"]
                                          (Cli.setPretty noFlags))))
                     "--help" [] eq_refl)).
    reflexivity.
  - eapply (proj2 (proj2 (proj2 (proj2 (subcommand_terminal_branches
                                          (served 200 (JObj []))
                                          ["runs"; "cancel"; "run-1"] noFlags)))
                     "cancel" ["run-1"] eq_refl));
      [reflexivity | discriminate | discriminate | discriminate].
Defined.

Lemma append_assoc_string (a b c : string) : (a +:+ b) +:+ c = a +:+ b +:+ c.
Proof. induction a as [|x a IH]; simpl; [reflexivity | now rewrite IH]. Qed.

(** X13.  The data of [events send].  A data file wins over inline data.
    A data file that does not exist, a file whose text is no JSON, and
    inline data that is no JSON all end the run with status 1 and one
    error that names the source, [--data-file (<path>)] or [--data], as
    not being valid JSON: the error of the missing file is not the one
    shown.  Nothing is sent. *)
Theorem send_rejects_bad_data (pf : Platform) (args subArgs : list string)
        (flags : Cli.GlobalFlags) :
  Cli.parseGlobalFlags args = (flags, "events" :: "send" :: subArgs) ->
  present (Cli.parseNamedArgs subArgs !! "name") = true ->
  (forall path : string,
      Cli.parseNamedArgs subArgs !! "data-file" = Some path -> path <> "" ->
      readFile pf path = None
      \/ (exists content, readFile pf path = Some content /\ parseJSON pf content = None) ->
      Cli.run pf args
      = (1%Z, reported ("--data-file (" +:+ path +:+ ") must be valid JSON")
                (Cli.g_pretty flags)))
  /\ (forall data : string,
         present (Cli.parseNamedArgs subArgs !! "data-file") = false ->
         Cli.parseNamedArgs subArgs !! "data" = Some data -> data <> "" ->
         parseJSON pf data = None ->
         Cli.run pf args
         = (1%Z, reported "--data must be valid JSON" (Cli.g_pretty flags))).
Proof.
  intros Hp Hname. split.
  - intros path Hfile Hne Hbad. apply String.eqb_neq in Hne.
    unfold Cli.run, Cli.main. rewrite Hp.
    unfold Cli.handleEvents.
    cbn [String.eqb Ascii.eqb Bool.eqb Cli.isHelp orb].
    rewrite Hname, Hfile. cbn [present default from_option id negb andb]. rewrite Hne.
    cbn [negb andb]. rewrite andb_false_r.
    repeat change (bind (ret tt) ?k) with (k tt). cbv beta.
    unfold Cli.readDataFile, try_catch, bind at 1 2 3, JSON_parse.
    unfold reported, complained, errorLine, Output.printError.
    rewrite (append_assoc_string "--data-file (" (path +:+ ")") " must be valid JSON").
    rewrite (append_assoc_string path ")" " must be valid JSON").
    destruct Hbad as [-> | (content & -> & Hparse)].
    + now destruct (Cli.g_pretty flags).
    + cbn [ret]. rewrite Hparse. now destruct (Cli.g_pretty flags).
  - intros data Hfile Hdata Hne Hparse. apply String.eqb_neq in Hne.
    unfold Cli.run, Cli.main. rewrite Hp.
    unfold Cli.handleEvents.
    cbn [String.eqb Ascii.eqb Bool.eqb Cli.isHelp orb].
    rewrite Hname, Hfile, Hdata. cbn [present default from_option id negb andb].
    rewrite Hne.
    cbn [negb andb].
    repeat change (bind (ret tt) ?k) with (k tt). cbv beta.
    unfold try_catch, bind at 1 2 3, JSON_parse.
    unfold reported, complained, errorLine, Output.printError.
    cbn [ret]. rewrite Hparse. now destruct (Cli.g_pretty flags).
Qed.

Lemma send_rejects_bad_data_witness :
  Cli.run (served 200 (JObj []))
    ["events"; "send"; "--name"; "test.event"; "--data-file"; "/tmp/event.json"; "--dev"]
  = (1%Z, reported ("--data-file (" +:+ "/tmp/event.json" +:+ ") must be valid JSON")
            false).
Proof.
  eapply (proj1 (send_rejects_bad_data (served 200 (JObj []))
                   ["events"; "send"; "--name"; "test.event"; "--data-file";
                    "/tmp/event.json"; "--dev"]
                   ["--name"; "test.event"; "--data-file"; "/tmp/event.json"]
                   (Cli.setDev noFlags) eq_refl eq_refl)
            "/tmp/event.json").
  - reflexivity.
  - discriminate.
  - left. reflexivity.
Defined.

(** ** Requests (lib/client.ts, lib/events.ts, lib/runs.ts, lib/cancel.ts) *)

(** X14.  With dev mode or a signing key, [apiRequest] sends its one
    request and nothing else changes: when the call does not complete the
    network error is passed on; when the reply is within 200..299 the
    result is the parsed body, and a body that is no JSON ends in a
    SyntaxError.  The signing key travels as a bearer token exactly when
    it is set, and the body is serialized only when it counts as true. *)
Theorem apiRequest_replies (pf : Platform) (client : Client.ClientConfig)
        (method path : string) (body : JsVal) (w : World) :
  Client.dev client = true \/ present (Client.signingKey client) = true ->
  let rq := requestOf client method path body in
  let w' := {| stdout := stdout w; stderr := stderr w; sent := sent w ++ [rq];
               files := files w; ticks := ticks w |} in
  (fetch pf rq = None ->
   Client.apiRequest pf client method path body w = (Throw NetworkError, w'))
  /\ (forall (rs : Response) (v : JsVal),
         fetch pf rq = Some rs -> ok rs = true -> parseJSON pf (text rs) = Some v ->
         Client.apiRequest pf client method path body w = (Done v, w'))
  /\ (forall rs : Response,
         fetch pf rq = Some rs -> ok rs = true -> parseJSON pf (text rs) = None ->
         Client.apiRequest pf client method path body w = (Throw SyntaxError, w'))
  /\ (forall key : string,
         Client.signingKey client = Some key -> key <> "" ->
         headers rq = [("Content-Type", "application/json");
                       ("Authorization", "Bearer " +:+ key)])
  /\ (present (Client.signingKey client) = false ->
      headers rq = [("Content-Type", "application/json")])
  /\ (truthy body = false -> Sys.body rq = None).
Proof.
  intros Hcred rq w'.
  assert (Hgate : negb (Client.dev client) && negb (present (Client.signingKey client))
                  = false).
  { destruct Hcred as [-> | ->]; [reflexivity | apply andb_false_r]. }
  repeat split.
  - intros Hfetch. unfold Client.apiRequest. rewrite Hgate.
    unfold bind, do_fetch. fold (requestOf client method path body). fold rq.
    now rewrite Hfetch.
  - intros rs v Hfetch Hok Hparse. unfold Client.apiRequest. rewrite Hgate.
    unfold bind, do_fetch. fold (requestOf client method path body). fold rq.
    rewrite Hfetch, Hok. cbn [negb]. unfold JSON_parse. now rewrite Hparse.
  - intros rs Hfetch Hok Hparse. unfold Client.apiRequest. rewrite Hgate.
    unfold bind, do_fetch. fold (requestOf client method path body). fold rq.
    rewrite Hfetch, Hok. cbn [negb]. unfold JSON_parse. now rewrite Hparse.
  - intros key Hkey Hne. subst rq. unfold requestOf. cbn [headers].
    rewrite Hkey. cbn [present default]. apply String.eqb_neq in Hne. now rewrite Hne.
  - intros Hkey. subst rq. unfold requestOf. cbn [headers]. now rewrite Hkey.
  - intros Hbody. subst rq. unfold requestOf. cbn [Sys.body]. now rewrite Hbody.
Qed.

Lemma apiRequest_replies_witness :
  Client.apiRequest (served 200 (JObj [("cancelled", JNum 5)]))
    (Client.createClient (served 200 (JObj [("cancelled", JNum 5)])) devOptions)
    "GET" "/v1/runs/r1" JUndefined world0
  = (Done (JObj [("cancelled", JNum 5)]),
     {| stdout := []; stderr := [];
        sent := [] ++ [requestOf
                         (Client.createClient (served 200 (JObj [("cancelled", JNum 5)]))
                            devOptions)
                         "GET" "/v1/runs/r1" JUndefined];
        files := []; ticks := 0 |}).
Proof.
  set (pf := served 200 (JObj [("cancelled", JNum 5)])).
  apply (proj1 (proj2 (apiRequest_replies pf (Client.createClient pf devOptions)
                         "GET" "/v1/runs/r1" JUndefined world0
                         (or_introl eq_refl)))
           {| status := 200;
              text := default "" (stringify (JObj [("cancelled", JNum 5)])) |});
    reflexivity.
Defined.

Section BaseUrl.



End BaseUrl.



Section Sending.
Variable pf : Platform.

(** [sendEvent] once the event key is settled. *)
Lemma sendEvent_keyed (options : Events.SendEventOptions) (eventKey : string)
      (w : World) :
  (present (env pf "INNGEST_EVENT_KEY") = true
   /\ eventKey = default "" (env pf "INNGEST_EVENT_KEY"))
  \/ (Events.s_dev options = true /\ present (env pf "INNGEST_EVENT_KEY") = false
      /\ eventKey = "test") ->
  Events.sendEvent pf options w
  = bind (do_fetch pf (eventRequest pf options eventKey))
      (fun response =>
         if negb (ok response) then
           throw (Error ("Failed to send event (" +:+ showZ (status response) +:+ "): "
                           +:+ text response))
         else
           bind (JSON_parse pf (text response)) (fun result =>
           bind (lift (get result "ids")) (fun ids =>
           ret (JObj [("ids", Js.or ids (JArr []));
                      ("status", JNum (status response))])))) w.
Proof.
  intros Hkey. unfold Events.sendEvent, Client.validateEventKey.
  cbn [Client.createClient Client.eventKey].
  unfold eventRequest.
  destruct Hkey as [[Hp ->] | (Hdev & Hp & ->)]; rewrite Hp.
  - now destruct (Events.s_dev options).
  - now rewrite Hdev.
Qed.

End Sending.

(** X16.  [sendEvent] refuses to send without an event key outside dev
    mode, and stands in the key [test] for a missing one in dev mode.
    With a key it sends exactly one POST to the event gateway, with the
    key in the path, the payload as the body and no credential in the
    headers.  A reply outside 200..299 ends in an error with the status
    and the text of the reply as it came; a reply within that range gives
    the ids of the reply, or none, and the status. *)
Theorem sendEvent_contract (pf : Platform) (options : Events.SendEventOptions)
        (w : World) :
  (Events.s_dev options = false -> present (env pf "INNGEST_EVENT_KEY") = false ->
   Events.sendEvent pf options w
   = (Throw (Error "INNGEST_EVENT_KEY environment variable is required for sending events"),
      w))
  /\ (forall eventKey : string,
         (present (env pf "INNGEST_EVENT_KEY") = true
          /\ eventKey = default "" (env pf "INNGEST_EVENT_KEY"))
         \/ (Events.s_dev options = true /\ present (env pf "INNGEST_EVENT_KEY") = false
             /\ eventKey = "test") ->
         sent (snd (Events.sendEvent pf options w))
         = sent w ++ [eventRequest pf options eventKey]
         /\ (fetch pf (eventRequest pf options eventKey) = None ->
             fst (Events.sendEvent pf options w) = Throw NetworkError)
         /\ (forall rs : Response,
                fetch pf (eventRequest pf options eventKey) = Some rs -> ok rs = false ->
                fst (Events.sendEvent pf options w)
                = Throw (Error ("Failed to send event (" +:+ showZ (status rs) +:+ "): "
                                  +:+ text rs)))
         /\ (forall (rs : Response) (result ids : JsVal),
                fetch pf (eventRequest pf options eventKey) = Some rs -> ok rs = true ->
                parseJSON pf (text rs) = Some result -> get result "ids" = Ok ids ->
                fst (Events.sendEvent pf options w)
                = Done (JObj [("ids", Js.or ids (JArr []));
                              ("status", JNum (status rs))])))
  /\ (forall (eventKey key value : string),
         In (key, value) (headers (eventRequest pf options eventKey)) ->
         key = "Content-Type" \/ key = "x-inngest-env")
  /\ (forall eventKey : string,
         Events.s_dev options = false ->
         url (eventRequest pf options eventKey) = "https://inn.gs/e/" +:+ eventKey).
Proof.
  split; [|split; [|split]].
  - intros Hdev Hkey. unfold Events.sendEvent, Client.validateEventKey.
    cbn [Client.createClient Client.eventKey]. now rewrite Hdev, Hkey.
  - intros eventKey Hkey. rewrite (sendEvent_keyed pf options eventKey w Hkey).
    unfold bind, do_fetch.
    destruct (fetch pf (eventRequest pf options eventKey)) as [rs|] eqn:Hfetch.
    + cbn [fst snd]. repeat split.
      * destruct (negb (ok rs)); [reflexivity|]. unfold JSON_parse.
        destruct (parseJSON pf (text rs)) as [result|]; [|reflexivity]. simpl.
        now destruct (get result "ids").
      * discriminate.
      * intros rs' [= <-] Hok. now rewrite Hok.
      * intros rs' result ids [= <-] Hok Hparse Hids. rewrite Hok. cbn [negb].
        unfold JSON_parse. rewrite Hparse. unfold ret at 1. now rewrite Hids.
    + repeat split; try discriminate.
  - intros eventKey key value. unfold eventRequest. cbn [headers].
    destruct (present (Events.s_env options)); simpl; intros H;
      repeat destruct H as [H|H]; try (injection H as <- _); auto; contradiction.
  - intros eventKey Hdev. unfold eventRequest, Client.getEventGatewayUrl.
    cbn [url Client.o_dev]. now rewrite Hdev.
Qed.

Lemma sendEvent_contract_witness :
  sent (snd (Events.sendEvent (served 200 (JObj [("ids", JArr [JStr "01H"])]))
               {| Events.name := "user.signup"; Events.data := JObj [];
                  Events.id := None; Events.s_env := Some "staging";
                  Events.s_dev := true; Events.s_port := None |} world0))
  = [{| url := "http://localhost:8288/e/test"; method := "POST";
        headers := [("Content-Type", "application/json"); ("x-inngest-env", "staging")];
        body := Some ("{" +:+ dq +:+ "name" +:+ dq +:+ ":" +:+ dq +:+ "user.signup" +:+ dq
                        +:+ "," +:+ dq +:+ "data" +:+ dq +:+ ":{}}") |}].
Proof.
  exact (proj1 (proj1 (proj2 (sendEvent_contract
                                (served 200 (JObj [("ids", JArr [JStr "01H"])]))
                                {| Events.name := "user.signup"; Events.data := JObj [];
                                   Events.id := None; Events.s_env := Some "staging";
                                   Events.s_dev := true; Events.s_port := None |}
                                world0))
                  "test" (or_intror (conj eq_refl (conj eq_refl eq_refl))))).
Defined.

Section Requests2.
Variable pf : Platform.



End Requests2.



Section Query.











End Query.



Section Cancelling.
Variable pf : Platform.

Lemma parseTime_sent (input : string) (w : World) :
  sent (snd (Cancel.parseTime pf input w)) = sent w.
Proof.
  destruct (parseTime_within pf (fun _ => True) input w) as (d & -> & Hs & _).
  apply empty_of_length in Hs. simpl. now rewrite Hs, app_nil_r.
Qed.

End Cancelling.

(** X19.  [cancelRuns] resolves both ends of the time window before it
    turns to the remote end: when either end is refused the error is the
    one of [parseTime] and no request has been sent.  When both are
    accepted it sends what [apiRequest] sends for one POST to
    [/v1/cancellations], whose body holds the application, the function
    and the two resolved times under their snake_case names, and the
    expression [if] only when one is given. *)
Theorem cancelRuns_validates_first (pf : Platform) (options : Cancel.CancelOptions)
        (w : World) :
  (forall e w1,
      Cancel.parseTime pf (Cancel.startedAfter options) w = (Throw e, w1) ->
      Cancel.cancelRuns pf options w = (Throw e, w1) /\ sent w1 = sent w)
  /\ (forall started_after e w1 w2,
         Cancel.parseTime pf (Cancel.startedAfter options) w = (Done started_after, w1) ->
         Cancel.parseTime pf (Cancel.startedBefore options) w1 = (Throw e, w2) ->
         Cancel.cancelRuns pf options w = (Throw e, w2) /\ sent w2 = sent w)
  /\ (forall started_after started_before w1 w2,
         Cancel.parseTime pf (Cancel.startedAfter options) w = (Done started_after, w1) ->
         Cancel.parseTime pf (Cancel.startedBefore options) w1
         = (Done started_before, w2) ->
         Cancel.cancelRuns pf options w
         = Client.apiRequest pf
             (Client.createClient pf {| Client.o_dev := Cancel.c_dev options;
                                        Client.o_port := Cancel.c_port options |})
             "POST" "/v1/cancellations"
             (cancelBody options started_after started_before) w2
         /\ sent w2 = sent w).
Proof.
  split; [|split].
  - intros e w1 H. pose proof (parseTime_sent pf (Cancel.startedAfter options) w) as Hs.
    unfold Cancel.cancelRuns, bind. rewrite H in *. auto.
  - intros started_after e w1 w2 H1 H2.
    pose proof (parseTime_sent pf (Cancel.startedAfter options) w) as Hs1.
    pose proof (parseTime_sent pf (Cancel.startedBefore options) w1) as Hs2.
    unfold Cancel.cancelRuns, bind. rewrite H1 in *. rewrite H2 in *.
    simpl in *. split; [reflexivity | congruence].
  - intros started_after started_before w1 w2 H1 H2.
    pose proof (parseTime_sent pf (Cancel.startedAfter options) w) as Hs1.
    pose proof (parseTime_sent pf (Cancel.startedBefore options) w1) as Hs2.
    unfold Cancel.cancelRuns, bind. rewrite H1 in *. rewrite H2 in *.
    simpl in *. split; [reflexivity | congruence].
Qed.

Lemma cancelRuns_validates_first_witness :
  Cancel.cancelRuns (served 200 (JObj [("cancelled", JNum 5)]))
    {| Cancel.appId := "my-app"; Cancel.functionId := "my-func";
       Cancel.startedAfter := "1h"; Cancel.startedBefore := "now";
       Cancel.if_ := None; Cancel.c_dev := true; Cancel.c_port := None |} world0
  = (Throw (Cancel.invalidTimeFormat "now"), tick world0)
  /\ sent (tick world0) = sent world0.
Proof.
  apply (proj1 (proj2 (cancelRuns_validates_first
                         (served 200 (JObj [("cancelled", JNum 5)]))
                         {| Cancel.appId := "my-app"; Cancel.functionId := "my-func";
                            Cancel.startedAfter := "1h"; Cancel.startedBefore := "now";
                            Cancel.if_ := None; Cancel.c_dev := true;
                            Cancel.c_port := None |} world0))
           "2024-01-01T09:00:00.000Z" _ (tick world0) (tick world0));
    reflexivity.
Defined.

(** ** From the command line to the exit status (cli.ts, lib/runs.ts) *)

Section EndToEnd.
Variable pf : Platform.





End EndToEnd.



(** ** Normalized results (lib/events.ts, lib/runs.ts, lib/output.ts) *)

Section Inversion.

Lemma bind_done {A B} (m : M A) (k : A -> M B) (w w' : World) (b : B) :
  bind m k w = (Done b, w') ->
  exists a w1, m w = (Done a, w1) /\ k a w1 = (Done b, w').
Proof.
  unfold bind. destruct (m w) as [[a|e|code] w1]; try discriminate.
  intros H. now exists a, w1.
Qed.

Lemma lift_done {A} (r : Res A) (w w' : World) (a : A) :
  lift r w = (Done a, w') -> r = Ok a /\ w' = w.
Proof. destruct r; simpl; [intros [= <- <-]; auto | discriminate]. Qed.

Lemma rbind_ok {A B} (r : Res A) (k : A -> Res B) (b : B) :
  rbind r k = Ok b -> exists a, r = Ok a /\ k a = Ok b.
Proof. destruct r as [a|e]; simpl; [intros H; now exists a | discriminate]. Qed.

Lemma mapRes_ok {A B} (f : A -> Res B) (l : list A) (out : list B) :
  Events.mapRes f l = Ok out -> Forall2 (fun x y => f x = Ok y) l out.
Proof.
  revert out. induction l as [|x l IH]; simpl; intros out H.
  - injection H as <-. constructor.
  - apply rbind_ok in H as (y & Hy & H). apply rbind_ok in H as (ys & Hys & H).
    injection H as <-. constructor; [exact Hy | now apply IH].
Qed.

Lemma arrayMap_ok (raw r : JsVal) (f : JsVal -> Res JsVal) :
  Events.arrayMap raw f = Ok r ->
  exists items outs, raw = JArr items /\ r = JArr outs
                     /\ Forall2 (fun x y => f x = Ok y) items outs.
Proof.
  destruct raw; try discriminate. simpl. intros H.
  apply rbind_ok in H as (outs & Hmap & [= <-]).
  exists items, outs. auto using mapRes_ok.
Qed.

End Inversion.

(** Takes a successful computation apart, step by step. *)
Ltac invert_done H :=
  repeat match type of H with
         | bind _ _ _ = (Done _, _) =>
             let a := fresh "a" in
             let w1 := fresh "w" in
             let H1 := fresh "Hstep" in
             apply bind_done in H as (a & w1 & H1 & H)
         end.

Section Shapes.
Variable pf : Platform.

Lemma eventDetails_shape (raw r : JsVal) :
  Events.eventDetails pf raw = Ok r ->
  exists id name received data user,
    r = JObj [("id", id); ("name", name); ("receivedAt", received);
              ("data", data); ("user", user)]
    /\ Events.receivedAt pf raw = Ok received.
Proof.
  unfold Events.eventDetails. intros H.
  destruct (get raw "id") as [id|]; [|discriminate].
  destruct (get raw "name") as [name|]; [|discriminate].
  destruct (Events.receivedAt pf raw) as [received|]; [|discriminate].
  destruct (get raw "data") as [data|]; [|discriminate].
  destruct (get raw "user") as [user|]; [|discriminate].
  injection H as <-. now exists id, name, received, data, user.
Qed.

Lemma normalizeEventRuns_shape (raw r : JsVal) :
  Events.normalizeEventRuns raw = Ok r ->
  exists items outs,
    raw = JArr items /\ r = JArr outs /\ length outs = length items
    /\ Forall (fun out => exists runId status functionId functionVersion
                                 startedAt endedAt output,
                   out = JObj [("runId", runId); ("status", status);
                               ("functionId", functionId);
                               ("functionVersion", functionVersion);
                               ("startedAt", startedAt); ("endedAt", endedAt);
                               ("output", output)]
                   /\ (truthy runId = true \/ runId = JStr "")
                   /\ (truthy functionId = true \/ functionId = JStr "")) outs.
Proof.
  unfold Events.normalizeEventRuns. intros H.
  apply arrayMap_ok in H as (items & outs & -> & -> & Hall).
  exists items, outs. split; [reflexivity|]. split; [reflexivity|].
  split; [symmetry; eapply Forall2_length; exact Hall|].
  induction Hall as [|x y items outs Hxy _ IH]; constructor; [|exact IH].
  repeat match type of Hxy with
         | rbind _ _ = Ok _ =>
             let v := fresh "v" in
             let Hv := fresh "Hv" in
             apply rbind_ok in Hxy as (v & Hv & Hxy)
         end.
  injection Hxy as <-. do 7 eexists. split; [reflexivity|].
  unfold Js.or. split.
  - destruct (truthy v) eqn:E; [left; exact E | now right].
  - destruct (truthy v1) eqn:E; [left; exact E | now right].
Qed.

Lemma normalizeJobs_shape (raw r : JsVal) :
  Runs.normalizeJobs raw = Ok r ->
  exists items outs,
    raw = JArr items /\ r = JArr outs /\ length outs = length items
    /\ Forall (fun out => exists jobId stepId status startedAt endedAt output error,
                   out = JObj [("jobId", jobId); ("stepId", stepId);
                               ("status", status);
                               ("startedAt", startedAt); ("endedAt", endedAt);
                               ("output", output); ("error", error)]
                   /\ (truthy jobId = true \/ jobId = JStr "")
                   /\ (truthy stepId = true \/ stepId = JStr "")) outs.
Proof.
  unfold Runs.normalizeJobs. intros H.
  apply arrayMap_ok in H as (items & outs & -> & -> & Hall).
  exists items, outs. split; [reflexivity|]. split; [reflexivity|].
  split; [symmetry; eapply Forall2_length; exact Hall|].
  induction Hall as [|x y items outs Hxy _ IH]; constructor; [|exact IH].
  repeat match type of Hxy with
         | rbind _ _ = Ok _ =>
             let v := fresh "v" in
             let Hv := fresh "Hv" in
             apply rbind_ok in Hxy as (v & Hv & Hxy)
         end.
  injection Hxy as <-. do 7 eexists. split; [reflexivity|].
  unfold Js.or. split.
  - destruct (truthy v) eqn:E; [left; exact E | now right].
  - destruct (truthy v0) eqn:E; [left; exact E | now right].
Qed.

End Shapes.

Section ReceivedAt.
Variable pf : Platform.

Lemma isoOfTime_not_empty (t : Z) : String.eqb (isoOfTime t) "" = false.
Proof.
  unfold isoOfTime. destruct (civil (t / msPerDay)) as [[y m] d].
  destruct (isoYear y); reflexivity.
Qed.

Lemma receivedAt_truthy (raw received : JsVal) :
  Events.receivedAt pf raw = Ok received -> truthy received = true.
Proof.
  unfold Events.receivedAt. intros H.
  apply rbind_ok in H as (r & _ & H).
  destruct (truthy r) eqn:Hr; [now injection H as <-|].
  apply rbind_ok in H as (ts & _ & H). apply rbind_ok in H as (iso & Hiso & H).
  injection H as <-. unfold toISOString in Hiso.
  destruct (newDate pf (Js.or ts (JNum 0))) as [t|]; [|discriminate].
  injection Hiso as <-. simpl. now rewrite isoOfTime_not_empty.
Qed.

End ReceivedAt.

(** X21.  A normalized event always carries a time of receipt that counts
    as true: when the wire format has it under neither spelling, the
    timestamp [ts] stands in, and the epoch when that is missing too.
    A timestamp outside the range of Date makes the normalization fail
    with a RangeError. *)
Theorem normalized_event_has_receivedAt (pf : Platform) :
  (forall raw r : JsVal,
      Events.eventDetails pf raw = Ok r ->
      exists received, get r "receivedAt" = Ok received /\ truthy received = true)
  /\ (forall fields : list (string * JsVal),
         lookup "received_at" fields = None -> lookup "receivedAt" fields = None ->
         lookup "ts" fields = None ->
         Events.receivedAt pf (JObj fields) = Ok (JStr "1970-01-01T00:00:00.000Z"))
  /\ (forall (fields : list (string * JsVal)) (n : Z),
         lookup "received_at" fields = None -> lookup "receivedAt" fields = None ->
         lookup "ts" fields = Some (JNum n) ->
         (Z.abs n <= maxTime)%Z -> n <> 0%Z ->
         Events.receivedAt pf (JObj fields) = Ok (JStr (isoOfTime n)))
  /\ (forall (fields : list (string * JsVal)) (n : Z),
         lookup "received_at" fields = None -> lookup "receivedAt" fields = None ->
         lookup "ts" fields = Some (JNum n) ->
         (maxTime < Z.abs n)%Z ->
         Events.eventDetails pf (JObj fields) = Raise RangeError).
Proof.
  split; [|split; [|split]].
  - intros raw r H.
    apply eventDetails_shape in H as (id & name & received & data & user & -> & Hr).
    exists received. split; [reflexivity|]. now apply (receivedAt_truthy pf raw).
  - intros fields H1 H2 H3. unfold Events.receivedAt, Events.either. simpl.
    now rewrite H1, H2, H3.
  - intros fields n H1 H2 H3 Hrange Hn. unfold Events.receivedAt, Events.either. simpl.
    rewrite H1, H2, H3. simpl. unfold Js.or. simpl.
    apply Z.eqb_neq in Hn. rewrite Hn. simpl.
    unfold timeClip. apply Z.leb_le in Hrange. now rewrite Hrange.
  - intros fields n H1 H2 H3 Hrange.
    unfold Events.eventDetails, Events.receivedAt, Events.either. simpl.
    rewrite H1, H2, H3. simpl. unfold Js.or. simpl.
    assert (Hn : (n =? 0)%Z = false) by (apply Z.eqb_neq; unfold maxTime in Hrange; lia).
    rewrite Hn. simpl. unfold timeClip.
    apply Z.leb_gt in Hrange. now rewrite Hrange.
Qed.

Lemma normalized_event_has_receivedAt_witness :
  Events.receivedAt (demo 200 "" None) (JObj [("id", JStr "evt-1"); ("name", JStr "a")])
  = Ok (JStr "1970-01-01T00:00:00.000Z")
  /\ Events.receivedAt (demo 200 "" None)
       (JObj [("id", JStr "evt-1"); ("ts", JNum 1704103200000)])
     = Ok (JStr (isoOfTime 1704103200000))
  /\ Events.eventDetails (demo 200 "" None)
       (JObj [("id", JStr "evt-1"); ("ts", JNum 10000000000000000)])
     = Raise RangeError.
Proof.
  split; [|split].
  - apply (proj1 (proj2 (normalized_event_has_receivedAt (demo 200 "" None))));
      reflexivity.
  - apply (proj1 (proj2 (proj2 (normalized_event_has_receivedAt (demo 200 "" None)))));
      try reflexivity; [vm_compute; discriminate | discriminate].
  - apply (proj2 (proj2 (proj2 (normalized_event_has_receivedAt (demo 200 "" None))))
             _ 10000000000000000%Z); reflexivity.
Defined.



(** X23.  The result of each operation on events reaches the formatter
    written for it: the pretty printer takes what [getEvent] returns for
    an event, what [getEventRuns] returns for a list of runs, what
    [listEvents] returns for a list of events, and what [sendEvent]
    returns for the receipt of an event whenever the ids of the reply are
    an array or missing. *)
Theorem event_results_reach_their_formatter (pf : Platform) (w w' : World)
        (r : JsVal) :
  (forall eventId options,
      Events.getEvent pf eventId options w = (Done r, w') ->
      Output.printPretty pf r = Output.printEventDetails pf r)
  /\ (forall eventId options,
         Events.getEventRuns pf eventId options w = (Done r, w') ->
         Output.printPretty pf r = Output.printEventRuns pf (Output.itemsOf r))
  /\ (forall options,
         Events.listEvents pf options w = (Done r, w') ->
         Output.printPretty pf r = Output.printEventList pf r)
  /\ (forall options,
         Events.sendEvent pf options w = (Done r, w') ->
         exists ids code,
           r = JObj [("ids", ids); ("status", JNum code)]
           /\ (isArray ids = true ->
               Output.printPretty pf r = Output.printEventResult r)).
Proof.
  split; [|split; [|split]].
  - intros eventId options H. unfold Events.getEvent in H. invert_done H.
    apply lift_done in H as [H _].
    apply eventDetails_shape in H as (? & ? & ? & ? & ? & -> & _). reflexivity.
  - intros eventId options H. unfold Events.getEventRuns in H. invert_done H.
    apply lift_done in H as [H _].
    apply normalizeEventRuns_shape in H as (items & outs & _ & -> & _ & Hall).
    destruct Hall as [|out outs (? & ? & ? & ? & ? & ? & ? & -> & _) _]; reflexivity.
  - intros options H. unfold Events.listEvents in H. invert_done H.
    injection H as <- _.
    match goal with
    | Hn : lift (Events.normalizeEventList _ _) _ = _ |- _ =>
        apply lift_done in Hn as [Hn _];
        apply arrayMap_ok in Hn as (items & outs & _ & -> & _)
    end.
    reflexivity.
  - intros options H. unfold Events.sendEvent in H. invert_done H.
    match goal with
    | Hr : do_fetch _ _ _ = (Done ?rs, _) |- _ => destruct (negb (ok rs)); [unfold throw in H; discriminate|]
    end.
    invert_done H. injection H as <- _.
    do 2 eexists. split; [reflexivity|].
    intros Hids. unfold Js.or in *.
    match goal with
    | |- context [if truthy ?v then _ else _] =>
        destruct (truthy v); [destruct v; try discriminate|]
    end; reflexivity.
Qed.

Lemma event_results_reach_their_formatter_witness :
  Output.printPretty
    (served 200 (JObj [("data", JObj [("id", JStr "evt-123");
                                      ("name", JStr "user.signup");
                                      ("received_at", JStr "2024-01-01T10:00:00Z")])]))
    (JObj [("id", JStr "evt-123"); ("name", JStr "user.signup");
           ("receivedAt", JStr "2024-01-01T10:00:00Z");
           ("data", JUndefined); ("user", JUndefined)])
  = Output.printEventDetails
      (served 200 (JObj [("data", JObj [("id", JStr "evt-123");
                                        ("name", JStr "user.signup");
                                        ("received_at", JStr "2024-01-01T10:00:00Z")])]))
      (JObj [("id", JStr "evt-123"); ("name", JStr "user.signup");
             ("receivedAt", JStr "2024-01-01T10:00:00Z");
             ("data", JUndefined); ("user", JUndefined)]).
Proof.
  set (pf := served 200 _).
  apply (proj1 (event_results_reach_their_formatter pf world0
                  (snd (Events.getEvent pf "evt-123" devOptions world0)) _)
           "evt-123" devOptions).
  reflexivity.
Defined.

(** X24.  The result of each operation on runs reaches the formatter
    written for it: the pretty printer takes what [getRun] returns for the
    status of a run, and what [getRunJobs] returns, unless it is empty,
    for a list of jobs. *)
Theorem run_results_reach_their_formatter (pf : Platform) (w w' : World)
        (r : JsVal) (runId : string) (options : Client.ClientOptions) :
  (Runs.getRun pf runId options w = (Done r, w') ->
   Output.printPretty pf r = Output.printRunStatus pf r)
  /\ (Runs.getRunJobs pf runId options w = (Done r, w') ->
      r <> JArr [] ->
      Output.printPretty pf r = Output.printRunJobs pf (Output.itemsOf r)).
Proof.
  split.
  - intros H. unfold Runs.getRun in H. invert_done H.
    match type of H with
    | (if ?b then _ else _) _ = _ => destruct b; [unfold throw in H; discriminate|]
    end.
    apply lift_done in H as [H _].
    repeat match type of H with
           | rbind _ _ = Ok _ =>
               let v := fresh "v" in
               let Hv := fresh "Hv" in
               apply rbind_ok in H as (v & Hv & H)
           end.
    injection H as <-. reflexivity.
  - intros H Hne. unfold Runs.getRunJobs in H. invert_done H.
    apply lift_done in H as [H _].
    apply normalizeJobs_shape in H as (items & outs & _ & -> & _ & Hall).
    destruct Hall as [|out outs (? & ? & ? & ? & ? & ? & ? & -> & _) _];
      [congruence | reflexivity].
Qed.

Lemma run_results_reach_their_formatter_witness :
  Output.printPretty
    (served 200 (JObj [("data", JArr [JObj [("job_id", JStr "job-1");
                                            ("step_id", JStr "step-init");
                                            ("status", JStr "Completed")]])]))
    (JArr [JObj [("jobId", JStr "job-1"); ("stepId", JStr "step-init");
                 ("status", JStr "Completed"); ("startedAt", JUndefined);
                 ("endedAt", JUndefined); ("output", JUndefined);
                 ("error", JUndefined)]])
  = Output.printRunJobs
      (served 200 (JObj [("data", JArr [JObj [("job_id", JStr "job-1");
                                              ("step_id", JStr "step-init");
                                              ("status", JStr "Completed")]])]))
      (Output.itemsOf
         (JArr [JObj [("jobId", JStr "job-1"); ("stepId", JStr "step-init");
                      ("status", JStr "Completed"); ("startedAt", JUndefined);
                      ("endedAt", JUndefined); ("output", JUndefined);
                      ("error", JUndefined)]])).
Proof.
  set (pf := served 200 _).
  apply (proj2 (run_results_reach_their_formatter pf world0
                  (snd (Runs.getRunJobs pf "run-1" devOptions world0)) _
                  "run-1" devOptions)).
  - reflexivity.
  - discriminate.
Defined.

(** ** Formatting (lib/output.ts) *)

Section Truncation.

Lemma length_stake (n : nat) (s : string) :
  String.length (stake n s) = Nat.min n (String.length s).
Proof.
  revert s. induction n as [|n IH]; intros [|c s]; simpl; try reflexivity.
  now rewrite IH.
Qed.

Lemma length_app_string (a b : string) :
  String.length (a +:+ b) = String.length a + String.length b.
Proof. induction a as [|c a IH]; simpl; [reflexivity | now rewrite IH]. Qed.

End Truncation.

(** X25.  [truncate] with a bound of at least three keeps a string that
    fits as it is and cuts a longer one to exactly the bound: the first
    [maxLen - 3] characters followed by three dots.  The result never
    exceeds the bound. *)
Theorem truncate_bounds (s : string) (maxLen : nat) :
  3 <= maxLen ->
  exists t,
    Output.truncate (JStr s) maxLen = Ok t
    /\ String.length t <= maxLen
    /\ (String.length s <= maxLen -> t = s)
    /\ (maxLen < String.length s ->
        t = stake (maxLen - 3) s +:+ "..." /\ String.length t = maxLen).
Proof.
  intros Hmax. unfold Output.truncate. cbn [asStr rbind]. eexists.
  split; [reflexivity|].
  destruct (Nat.leb_spec (String.length s) maxLen) as [Hfit|Hlong].
  - split; [exact Hfit|]. split; [reflexivity | lia].
  - unfold slice. cbn [sdrop]. rewrite Nat.sub_0_r.
    assert (Hlen : String.length (stake (maxLen - 3) s +:+ "...") = maxLen).
    { rewrite length_app_string, length_stake. simpl. lia. }
    split; [lia|]. split; [lia|]. intros _. split; [reflexivity | exact Hlen].
Qed.

Lemma truncate_bounds_witness :
  exists t,
    Output.truncate (JStr "my-app-send-welcome-email-to-new-users") 30 = Ok t
    /\ String.length t <= 30.
Proof.
  destruct (truncate_bounds "my-app-send-welcome-email-to-new-users" 30) as (t & H & Hlen & _);
    [lia|].
  exists t. split; [exact H | exact Hlen].
Defined.

Section Badges.





End Badges.



Section RelativeTime.
Local Open Scope Z_scope.

Lemma floor_bounds (d u lo hi : Z) :
  0 < u -> lo * u <= d < hi * u ->
  lo <= d / u < hi /\ (d / u) * u <= d < (d / u + 1) * u.
Proof.
  intros Hu [Hlo Hhi]. repeat split.
  - apply Z.div_le_lower_bound; lia.
  - apply Z.div_lt_upper_bound; lia.
  - rewrite Z.mul_comm. apply Z.mul_div_le. exact Hu.
  - rewrite Z.mul_comm. replace (d / u + 1) with (Z.succ (d / u)) by lia.
    apply Z.mul_succ_div_gt. exact Hu.
Qed.

End RelativeTime.

(** X27.  [formatRelativeTime] reads the clock once.  For a time less than
    a second ago, and for a time in the future, it says "just now";
    otherwise it shows the age in the largest unit that fits, rounded
    down: seconds from 1 to 59, minutes from 1 to 59, hours from 1 to 23,
    or days.  A time that is no date is shown as "NaNd ago". *)
Theorem formatRelativeTime_buckets (pf : Platform) (ts : JsVal) (w : World) :
  (forall then_ : Z,
      newDate pf ts = Some then_ ->
      let diff := (clock pf (ticks w) - then_)%Z in
      exists text,
        Output.formatRelativeTime pf ts w = (Done text, tick w)
        /\ (((diff < 1000)%Z /\ text = "just now")
            \/ exists (k : Z) (unit : string) (ms : Z),
                 text = showZ k +:+ unit +:+ " ago"
                 /\ (k * ms <= diff < (k + 1) * ms)%Z
                 /\ ((unit = "s" /\ ms = 1000%Z /\ (1 <= k <= 59)%Z)
                     \/ (unit = "m" /\ ms = 60000%Z /\ (1 <= k <= 59)%Z)
                     \/ (unit = "h" /\ ms = 3600000%Z /\ (1 <= k <= 23)%Z)
                     \/ (unit = "d" /\ ms = 86400000%Z /\ (1 <= k)%Z))))
  /\ (newDate pf ts = None ->
      Output.formatRelativeTime pf ts w = (Done "NaNd ago", tick w)).
Proof.
  split.
  - intros then_ Hdate diff. unfold Output.formatRelativeTime, bind, Date_now.
    rewrite Hdate. fold diff. cbn [ret]. eexists. split; [reflexivity|].
    destruct (Z.ltb_spec diff 1000); [left; split; [assumption | reflexivity]|].
    right.
    destruct (Z.ltb_spec diff 60000).
    { destruct (floor_bounds diff 1000 1 60) as [[? ?] [? ?]]; [lia | lia |].
      exists (diff / 1000)%Z, "s", 1000%Z. repeat split; try assumption.
      left. repeat split; lia. }
    destruct (Z.ltb_spec diff 3600000).
    { destruct (floor_bounds diff 60000 1 60) as [[? ?] [? ?]]; [lia | lia |].
      exists (diff / 60000)%Z, "m", 60000%Z. repeat split; try assumption.
      right. left. repeat split; lia. }
    destruct (Z.ltb_spec diff 86400000).
    { destruct (floor_bounds diff 3600000 1 24) as [[? ?] [? ?]]; [lia | lia |].
      exists (diff / 3600000)%Z, "h", 3600000%Z. repeat split; try assumption.
      right. right. left. repeat split; lia. }
    assert (1 <= diff / 86400000)%Z by (apply Z.div_le_lower_bound; lia).
    exists (diff / 86400000)%Z, "d", 86400000%Z. repeat split.
    + rewrite Z.mul_comm. apply Z.mul_div_le. lia.
    + rewrite Z.mul_comm.
      replace (diff / 86400000 + 1)%Z with (Z.succ (diff / 86400000)) by lia.
      apply Z.mul_succ_div_gt. lia.
    + right. right. right. repeat split. assumption.
  - intros Hdate. unfold Output.formatRelativeTime, bind, Date_now. now rewrite Hdate.
Qed.

Lemma formatRelativeTime_buckets_witness :
  Output.formatRelativeTime (demo 200 "" None) JUndefined world0
  = (Done "NaNd ago", tick world0).
Proof.
  apply (proj2 (formatRelativeTime_buckets (demo 200 "" None) JUndefined world0)).
  reflexivity.
Defined.

Section ErrorLine.




End ErrorLine.


(** ** The mock server of the tests (lib/test-utils.ts) *)

Section MockServer.
Import TestUtils.

(** Paths from the longest to the shortest. *)
Let descending : list MockRoute -> Prop :=
  StronglySorted (fun a b => String.length (r_path b) <= String.length (r_path a)).

Lemma insertRoute_In (route x : MockRoute) (sorted : list MockRoute) :
  In x (insertRoute route sorted) <-> x = route \/ In x sorted.
Proof.
  induction sorted as [|y sorted IH]; simpl.
  - intuition.
  - destruct (String.length (r_path y) <=? String.length (r_path route))%nat; simpl;
      rewrite ?IH; intuition.
Qed.

Lemma sortRoutes_In (x : MockRoute) (routes : list MockRoute) :
  In x (sortRoutes routes) <-> In x routes.
Proof.
  induction routes as [|r routes IH]; simpl; [reflexivity|].
  rewrite insertRoute_In, IH. intuition.
Qed.

Lemma insertRoute_descending (route : MockRoute) (sorted : list MockRoute) :
  descending sorted -> descending (insertRoute route sorted).
Proof.
  unfold descending. induction 1 as [|y sorted Hs IH Hy]; simpl.
  - repeat constructor.
  - destruct (Nat.leb_spec (String.length (r_path y)) (String.length (r_path route))).
    + constructor; [now constructor|].
      constructor; [assumption|].
      rewrite List.Forall_forall in *. intros z Hz. specialize (Hy z Hz). lia.
    + constructor; [exact IH|].
      rewrite List.Forall_forall in *. intros z Hz.
      apply insertRoute_In in Hz as [-> | Hz]; [lia | now apply Hy].
Qed.

Lemma sortRoutes_descending (routes : list MockRoute) : descending (sortRoutes routes).
Proof.
  induction routes as [|r routes IH]; simpl; [constructor|].
  now apply insertRoute_descending.
Qed.

Lemma find_descending (f : MockRoute -> bool) (sorted : list MockRoute)
      (best : MockRoute) :
  descending sorted -> find f sorted = Some best ->
  In best sorted /\ f best = true
  /\ forall r, In r sorted -> f r = true ->
               String.length (r_path r) <= String.length (r_path best).
Proof.
  unfold descending. induction 1 as [|y sorted Hs IH Hy]; simpl; [discriminate|].
  destruct (f y) eqn:Hfy.
  - intros [= <-]. repeat split; auto.
    intros r [<- | Hr] _; [lia|].
    rewrite List.Forall_forall in Hy. now apply Hy.
  - intros Hfind. destruct (IH Hfind) as (Hin & Hbest & Hmax).
    repeat split; auto.
    intros r [<- | Hr] Hfr; [congruence | now apply Hmax].
Qed.

Lemma find_none (f : MockRoute -> bool) (l : list MockRoute) :
  (forall r, In r l -> f r = false) -> find f l = None.
Proof.
  induction l as [|x l IH]; simpl; intros H; [reflexivity|].
  rewrite (H x) by now left. apply IH. intros r Hr. apply H. now right.
Qed.

Lemma find_some (f : MockRoute -> bool) (l : list MockRoute) (r : MockRoute) :
  In r l -> f r = true -> exists best, find f l = Some best.
Proof.
  induction l as [|x l IH]; simpl; intros Hin Hr; [destruct Hin|].
  destruct (f x) eqn:Hx; [now exists x|].
  destruct Hin as [-> | Hin]; [congruence | now apply IH].
Qed.

End MockServer.

(** X29.  The mock server of the tests answers with the most specific
    route: among the routes whose method is the one of the request and
    whose path is a prefix of the requested path, one with a path of the
    greatest length answers, with status 200 unless the route names
    another.  When no route matches the answer is 404 with the body
    [{error: "Not found"}]. *)
Theorem mock_server_longest_match (routes : list TestUtils.MockRoute)
        (method pathname : string) :
  ((forall route, In route routes ->
                  TestUtils.routeMatches method pathname route = false) ->
   TestUtils.respond routes method pathname
   = (404%Z, JObj [("error", JStr "Not found")]))
  /\ (forall route,
         In route routes -> TestUtils.routeMatches method pathname route = true ->
         exists best,
           In best routes
           /\ TestUtils.routeMatches method pathname best = true
           /\ TestUtils.respond routes method pathname
              = (default 200%Z (TestUtils.r_status best), TestUtils.r_response best)
           /\ forall other,
                In other routes ->
                TestUtils.routeMatches method pathname other = true ->
                String.length (TestUtils.r_path other)
                <= String.length (TestUtils.r_path best)).
Proof.
  split.
  - intros Hnone. unfold TestUtils.respond. rewrite find_none; [reflexivity|].
    intros r Hr. apply Hnone. now apply sortRoutes_In.
  - intros route Hin Hmatch.
    destruct (find_some (TestUtils.routeMatches method pathname)
                (TestUtils.sortRoutes routes) route) as (best & Hfind);
      [now apply sortRoutes_In | exact Hmatch |].
    destruct (find_descending _ _ best (sortRoutes_descending routes) Hfind)
      as (Hbest & Hfb & Hmax).
    exists best. split; [now apply sortRoutes_In|]. split; [exact Hfb|]. split.
    + unfold TestUtils.respond. now rewrite Hfind.
    + intros other Ho Hfo. apply Hmax; [now apply sortRoutes_In | exact Hfo].
Qed.


Lemma mock_server_longest_match_witness :
  TestUtils.respond
    [{| TestUtils.r_method := Some "GET"; TestUtils.r_path := "/v1/events";
        TestUtils.r_response := JObj [("data", JArr [])]; TestUtils.r_status := None |};
     {| TestUtils.r_method := None; TestUtils.r_path := "/v1/events/evt-404";
        TestUtils.r_response := JObj [("data", JNull)]; TestUtils.r_status := None |}]
    "GET" "/v1/runs/run-1"
  = (404%Z, JObj [("error", JStr "Not found")])
  /\ exists best,
       TestUtils.respond
         [{| TestUtils.r_method := Some "GET"; TestUtils.r_path := "/v1/events";
             TestUtils.r_response := JObj [("data", JArr [])];
             TestUtils.r_status := None |};
          {| TestUtils.r_method := None; TestUtils.r_path := "/v1/events/evt-404";
             TestUtils.r_response := JObj [("data", JNull)];
             TestUtils.r_status := None |}]
         "GET" "/v1/events/evt-404"
       = (default 200%Z (TestUtils.r_status best), TestUtils.r_response best)
       /\ String.length "/v1/events" <= String.length (TestUtils.r_path best).
Proof.
  set (list := {| TestUtils.r_method := Some "GET"; TestUtils.r_path := "/v1/events";
                  TestUtils.r_response := JObj [("data", JArr [])];
                  TestUtils.r_status := None |}).
  set (missing := {| TestUtils.r_method := None; TestUtils.r_path := "/v1/events/evt-404";
                     TestUtils.r_response := JObj [("data", JNull)];
                     TestUtils.r_status := None |}).
  split.
  - apply (proj1 (mock_server_longest_match [list; missing] "GET" "/v1/runs/run-1")).
    intros route [<- | [<- | []]]; reflexivity.
  - destruct (proj2 (mock_server_longest_match [list; missing] "GET"
                       "/v1/events/evt-404") list)
      as (best & _ & _ & Hrespond & Hmax).
    + left. reflexivity.
    + reflexivity.
    + exists best. split; [exact Hrespond|].
      apply (Hmax list); [left; reflexivity | reflexivity].
Defined.

(** X30.  What [mockRunResponse] writes in the wire format, [getRun]
    reads back: for the reply the mock builds from a run, [getRun]
    returns the run id, the status, the function id, the start and the
    end it was built from, with version 1, the event id of the mock, and
    null for a missing end or output. *)
Theorem getRun_reads_back_mockRunResponse (mock pf : Platform)
        (options : TestUtils.MockRunOptions) (w0 w1 : World) (reply : JsVal)
        (runId : string) (clientOptions : Client.ClientOptions) (w w' : World) :
  TestUtils.mockRunResponse mock options w0 = (Done reply, w1) ->
  Client.apiRequest pf (Client.createClient pf clientOptions) "GET"
    ("/v1/runs/" +:+ runId) JUndefined w = (Done reply, w') ->
  Runs.getRun pf runId clientOptions w
  = (Done (JObj [("runId", JStr (TestUtils.m_runId options));
                 ("status", JStr (TestUtils.m_status options));
                 ("functionId", JStr (TestUtils.m_functionId options));
                 ("functionVersion", JNum 1);
                 ("eventId", JStr "test-event-id");
                 ("startedAt",
                  JStr (match TestUtils.m_startedAt options with
                        | Some s => s
                        | None => isoOfTime (clock mock (ticks w0))
                        end));
                 ("endedAt", match TestUtils.m_endedAt options with
                             | Some e => JStr e
                             | None => JNull
                             end);
                 ("output", nullish (TestUtils.m_output options) JNull)]), w').
Proof.
  intros Hmock Hcall. unfold Runs.getRun, bind. rewrite Hcall.
  unfold TestUtils.mockRunResponse, bind in Hmock.
  destruct (TestUtils.m_startedAt options) as [s|].
  - injection Hmock as <- _. reflexivity.
  - unfold Date_now in Hmock. cbn [lift] in Hmock.
    destruct (timeClip (clock mock (ticks w0))) as [t|] eqn:Hclip;
      [|discriminate].
    unfold timeClip in Hclip.
    destruct (Z.abs (clock mock (ticks w0)) <=? maxTime)%Z; [|discriminate].
    injection Hclip as <-. injection Hmock as <- _. reflexivity.
Qed.

Lemma getRun_reads_back_mockRunResponse_witness :
  fst (Runs.getRun
         (served 200 (JObj [("data",
                             JObj [("run_id", JStr "run-running");
                                   ("status", JStr "Running");
                                   ("function_id", JStr "test-app-test-func");
                                   ("function_version", JNum 1);
                                   ("event_id", JStr "test-event-id");
                                   ("run_started_at", JStr "2024-01-01T10:00:00Z");
                                   ("ended_at", JNull);
                                   ("output", JNull)])]))
         "run-running" devOptions world0)
  = Done (JObj [("runId", JStr "run-running"); ("status", JStr "Running");
                ("functionId", JStr "test-app-test-func");
                ("functionVersion", JNum 1); ("eventId", JStr "test-event-id");
                ("startedAt", JStr "2024-01-01T10:00:00Z");
                ("endedAt", JNull); ("output", JNull)]).
Proof.
  set (pf := served 200 _).
  rewrite (getRun_reads_back_mockRunResponse (demo 200 "" None) pf
             {| TestUtils.m_runId := "run-running"; TestUtils.m_status := "Running";
                TestUtils.m_functionId := "test-app-test-func";
                TestUtils.m_startedAt := Some "2024-01-01T10:00:00Z";
                TestUtils.m_endedAt := None; TestUtils.m_output := JUndefined |}
             world0 world0 _ "run-running" devOptions world0
             (snd (Client.apiRequest pf (Client.createClient pf devOptions) "GET"
                     ("/v1/runs/" +:+ "run-running") JUndefined world0))
             eq_refl eq_refl).
  reflexivity.
Defined.
